(** * PSX Verb: the PlayStation 1 SPU reverb of move-anything-psxverb

    A shallow embedding of [src/dsp/psxverb.c] in its two SPU-accurate
    variants:

    - the global, single-instance plugin (API v1: [apply_preset],
      [update_decay], [fx_process_block], [fx_set_param]);
    - the instance-based plugin (API v2: [v2_apply_preset],
      [v2_update_decay], [v2_process_block], [v2_set_param],
      [v2_get_param]).

    Both share the halfband resampler, the Work Area, the preset table
    and the loop body of the block function.  The earlier approximate
    reverb (plain floating-point combs and allpasses) is embedded in the
    module [Legacy].

    Integers are [Z] with the wrap-around of their C type written out;
    loop counters and sample indices of type [int] stay far below their
    range and are plain [Z].  Arrays are lists read and written by index.
    The C type [float] is kept abstract behind the interface [FloatOps]:
    everything that only moves values around (presets, parameters, the
    block loop) is stated for every implementation of that interface.
    Where a property is about the numbers themselves the interface is
    instantiated: with exact rational arithmetic ([Q_float]), which leaves
    out binary32 rounding, infinities and NaNs, and with IEEE 754 binary32
    arithmetic ([B32_float]), which has them.  Properties that turn on
    infinities, on NaN or on the range of [int32_t] are stated over
    binary32, or over the rationals with the bound they need. *)

From Stdlib Require Import ZArith QArith Qabs Qminmax String Ascii Lia Lqa.
From Stdlib Require Import SpecFloat.
From stdpp Require Import base list.

Local Open Scope Z_scope.

(** ** Machine integers *)

(** Conversion to [uint32_t], [int32_t], [int16_t]: reduction modulo the
    width. *)
Definition wrap_u32 (z : Z) : Z := z mod 2 ^ 32.
Definition wrap_s32 (z : Z) : Z := (z + 2 ^ 31) mod 2 ^ 32 - 2 ^ 31.
Definition wrap_s16 (z : Z) : Z := (z + 2 ^ 15) mod 2 ^ 16 - 2 ^ 15.

(** The cast [(int16_t)0xBA80] of the preset table. *)
Definition int16_t (z : Z) : Z := wrap_s16 z.

(** [a[i]] on a C array held as a list.  An index outside the array is
    undefined in C; the model then reads [d]. *)
Definition array_get {A : Type} (a : list A) (i : Z) (d : A) : A :=
  if i <? 0 then d else default d (a !! Z.to_nat i).

(** [a[i] = x].  An index outside the array is undefined in C; the model
    then leaves the array as it is. *)
Definition array_set {A : Type} (a : list A) (i : Z) (x : A) : list A :=
  if i <? 0 then a else <[Z.to_nat i := x]> a.

(** [memset(a, 0, n * sizeof *a)]: the first [n] elements become [z]. *)
Definition memset {A : Type} (a : list A) (z : A) (n : Z) : list A :=
  replicate (Nat.min (Z.to_nat n) (length a)) z ++ drop (Z.to_nat n) a.

(** ** The arithmetic of [float] *)

Class FloatOps (F : Type) := {
  f_lit : Q -> F;              (* a literal such as [0.99f] *)
  f_of_int : Z -> F;           (* [(float)n] *)
  f_to_int : F -> Z;           (* [(int32_t)x] *)
  f_add : F -> F -> F;
  f_sub : F -> F -> F;
  f_mul : F -> F -> F;
  f_div : F -> F -> F;
  f_neg : F -> F;
  f_lt : F -> F -> bool;       (* [x < y] *)
  f_le : F -> F -> bool;       (* [x <= y] *)
  atof : string -> F;          (* [(float)atof(s)] *)
  fmt_fixed : nat -> F -> string  (* [printf("%.Nf", (double)x)] *)
}.

Infix "+." := f_add (at level 50, left associativity).
Infix "-." := f_sub (at level 50, left associativity).
Infix "*." := f_mul (at level 40, left associativity).
Infix "/." := f_div (at level 40, left associativity).
Infix "<." := f_lt (at level 70, no associativity).
Infix "<=." := f_le (at level 70, no associativity).
Notation "x >. y" := (f_lt y x) (at level 70, no associativity, only parsing).

(** ** Work Area: the SPU RAM *)

Definition WORK_MAX_SIZE : Z := 65536.

Module WorkArea.
(** [workarea_t].  [buf] is the array the pointer [buf] refers to (the
    static [g_work_buffer] in v1, the instance's [work_buffer] in v2). *)
Record workarea_t := {
  buf : list Z;        (* int16_t * *)
  size_mask : Z;       (* uint32_t *)
  base : Z             (* uint32_t *)
}.
End WorkArea.
Abbreviation workarea_t := WorkArea.workarea_t.

(** The element [(wa->base + offset) & wa->size_mask], computed in
    [uint32_t]. *)
Definition workarea_index (wa : workarea_t) (offset : Z) : Z :=
  Z.land (wrap_u32 (WorkArea.base wa + offset)) (WorkArea.size_mask wa).

(** v1 [workarea_init]. *)
Definition workarea_init (wa : workarea_t) (size_pow2 : Z) : workarea_t :=
  {| WorkArea.buf := memset (WorkArea.buf wa) 0 size_pow2;
     WorkArea.size_mask := wrap_u32 (size_pow2 - 1);
     WorkArea.base := 0 |}.

Definition workarea_advance (wa : workarea_t) (n : Z) : workarea_t :=
  {| WorkArea.buf := WorkArea.buf wa;
     WorkArea.size_mask := WorkArea.size_mask wa;
     WorkArea.base :=
       Z.land (wrap_u32 (WorkArea.base wa + n)) (WorkArea.size_mask wa) |}.

(** The 16-bit saturation of [workarea_write_relative]. *)
Definition saturate16 (val_int : Z) : Z :=
  let val_int := if val_int >? 32767 then 32767 else val_int in
  let val_int := if val_int <? -32768 then -32768 else val_int in
  val_int.

Section WorkAreaAccess.
Context {F : Type} `{FloatOps F}.

Definition kInt16ToFloat : F := f_lit 1 /. f_lit 32768.
Definition kFloatToInt16 : F := f_lit 32768.

Definition workarea_read_relative (wa : workarea_t) (offset : Z) : F :=
  let idx := workarea_index wa offset in
  f_of_int (array_get (WorkArea.buf wa) idx 0) *. kInt16ToFloat.

Definition workarea_write_relative (wa : workarea_t) (offset : Z) (value : F)
  : workarea_t :=
  let val_int := f_to_int (value *. kFloatToInt16) in
  let val_int := saturate16 val_int in
  let idx := workarea_index wa offset in
  {| WorkArea.buf := array_set (WorkArea.buf wa) idx (wrap_s16 val_int);
     WorkArea.size_mask := WorkArea.size_mask wa;
     WorkArea.base := WorkArea.base wa |}.

End WorkAreaAccess.

(** ** Halfband 39-tap FIR *)

Definition HB_TAPS : Z := 39.
Definition HB_STATE_SIZE : Z := 64.
Definition HB_STATE_MASK : Z := 63.

Section Halfband.
Context {F : Type} `{FloatOps F}.

Definition g_hb_coeffs : list F := map f_lit [
  -0.000275135; 0; -0.001467466; 0; -0.004356503; 0; -0.009765625; 0;
  -0.018493652; 0; -0.031494141; 0; -0.050598145; 0; -0.079833984; 0;
  -0.130859375; 0; -0.281494141;  0.632812500; -0.281494141; 0;
  -0.130859375; 0; -0.079833984; 0; -0.050598145; 0; -0.031494141; 0;
  -0.018493652; 0; -0.009765625; 0; -0.004356503; 0; -0.001467466; 0;
  -0.000275135 ]%Q.

(** Polyphase phase 0: the coefficients at even indices. *)
Definition g_hb_phase0 : list F := map f_lit [
  -0.000275135; -0.001467466; -0.004356503; -0.009765625;
  -0.018493652; -0.031494141; -0.050598145; -0.079833984;
  -0.130859375; -0.281494141;  0.632812500; -0.281494141;
  -0.130859375; -0.079833984; -0.050598145; -0.031494141;
  -0.018493652; -0.009765625; -0.004356503; -0.001467466 ]%Q.

(** Polyphase phase 1: the coefficients at odd indices. *)
Definition g_hb_phase1 : list F := map f_lit [
  0; 0; 0; 0; 0; 0; 0; 0; 0;
  0; 0; 0; 0; 0; 0; 0; 0; 0; 0 ]%Q.

Record halfband_t := {
  state : list F;      (* float state[HB_STATE_SIZE] *)
  pos : Z              (* int *)
}.

Definition halfband_init (hb : halfband_t) : halfband_t :=
  {| state := replicate (Z.to_nat HB_STATE_SIZE) (f_lit 0); pos := 0 |}.

(** [hb->state[hb->pos] = x; hb->pos = (hb->pos + 1) & HB_STATE_MASK;] *)
Definition halfband_push (hb : halfband_t) (x : F) : halfband_t :=
  {| state := array_set (state hb) (pos hb) x;
     pos := Z.land (pos hb + 1) HB_STATE_MASK |}.

(** The convolution loop
    [for (i = 0; i < N; ++i) { idx = (idx - 1) & MASK; sum += g[i] * state[idx]; }]
    over the coefficient table [g]. *)
Fixpoint hb_convolve (g : list F) (st : list F) (idx : Z) (sum : F) : F :=
  match g with
  | [] => sum
  | c :: g' =>
      let idx := Z.land (idx - 1) HB_STATE_MASK in
      hb_convolve g' st idx (sum +. c *. array_get st idx (f_lit 0))
  end.

(** Decimate: two samples in, one out. *)
Definition halfband_decimate (hb : halfband_t) (x0 x1 : F) : halfband_t * F :=
  let hb := halfband_push hb x0 in
  let hb := halfband_push hb x1 in
  let sum := hb_convolve g_hb_coeffs (state hb) (pos hb) (f_lit 0) in
  (hb, sum).

(** Interpolate: one sample in, two out ([out_s0], [out_s1]). *)
Definition halfband_interpolate (hb : halfband_t) (in_tick : F)
  : halfband_t * (F * F) :=
  let hb := halfband_push hb in_tick in
  let sum0 := hb_convolve g_hb_phase0 (state hb) (pos hb) (f_lit 0) in
  let hb := halfband_push hb (f_lit 0) in
  let sum1 := hb_convolve g_hb_phase1 (state hb) (pos hb) (f_lit 0) in
  (hb, (sum0 *. f_lit 2, sum1 *. f_lit 2)).

End Halfband.
Arguments halfband_t F : clear implicits.

(** ** Presets: the SPU register values *)

Module Preset.
(** [psx_preset_t].  Displacements and addresses are [uint16_t], volumes
    [int16_t], [work_size] is [uint32_t]. *)
Record psx_preset_t := {
  dAPF1 : Z; dAPF2 : Z;
  vIIR : Z;
  vCOMB1 : Z; vCOMB2 : Z; vCOMB3 : Z; vCOMB4 : Z;
  vWALL : Z;
  vAPF1 : Z; vAPF2 : Z;
  mLSAME : Z; mRSAME : Z;
  dLSAME : Z; dRSAME : Z;
  mLDIFF : Z; mRDIFF : Z;
  dLDIFF : Z; dRDIFF : Z;
  mLCOMB1 : Z; mRCOMB1 : Z;
  mLCOMB2 : Z; mRCOMB2 : Z;
  mLCOMB3 : Z; mRCOMB3 : Z;
  mLCOMB4 : Z; mRCOMB4 : Z;
  mLAPF1 : Z; mRAPF1 : Z;
  mLAPF2 : Z; mRAPF2 : Z;
  vLIN : Z; vRIN : Z;
  vLOUT : Z; vROUT : Z;
  work_size : Z;       (* in bytes *)
  name : string
}.
End Preset.

Definition kRoom : Preset.psx_preset_t := {|
  Preset.dAPF1 := 0x007D; Preset.dAPF2 := 0x005B;
  Preset.vIIR := 0x6D80; Preset.vCOMB1 := 0x54B8;
  Preset.vCOMB2 := int16_t 0xBED0;
  Preset.vCOMB3 := 0x0000; Preset.vCOMB4 := 0x0000;
  Preset.vWALL := int16_t 0xBA80;
  Preset.vAPF1 := 0x5800; Preset.vAPF2 := 0x5300;
  Preset.mLSAME := 0x04D6; Preset.mRSAME := 0x0333;
  Preset.dLSAME := 0x0334; Preset.dRSAME := 0x01B5;
  Preset.mLDIFF := 0x0000; Preset.mRDIFF := 0x0000;
  Preset.dLDIFF := 0x0000; Preset.dRDIFF := 0x0000;
  Preset.mLCOMB1 := 0x03F0; Preset.mRCOMB1 := 0x0227;
  Preset.mLCOMB2 := 0x0374; Preset.mRCOMB2 := 0x01EF;
  Preset.mLCOMB3 := 0x0000; Preset.mRCOMB3 := 0x0000;
  Preset.mLCOMB4 := 0x0000; Preset.mRCOMB4 := 0x0000;
  Preset.mLAPF1 := 0x01B4; Preset.mRAPF1 := 0x0136;
  Preset.mLAPF2 := 0x00B8; Preset.mRAPF2 := 0x005C;
  Preset.vLIN := int16_t 0x8000; Preset.vRIN := int16_t 0x8000;
  Preset.vLOUT := int16_t 0x8000; Preset.vROUT := int16_t 0x8000;
  Preset.work_size := 0x26C0;
  Preset.name := "Room"
|}.

Definition kStudioSmall : Preset.psx_preset_t := {|
  Preset.dAPF1 := 0x0033; Preset.dAPF2 := 0x0025;
  Preset.vIIR := 0x70F0; Preset.vCOMB1 := 0x4FA8;
  Preset.vCOMB2 := int16_t 0xBCE0;
  Preset.vCOMB3 := 0x4410; Preset.vCOMB4 := int16_t 0xC0F0;
  Preset.vWALL := int16_t 0x9C00;
  Preset.vAPF1 := 0x5280; Preset.vAPF2 := 0x4EC0;
  Preset.mLSAME := 0x03E4; Preset.mRSAME := 0x031B;
  Preset.dLSAME := 0x031C; Preset.dRSAME := 0x025D;
  Preset.mLDIFF := 0x025C; Preset.mRDIFF := 0x018E;
  Preset.dLDIFF := 0x018F; Preset.dRDIFF := 0x00B5;
  Preset.mLCOMB1 := 0x03A4; Preset.mRCOMB1 := 0x02AF;
  Preset.mLCOMB2 := 0x0372; Preset.mRCOMB2 := 0x0266;
  Preset.mLCOMB3 := 0x022F; Preset.mRCOMB3 := 0x0135;
  Preset.mLCOMB4 := 0x01D2; Preset.mRCOMB4 := 0x00B7;
  Preset.mLAPF1 := 0x00B4; Preset.mRAPF1 := 0x0080;
  Preset.mLAPF2 := 0x004C; Preset.mRAPF2 := 0x0026;
  Preset.vLIN := int16_t 0x8000; Preset.vRIN := int16_t 0x8000;
  Preset.vLOUT := int16_t 0x8000; Preset.vROUT := int16_t 0x8000;
  Preset.work_size := 0x1F40;
  Preset.name := "Studio S"
|}.

Definition kStudioMedium : Preset.psx_preset_t := {|
  Preset.dAPF1 := 0x00B1; Preset.dAPF2 := 0x007F;
  Preset.vIIR := 0x70F0; Preset.vCOMB1 := 0x4FA8;
  Preset.vCOMB2 := int16_t 0xBCE0;
  Preset.vCOMB3 := 0x4510; Preset.vCOMB4 := int16_t 0xBEF0;
  Preset.vWALL := int16_t 0xB4C0;
  Preset.vAPF1 := 0x5280; Preset.vAPF2 := 0x4EC0;
  Preset.mLSAME := 0x0904; Preset.mRSAME := 0x076B;
  Preset.dLSAME := 0x076C; Preset.dRSAME := 0x05ED;
  Preset.mLDIFF := 0x05EC; Preset.mRDIFF := 0x042E;
  Preset.dLDIFF := 0x042F; Preset.dRDIFF := 0x0265;
  Preset.mLCOMB1 := 0x0824; Preset.mRCOMB1 := 0x065F;
  Preset.mLCOMB2 := 0x07A2; Preset.mRCOMB2 := 0x0616;
  Preset.mLCOMB3 := 0x050F; Preset.mRCOMB3 := 0x0305;
  Preset.mLCOMB4 := 0x0462; Preset.mRCOMB4 := 0x02B7;
  Preset.mLAPF1 := 0x0264; Preset.mRAPF1 := 0x01B2;
  Preset.mLAPF2 := 0x0100; Preset.mRAPF2 := 0x0080;
  Preset.vLIN := int16_t 0x8000; Preset.vRIN := int16_t 0x8000;
  Preset.vLOUT := int16_t 0x8000; Preset.vROUT := int16_t 0x8000;
  Preset.work_size := 0x4840;
  Preset.name := "Studio M"
|}.

Definition kStudioLarge : Preset.psx_preset_t := {|
  Preset.dAPF1 := 0x00E3; Preset.dAPF2 := 0x00A9;
  Preset.vIIR := 0x6F60; Preset.vCOMB1 := 0x4FA8;
  Preset.vCOMB2 := int16_t 0xBCE0;
  Preset.vCOMB3 := 0x4510; Preset.vCOMB4 := int16_t 0xBEF0;
  Preset.vWALL := int16_t 0xA680;
  Preset.vAPF1 := 0x5680; Preset.vAPF2 := 0x52C0;
  Preset.mLSAME := 0x0DFB; Preset.mRSAME := 0x0B58;
  Preset.dLSAME := 0x0B59; Preset.dRSAME := 0x08DA;
  Preset.mLDIFF := 0x08D9; Preset.mRDIFF := 0x05E9;
  Preset.dLDIFF := 0x05EA; Preset.dRDIFF := 0x031D;
  Preset.mLCOMB1 := 0x0D09; Preset.mRCOMB1 := 0x0A3C;
  Preset.mLCOMB2 := 0x0BD9; Preset.mRCOMB2 := 0x0973;
  Preset.mLCOMB3 := 0x07EC; Preset.mRCOMB3 := 0x04B0;
  Preset.mLCOMB4 := 0x06EF; Preset.mRCOMB4 := 0x03D2;
  Preset.mLAPF1 := 0x031C; Preset.mRAPF1 := 0x0238;
  Preset.mLAPF2 := 0x0154; Preset.mRAPF2 := 0x00AA;
  Preset.vLIN := int16_t 0x8000; Preset.vRIN := int16_t 0x8000;
  Preset.vLOUT := int16_t 0x8000; Preset.vROUT := int16_t 0x8000;
  Preset.work_size := 0x6FE0;
  Preset.name := "Studio L"
|}.

Definition kHall : Preset.psx_preset_t := {|
  Preset.dAPF1 := 0x01A5; Preset.dAPF2 := 0x0139;
  Preset.vIIR := 0x6000; Preset.vCOMB1 := 0x5000;
  Preset.vCOMB2 := 0x4C00;
  Preset.vCOMB3 := int16_t 0xB800; Preset.vCOMB4 := int16_t 0xBC00;
  Preset.vWALL := int16_t 0xC000;
  Preset.vAPF1 := 0x6000; Preset.vAPF2 := 0x5C00;
  Preset.mLSAME := 0x15BA; Preset.mRSAME := 0x11BB;
  Preset.dLSAME := 0x11C0; Preset.dRSAME := 0x0DC3;
  Preset.mLDIFF := 0x0DC0; Preset.mRDIFF := 0x09C1;
  Preset.dLDIFF := 0x09C2; Preset.dRDIFF := 0x05C1;
  Preset.mLCOMB1 := 0x14C2; Preset.mRCOMB1 := 0x10BD;
  Preset.mLCOMB2 := 0x11BC; Preset.mRCOMB2 := 0x0DC1;
  Preset.mLCOMB3 := 0x0BC4; Preset.mRCOMB3 := 0x07C1;
  Preset.mLCOMB4 := 0x0A00; Preset.mRCOMB4 := 0x06CD;
  Preset.mLAPF1 := 0x05C0; Preset.mRAPF1 := 0x041A;
  Preset.mLAPF2 := 0x0274; Preset.mRAPF2 := 0x013A;
  Preset.vLIN := int16_t 0x8000; Preset.vRIN := int16_t 0x8000;
  Preset.vLOUT := int16_t 0x8000; Preset.vROUT := int16_t 0x8000;
  Preset.work_size := 0xADE0;
  Preset.name := "Hall"
|}.

Definition kSpaceEcho : Preset.psx_preset_t := {|
  Preset.dAPF1 := 0x033D; Preset.dAPF2 := 0x0231;
  Preset.vIIR := 0x7E00; Preset.vCOMB1 := 0x5000;
  Preset.vCOMB2 := int16_t 0xB400;
  Preset.vCOMB3 := int16_t 0xB000; Preset.vCOMB4 := 0x4C00;
  Preset.vWALL := int16_t 0xB000;
  Preset.vAPF1 := 0x6000; Preset.vAPF2 := 0x5400;
  Preset.mLSAME := 0x1ED6; Preset.mRSAME := 0x1A31;
  Preset.dLSAME := 0x1A32; Preset.dRSAME := 0x15EF;
  Preset.mLDIFF := 0x15EE; Preset.mRDIFF := 0x1055;
  Preset.dLDIFF := 0x1056; Preset.dRDIFF := 0x0AE1;
  Preset.mLCOMB1 := 0x1D14; Preset.mRCOMB1 := 0x183B;
  Preset.mLCOMB2 := 0x1BC2; Preset.mRCOMB2 := 0x16B2;
  Preset.mLCOMB3 := 0x1334; Preset.mRCOMB3 := 0x0F2D;
  Preset.mLCOMB4 := 0x11F6; Preset.mRCOMB4 := 0x0C5D;
  Preset.mLAPF1 := 0x0AE0; Preset.mRAPF1 := 0x07A2;
  Preset.mLAPF2 := 0x0464; Preset.mRAPF2 := 0x0232;
  Preset.vLIN := int16_t 0x8000; Preset.vRIN := int16_t 0x8000;
  Preset.vLOUT := int16_t 0x8000; Preset.vROUT := int16_t 0x8000;
  Preset.work_size := 0xF6C0;
  Preset.name := "Space Echo"
|}.

Definition g_presets : list Preset.psx_preset_t :=
  [kRoom; kStudioSmall; kStudioMedium; kStudioLarge; kHall; kSpaceEcho].

(** [&g_presets[idx]]; every caller has [0 <= idx < 6]. *)
Definition preset_at (idx : Z) : Preset.psx_preset_t :=
  array_get g_presets idx kRoom.

(** [next_pow2] on [uint32_t]. *)
Definition next_pow2 (v : Z) : Z :=
  let v := wrap_u32 (v - 1) in
  let v := Z.lor v (Z.shiftr v 1) in
  let v := Z.lor v (Z.shiftr v 2) in
  let v := Z.lor v (Z.shiftr v 4) in
  let v := Z.lor v (Z.shiftr v 8) in
  let v := Z.lor v (Z.shiftr v 16) in
  let v := wrap_u32 (v + 1) in
  v.

(** ** Scaled presets and the plugin state *)

Section Plugin.
Context {F : Type} `{FloatOps F}.

(** [scaled_preset_t]: the run-time form of a preset. *)
Record scaled_preset_t := {
  dAPF1 : Z; dAPF2 : Z;
  dLSAME : Z; dRSAME : Z; dLDIFF : Z; dRDIFF : Z;
  mLSAME : Z; mRSAME : Z; mLDIFF : Z; mRDIFF : Z;
  mLCOMB1 : Z; mRCOMB1 : Z; mLCOMB2 : Z; mRCOMB2 : Z;
  mLCOMB3 : Z; mRCOMB3 : Z; mLCOMB4 : Z; mRCOMB4 : Z;
  mLAPF1 : Z; mRAPF1 : Z; mLAPF2 : Z; mRAPF2 : Z;
  vIIR_f : F; vCOMB1_f : F; vCOMB2_f : F; vCOMB3_f : F; vCOMB4_f : F;
  vWALL_f : F; vAPF1_f : F; vAPF2_f : F; vLIN_f : F; vRIN_f : F;
  vLOUT_f : F; vROUT_f : F
}.

(** The preset [p] with its wall, input and output volumes replaced; every
    other field is kept. *)
Definition with_volumes (p : scaled_preset_t) (wall lin rin lout rout : F)
  : scaled_preset_t :=
  {| dAPF1 := dAPF1 p; dAPF2 := dAPF2 p;
     dLSAME := dLSAME p; dRSAME := dRSAME p;
     dLDIFF := dLDIFF p; dRDIFF := dRDIFF p;
     mLSAME := mLSAME p; mRSAME := mRSAME p;
     mLDIFF := mLDIFF p; mRDIFF := mRDIFF p;
     mLCOMB1 := mLCOMB1 p; mRCOMB1 := mRCOMB1 p;
     mLCOMB2 := mLCOMB2 p; mRCOMB2 := mRCOMB2 p;
     mLCOMB3 := mLCOMB3 p; mRCOMB3 := mRCOMB3 p;
     mLCOMB4 := mLCOMB4 p; mRCOMB4 := mRCOMB4 p;
     mLAPF1 := mLAPF1 p; mRAPF1 := mRAPF1 p;
     mLAPF2 := mLAPF2 p; mRAPF2 := mRAPF2 p;
     vIIR_f := vIIR_f p;
     vCOMB1_f := vCOMB1_f p; vCOMB2_f := vCOMB2_f p;
     vCOMB3_f := vCOMB3_f p; vCOMB4_f := vCOMB4_f p;
     vWALL_f := wall;
     vAPF1_f := vAPF1_f p; vAPF2_f := vAPF2_f p;
     vLIN_f := lin; vRIN_f := rin;
     vLOUT_f := lout; vROUT_f := rout |}.

(** [p->vWALL_f = x] *)
Definition set_vWALL_f (x : F) (p : scaled_preset_t) : scaled_preset_t :=
  with_volumes p x (vLIN_f p) (vRIN_f p) (vLOUT_f p) (vROUT_f p).

(** [p->vLIN_f = l; p->vRIN_f = r] *)
Definition set_vIN_f (l r : F) (p : scaled_preset_t) : scaled_preset_t :=
  with_volumes p (vWALL_f p) l r (vLOUT_f p) (vROUT_f p).

(** [p->vLOUT_f = l; p->vROUT_f = r] *)
Definition set_vOUT_f (l r : F) (p : scaled_preset_t) : scaled_preset_t :=
  with_volumes p (vWALL_f p) (vLIN_f p) (vRIN_f p) l r.

(** The plugin state.  In API v2 this is [psxverb_instance_t], whose
    [work_buffer] is the array [work.buf] points to.  In API v1 the same
    fields are the file's globals [g_preset_idx], [g_decay], [g_mix],
    [g_input_gain], [g_reverb_level], [g_current], [g_base], [g_work],
    [g_down_l], [g_down_r], [g_up_l], [g_up_r]. *)
Record psxverb_instance_t := {
  preset_idx : Z;
  decay : F;
  mix : F;
  input_gain : F;
  reverb_level : F;
  current : scaled_preset_t;
  base : scaled_preset_t;
  work : workarea_t;
  down_l : halfband_t F; down_r : halfband_t F;
  up_l : halfband_t F; up_r : halfband_t F
}.

Definition set_preset_idx (x : Z) (s : psxverb_instance_t) :=
  {| preset_idx := x; decay := decay s; mix := mix s;
     input_gain := input_gain s; reverb_level := reverb_level s;
     current := current s; base := base s; work := work s;
     down_l := down_l s; down_r := down_r s; up_l := up_l s; up_r := up_r s |}.

Definition set_decay (x : F) (s : psxverb_instance_t) :=
  {| preset_idx := preset_idx s; decay := x; mix := mix s;
     input_gain := input_gain s; reverb_level := reverb_level s;
     current := current s; base := base s; work := work s;
     down_l := down_l s; down_r := down_r s; up_l := up_l s; up_r := up_r s |}.

Definition set_mix (x : F) (s : psxverb_instance_t) :=
  {| preset_idx := preset_idx s; decay := decay s; mix := x;
     input_gain := input_gain s; reverb_level := reverb_level s;
     current := current s; base := base s; work := work s;
     down_l := down_l s; down_r := down_r s; up_l := up_l s; up_r := up_r s |}.

Definition set_input_gain (x : F) (s : psxverb_instance_t) :=
  {| preset_idx := preset_idx s; decay := decay s; mix := mix s;
     input_gain := x; reverb_level := reverb_level s;
     current := current s; base := base s; work := work s;
     down_l := down_l s; down_r := down_r s; up_l := up_l s; up_r := up_r s |}.

Definition set_reverb_level (x : F) (s : psxverb_instance_t) :=
  {| preset_idx := preset_idx s; decay := decay s; mix := mix s;
     input_gain := input_gain s; reverb_level := x;
     current := current s; base := base s; work := work s;
     down_l := down_l s; down_r := down_r s; up_l := up_l s; up_r := up_r s |}.

Definition set_current (x : scaled_preset_t) (s : psxverb_instance_t) :=
  {| preset_idx := preset_idx s; decay := decay s; mix := mix s;
     input_gain := input_gain s; reverb_level := reverb_level s;
     current := x; base := base s; work := work s;
     down_l := down_l s; down_r := down_r s; up_l := up_l s; up_r := up_r s |}.

Definition set_base (x : scaled_preset_t) (s : psxverb_instance_t) :=
  {| preset_idx := preset_idx s; decay := decay s; mix := mix s;
     input_gain := input_gain s; reverb_level := reverb_level s;
     current := current s; base := x; work := work s;
     down_l := down_l s; down_r := down_r s; up_l := up_l s; up_r := up_r s |}.

Definition set_work (x : workarea_t) (s : psxverb_instance_t) :=
  {| preset_idx := preset_idx s; decay := decay s; mix := mix s;
     input_gain := input_gain s; reverb_level := reverb_level s;
     current := current s; base := base s; work := x;
     down_l := down_l s; down_r := down_r s; up_l := up_l s; up_r := up_r s |}.

Definition set_halfbands (dl dr ul ur : halfband_t F) (s : psxverb_instance_t) :=
  {| preset_idx := preset_idx s; decay := decay s; mix := mix s;
     input_gain := input_gain s; reverb_level := reverb_level s;
     current := current s; base := base s; work := work s;
     down_l := dl; down_r := dr; up_l := ul; up_r := ur |}.

(** [coeff_to_float]: [(float)coeff / 32768.0f]. *)
Definition coeff_to_float (coeff : Z) : F := f_of_int coeff /. f_lit 32768.

Definition clamp_f (v lo hi : F) : F :=
  if v <. lo then lo else if v >. hi then hi else v.

Definition abs_f (v : F) : F := if v <. f_lit 0 then f_neg v else v.

Definition max_f (a b : F) : F := if a >. b then a else b.

(** [scale_preset] (v1) and [v2_scale_preset] (v2): the same assignments. *)
Definition scale_preset (src : Preset.psx_preset_t) : scaled_preset_t :=
  {| dAPF1 := Preset.dAPF1 src; dAPF2 := Preset.dAPF2 src;
     dLSAME := Preset.dLSAME src; dRSAME := Preset.dRSAME src;
     dLDIFF := Preset.dLDIFF src; dRDIFF := Preset.dRDIFF src;
     mLSAME := Preset.mLSAME src; mRSAME := Preset.mRSAME src;
     mLDIFF := Preset.mLDIFF src; mRDIFF := Preset.mRDIFF src;
     mLCOMB1 := Preset.mLCOMB1 src; mRCOMB1 := Preset.mRCOMB1 src;
     mLCOMB2 := Preset.mLCOMB2 src; mRCOMB2 := Preset.mRCOMB2 src;
     mLCOMB3 := Preset.mLCOMB3 src; mRCOMB3 := Preset.mRCOMB3 src;
     mLCOMB4 := Preset.mLCOMB4 src; mRCOMB4 := Preset.mRCOMB4 src;
     mLAPF1 := Preset.mLAPF1 src; mRAPF1 := Preset.mRAPF1 src;
     mLAPF2 := Preset.mLAPF2 src; mRAPF2 := Preset.mRAPF2 src;
     vIIR_f := coeff_to_float (Preset.vIIR src);
     vCOMB1_f := coeff_to_float (Preset.vCOMB1 src);
     vCOMB2_f := coeff_to_float (Preset.vCOMB2 src);
     vCOMB3_f := coeff_to_float (Preset.vCOMB3 src);
     vCOMB4_f := coeff_to_float (Preset.vCOMB4 src);
     vWALL_f := coeff_to_float (Preset.vWALL src);
     vAPF1_f := coeff_to_float (Preset.vAPF1 src);
     vAPF2_f := coeff_to_float (Preset.vAPF2 src);
     vLIN_f := coeff_to_float (Preset.vLIN src);
     vRIN_f := coeff_to_float (Preset.vRIN src);
     vLOUT_f := coeff_to_float (Preset.vLOUT src);
     vROUT_f := coeff_to_float (Preset.vROUT src) |}.

Definition v2_scale_preset (src : Preset.psx_preset_t) : scaled_preset_t :=
  scale_preset src.

End Plugin.
Arguments scaled_preset_t F : clear implicits.
Arguments psxverb_instance_t F : clear implicits.

(** ** C strings *)

Local Open Scope string_scope.

(** The double quote character; JSON texts below are written with an
    apostrophe in its place and converted by [json_text]. *)
Definition dquote : ascii := ascii_of_nat 34.

Fixpoint json_text (s : string) : string :=
  match s with
  | EmptyString => EmptyString
  | String c s' =>
      String (if Ascii.eqb c "'"%char then dquote else c) (json_text s')
  end.

(** [isspace] in the C locale. *)
Definition is_space (c : ascii) : bool :=
  let n := nat_of_ascii c in
  (n =? 32)%nat || ((9 <=? n)%nat && (n <=? 13)%nat).

Definition is_digit (c : ascii) : bool :=
  let n := nat_of_ascii c in (48 <=? n)%nat && (n <=? 57)%nat.

Definition digit_val (c : ascii) : Z := Z.of_nat (nat_of_ascii c) - 48.

Definition digit_char (d : Z) : ascii := ascii_of_nat (48 + Z.to_nat d).

Fixpoint skip_space (s : string) : string :=
  match s with
  | String c s' => if is_space c then skip_space s' else s
  | EmptyString => s
  end.

(** The loop that advances [pos] while it points at a blank. *)
Fixpoint skip_blanks (s : string) : string :=
  match s with
  | String c s' => if Ascii.eqb c " "%char then skip_blanks s' else s
  | EmptyString => s
  end.

(** The longest run of decimal digits at the head of [s]: its value
    (continuing [acc]), its length (continuing [n]) and what follows. *)
Fixpoint scan_digits (s : string) (acc : Z) (n : nat) : Z * nat * string :=
  match s with
  | String c s' =>
      if is_digit c then scan_digits s' (acc * 10 + digit_val c) (S n)
      else (acc, n, s)
  | EmptyString => (acc, n, s)
  end.

(** An optional sign: [true] for ['-']. *)
Definition scan_sign (s : string) : bool * string :=
  match s with
  | String c s' =>
      if Ascii.eqb c "-"%char then (true, s')
      else if Ascii.eqb c "+"%char then (false, s')
      else (false, s)
  | EmptyString => (false, s)
  end.

(** [strtol(s, NULL, 10)] on a 64-bit [long]: the value saturates. *)
Definition strtol10 (s : string) : Z :=
  let '(neg, s) := scan_sign (skip_space s) in
  let '(v, _, _) := scan_digits s 0 0 in
  let v := if neg then - v else v in
  Z.max (- 2 ^ 63) (Z.min (2 ^ 63 - 1) v).

(** [atoi]: [(int)strtol(s, NULL, 10)]. *)
Definition atoi (s : string) : Z := wrap_s32 (strtol10 s).

(** [strstr]: the suffix of [haystack] that starts at the first occurrence
    of [needle]. *)
Fixpoint strstr (haystack needle : string) : option string :=
  if String.prefix needle haystack then Some haystack
  else match haystack with
       | EmptyString => None
       | String _ h' => strstr h' needle
       end.

(** [pos += n] on a string of at least [n] characters. *)
Fixpoint str_skip (n : nat) (s : string) : string :=
  match n, s with
  | S n', String _ s' => str_skip n' s'
  | _, _ => s
  end.

(** What [snprintf(buf, size, ...)] leaves in [buf] when the formatted text
    is [s]: at most [size - 1] characters. *)
Definition snprintf_buf (size : Z) (s : string) : string :=
  String.substring 0 (Z.to_nat (size - 1)) s.

(** ["%d"] *)
Fixpoint digits_fuel (fuel : nat) (n : Z) (acc : string) : string :=
  match fuel with
  | O => acc
  | S fuel' =>
      let acc' := String (digit_char (n mod 10)) acc in
      if (n <? 10)%Z then acc' else digits_fuel fuel' (n / 10) acc'
  end.

Definition fmt_nat (n : Z) : string :=
  digits_fuel (S (Z.to_nat (Z.log2 n))) n EmptyString.

Definition fmt_int (n : Z) : string :=
  if (n <? 0)%Z then String "-"%char (fmt_nat (- n)) else fmt_nat n.

(** [k] decimal digits of [m], zero padded. *)
Fixpoint fmt_pad (k : nat) (m : Z) : string :=
  match k with
  | O => EmptyString
  | S k' => fmt_pad k' (m / 10) ++ String (digit_char (m mod 10)) EmptyString
  end.

Local Close Scope string_scope.

(** ** Preset scaling and live parameter modulation *)

Definition sizeof_int16_t : Z := 2.

Section Modulation.
Context {F : Type} `{FloatOps F}.

(** *** API v1 (global state) *)

(** [update_decay]: normalized 0..1 onto 0.5x..maxScale, 1x at the middle. *)
Definition update_decay (norm_decay : F) (g : psxverb_instance_t F)
  : psxverb_instance_t F :=
  let base_ := max_f (f_lit 0.00001) (abs_f (vWALL_f (base g))) in
  let max_scale := clamp_f (f_lit 0.99 /. base_) (f_lit 0.5) (f_lit 10) in
  let min_scale := f_lit 0.5 in
  let mid_scale := f_lit 1 in
  let mid_norm := f_lit 0.5 in
  let wall_scale :=
    if norm_decay <=. mid_norm then
      let t := norm_decay /. mid_norm in
      min_scale +. t *. (mid_scale -. min_scale)
    else
      let t := (norm_decay -. mid_norm) /. (f_lit 1 -. mid_norm) in
      mid_scale +. t *. (max_scale -. mid_scale) in
  let target := vWALL_f (base g) *. wall_scale in
  set_current
    (set_vWALL_f (clamp_f target (f_lit (-0.995)) (f_lit 0.995)) (current g)) g.

Definition update_input_gain (gain : F) (g : psxverb_instance_t F)
  : psxverb_instance_t F :=
  let gain_scale := gain *. f_lit 2 in
  set_current
    (set_vIN_f (vLIN_f (base g) *. gain_scale) (vRIN_f (base g) *. gain_scale)
       (current g)) g.

Definition update_reverb_level (level : F) (g : psxverb_instance_t F)
  : psxverb_instance_t F :=
  let level_scale := level *. f_lit 4 in
  set_current
    (set_vOUT_f (vLOUT_f (base g) *. level_scale)
       (vROUT_f (base g) *. level_scale) (current g)) g.

(** [apply_preset].  The call of [fx_log] at its end has no effect on the
    state and is left out. *)
Definition apply_preset (idx : Z) (g : psxverb_instance_t F)
  : psxverb_instance_t F :=
  let idx := if idx <? 0 then 0 else idx in
  let idx := if idx >? 5 then 5 else idx in
  let g := set_preset_idx idx g in
  let src := preset_at idx in
  let g := set_base (scale_preset src) g in
  let g := set_current (base g) g in
  let work_size := next_pow2 (Preset.work_size src / sizeof_int16_t) in
  let work_size := if work_size >? WORK_MAX_SIZE then WORK_MAX_SIZE
                   else work_size in
  let g := set_work (workarea_init (work g) work_size) g in
  let g := update_decay (decay g) g in
  let g := update_input_gain (input_gain g) g in
  let g := update_reverb_level (reverb_level g) g in
  g.

(** *** API v2 (one state per instance) *)

Definition v2_update_decay (inst : psxverb_instance_t F)
  : psxverb_instance_t F :=
  set_current
    (set_vWALL_f (vWALL_f (base inst) *. decay inst) (current inst)) inst.

(** The two assignments that rescale [current.vLIN_f], [current.vRIN_f]. *)
Definition v2_update_input_gain (inst : psxverb_instance_t F)
  : psxverb_instance_t F :=
  let in_scale := input_gain inst *. f_lit 2 in
  set_current
    (set_vIN_f (vLIN_f (base inst) *. in_scale) (vRIN_f (base inst) *. in_scale)
       (current inst)) inst.

(** The two assignments that rescale [current.vLOUT_f], [current.vROUT_f]. *)
Definition v2_update_reverb_level (inst : psxverb_instance_t F)
  : psxverb_instance_t F :=
  let out_scale := reverb_level inst *. f_lit 4 in
  set_current
    (set_vOUT_f (vLOUT_f (base inst) *. out_scale)
       (vROUT_f (base inst) *. out_scale) (current inst)) inst.

Definition v2_apply_preset (inst : psxverb_instance_t F) (idx : Z)
  : psxverb_instance_t F :=
  if (idx <? 0) || (idx >=? 6) then inst
  else
    let inst := set_preset_idx idx inst in
    let p := preset_at idx in
    let inst := set_base (v2_scale_preset p) inst in
    let inst := set_current (base inst) inst in
    let inst := v2_update_input_gain inst in
    let inst := v2_update_reverb_level inst in
    let inst := v2_update_decay inst in
    let work_size := next_pow2 (Preset.work_size p) in
    let work_size := if work_size >? WORK_MAX_SIZE then WORK_MAX_SIZE
                     else work_size in
    set_work
      {| WorkArea.buf := memset (WorkArea.buf (work inst)) 0 work_size;
         WorkArea.size_mask := wrap_u32 (work_size - 1);
         WorkArea.base := 0 |} inst.

End Modulation.

(** ** Block processing *)

Section Process.
Context {F : Type} `{FloatOps F}.

(** An input sample as [float]: [audio_inout[k] / 32768.0f]. *)
Definition sample_in (audio_inout : list Z) (k : Z) : F :=
  f_of_int (array_get audio_inout k 0) /. f_lit 32768.

(** An output sample: [(int16_t)(x * 32767.0f)]. *)
Definition sample_out (x : F) : Z := wrap_s16 (f_to_int (x *. f_lit 32767)).

(** The final clamp as v1 writes it, with two [if]s. *)
Definition clamp_unit_v1 (x : F) : F :=
  let x := if x >. f_lit 1 then f_lit 1 else x in
  let x := if x <. f_lit (-1) then f_lit (-1) else x in
  x.

(** The final clamp as v2 writes it. *)
Definition clamp_unit_v2 (x : F) : F := clamp_f x (f_lit (-1)) (f_lit 1).

(** The SPU network of the loop body, from the same-side reflections to
    the advance of the Work Area: one tick at the internal rate on the
    decimated and scaled inputs [Lin], [Rin], giving [Lout], [Rout]. *)
Definition reverb_tick (p : scaled_preset_t F) (w : workarea_t) (Lin Rin : F)
  : workarea_t * (F * F) :=
  (* same-side reflection *)
  let lsame_fb := workarea_read_relative w (dLSAME p) in
  let lsame_iir := workarea_read_relative w (mLSAME p - 1) in
  let lsame_out :=
    (Lin +. lsame_fb *. vWALL_f p -. lsame_iir) *. vIIR_f p +. lsame_iir in
  let w := workarea_write_relative w (mLSAME p) lsame_out in
  let rsame_fb := workarea_read_relative w (dRSAME p) in
  let rsame_iir := workarea_read_relative w (mRSAME p - 1) in
  let rsame_out :=
    (Rin +. rsame_fb *. vWALL_f p -. rsame_iir) *. vIIR_f p +. rsame_iir in
  let w := workarea_write_relative w (mRSAME p) rsame_out in
  (* different-side reflection *)
  let ldiff_fb := workarea_read_relative w (dRDIFF p) in
  let ldiff_iir := workarea_read_relative w (mLDIFF p - 1) in
  let ldiff_out :=
    (Lin +. ldiff_fb *. vWALL_f p -. ldiff_iir) *. vIIR_f p +. ldiff_iir in
  let w := workarea_write_relative w (mLDIFF p) ldiff_out in
  let rdiff_fb := workarea_read_relative w (dLDIFF p) in
  let rdiff_iir := workarea_read_relative w (mRDIFF p - 1) in
  let rdiff_out :=
    (Rin +. rdiff_fb *. vWALL_f p -. rdiff_iir) *. vIIR_f p +. rdiff_iir in
  let w := workarea_write_relative w (mRDIFF p) rdiff_out in
  (* comb filter bank *)
  let Lout := vCOMB1_f p *. workarea_read_relative w (mLCOMB1 p) +.
              vCOMB2_f p *. workarea_read_relative w (mLCOMB2 p) +.
              vCOMB3_f p *. workarea_read_relative w (mLCOMB3 p) +.
              vCOMB4_f p *. workarea_read_relative w (mLCOMB4 p) in
  let Rout := vCOMB1_f p *. workarea_read_relative w (mRCOMB1 p) +.
              vCOMB2_f p *. workarea_read_relative w (mRCOMB2 p) +.
              vCOMB3_f p *. workarea_read_relative w (mRCOMB3 p) +.
              vCOMB4_f p *. workarea_read_relative w (mRCOMB4 p) in
  (* all-pass filter 1 *)
  let lapf1_del := workarea_read_relative w (mLAPF1 p - dAPF1 p) in
  let Lout := Lout -. vAPF1_f p *. lapf1_del in
  let w := workarea_write_relative w (mLAPF1 p) Lout in
  let Lout := Lout *. vAPF1_f p +. lapf1_del in
  let rapf1_del := workarea_read_relative w (mRAPF1 p - dAPF1 p) in
  let Rout := Rout -. vAPF1_f p *. rapf1_del in
  let w := workarea_write_relative w (mRAPF1 p) Rout in
  let Rout := Rout *. vAPF1_f p +. rapf1_del in
  (* all-pass filter 2 *)
  let lapf2_del := workarea_read_relative w (mLAPF2 p - dAPF2 p) in
  let Lout := Lout -. vAPF2_f p *. lapf2_del in
  let w := workarea_write_relative w (mLAPF2 p) Lout in
  let Lout := Lout *. vAPF2_f p +. lapf2_del in
  let rapf2_del := workarea_read_relative w (mRAPF2 p - dAPF2 p) in
  let Rout := Rout -. vAPF2_f p *. rapf2_del in
  let w := workarea_write_relative w (mRAPF2 p) Rout in
  let Rout := Rout *. vAPF2_f p +. rapf2_del in
  let w := workarea_advance w 1 in
  (w, (Lout, Rout)).

(** One pass of the loop body of [fx_process_block] / [v2_process_block]
    for the frame pair [i], [i + 1]: decimation, [reverb_tick],
    interpolation, dry/wet mix and write-back.  The two bodies differ only
    in how the final clamp is written ([final_clamp]). *)
Definition process_pair (final_clamp : F -> F)
    (inst : psxverb_instance_t F) (audio_inout : list Z) (i : Z)
  : psxverb_instance_t F * list Z :=
  let p := current inst in
  let in_l0 := sample_in audio_inout (i * 2) in
  let in_r0 := sample_in audio_inout (i * 2 + 1) in
  let in_l1 := sample_in audio_inout ((i + 1) * 2) in
  let in_r1 := sample_in audio_inout ((i + 1) * 2 + 1) in
  let '(down_l', dl) := halfband_decimate (down_l inst) in_l0 in_l1 in
  let Lin := dl *. vLIN_f p in
  let '(down_r', dr) := halfband_decimate (down_r inst) in_r0 in_r1 in
  let Rin := dr *. vRIN_f p in
  let '(w, (Lout, Rout)) := reverb_tick p (work inst) Lin Rin in
  let '(up_l', (out_l0, out_l1)) :=
    halfband_interpolate (up_l inst) (Lout *. vLOUT_f p) in
  let '(up_r', (out_r0, out_r1)) :=
    halfband_interpolate (up_r inst) (Rout *. vROUT_f p) in
  let dry_mix := f_lit 1 -. mix inst in
  let wet_mix := mix inst in
  let final_l0 := final_clamp (in_l0 *. dry_mix +. out_l0 *. wet_mix) in
  let final_r0 := final_clamp (in_r0 *. dry_mix +. out_r0 *. wet_mix) in
  let final_l1 := final_clamp (in_l1 *. dry_mix +. out_l1 *. wet_mix) in
  let final_r1 := final_clamp (in_r1 *. dry_mix +. out_r1 *. wet_mix) in
  let audio_inout := array_set audio_inout (i * 2) (sample_out final_l0) in
  let audio_inout := array_set audio_inout (i * 2 + 1) (sample_out final_r0) in
  let audio_inout :=
    array_set audio_inout ((i + 1) * 2) (sample_out final_l1) in
  let audio_inout :=
    array_set audio_inout ((i + 1) * 2 + 1) (sample_out final_r1) in
  (set_halfbands down_l' down_r' up_l' up_r' (set_work w inst), audio_inout).

(** The loop [for (i = 0; i < frames; i += 2) { if (i + 1 >= frames) break; ... }]
    from the iteration at [i] on, for at most [fuel] iterations. *)
Fixpoint process_loop (fuel : nat) (final_clamp : F -> F) (frames i : Z)
    (inst : psxverb_instance_t F) (audio_inout : list Z)
  : psxverb_instance_t F * list Z :=
  match fuel with
  | O => (inst, audio_inout)
  | S fuel' =>
      if i <? frames then
        if i + 1 >=? frames then (inst, audio_inout)
        else
          let '(inst', audio') := process_pair final_clamp inst audio_inout i in
          process_loop fuel' final_clamp frames (i + 2) inst' audio'
      else (inst, audio_inout)
  end.

(** [fx_process_block] (v1).  [frames] iterations are more than the loop
    can take, see [process_loop_fuel]. *)
Definition fx_process_block (g : psxverb_instance_t F) (audio_inout : list Z)
    (frames : Z) : psxverb_instance_t F * list Z :=
  process_loop (Z.to_nat frames) clamp_unit_v1 frames 0 g audio_inout.

(** [v2_process_block] (v2), on a non-null instance. *)
Definition v2_process_block (inst : psxverb_instance_t F)
    (audio_inout : list Z) (frames : Z) : psxverb_instance_t F * list Z :=
  process_loop (Z.to_nat frames) clamp_unit_v2 frames 0 inst audio_inout.

End Process.

(** ** Parameters *)

Section Parameters.
Context {F : Type} `{FloatOps F}.

Local Open Scope string_scope.

(** [strcmp(key, k) == 0] *)
Definition key_is (key k : string) : bool := String.eqb key k.

(** [json_get_number]: the number after the first occurrence of the text
    ["key":] in [json]; [None] stands for the result [-1]. *)
Definition json_get_number (json key : string) : option F :=
  let search :=
    snprintf_buf 64 (String dquote (key ++ String dquote ":")) in
  match strstr json search with
  | None => None
  | Some pos =>
      let pos := str_skip (String.length search) pos in
      let pos := skip_blanks pos in
      Some (atof pos)
  end.

(** The clamp that v1 writes as two [if]s: [if (v < 0) v = 0; if (v > 1) v = 1;] *)
Definition clamp01_v1 (v : F) : F :=
  let v := if v <. f_lit 0 then f_lit 0 else v in
  let v := if v >. f_lit 1 then f_lit 1 else v in
  v.

(** [fx_set_param] (v1). *)
Definition fx_set_param (g : psxverb_instance_t F) (key val : string)
  : psxverb_instance_t F :=
  if key_is key "preset" then
    let v := atoi val in
    apply_preset v g
  else if key_is key "decay" then
    let v := clamp01_v1 (atof val) in
    let g := set_decay v g in
    update_decay (decay g) g
  else if key_is key "mix" then
    let v := clamp01_v1 (atof val) in
    set_mix v g
  else if key_is key "input_gain" then
    let v := clamp01_v1 (atof val) in
    let g := set_input_gain v g in
    update_input_gain (input_gain g) g
  else if key_is key "level" then
    let v := clamp01_v1 (atof val) in
    let g := set_reverb_level v g in
    update_reverb_level (reverb_level g) g
  else g.

(** The branch of [v2_set_param] for the key ["state"]. *)
Definition v2_set_state (inst : psxverb_instance_t F) (val : string)
  : psxverb_instance_t F :=
  let '(inst, preset_changed) :=
    match json_get_number val "preset" with
    | Some v =>
        let idx := f_to_int v in
        if (idx >=? 0)%Z && (idx <? 6)%Z && negb (idx =? preset_idx inst)%Z
        then (set_preset_idx idx inst, true)
        else (inst, false)
    | None => (inst, false)
    end in
  let inst :=
    match json_get_number val "decay" with
    | Some v => set_decay (clamp_f v (f_lit 0) (f_lit 1)) inst
    | None => inst
    end in
  let inst :=
    match json_get_number val "mix" with
    | Some v => set_mix (clamp_f v (f_lit 0) (f_lit 1)) inst
    | None => inst
    end in
  let inst :=
    match json_get_number val "input_gain" with
    | Some v => set_input_gain (clamp_f v (f_lit 0) (f_lit 1)) inst
    | None => inst
    end in
  let inst :=
    match json_get_number val "reverb_level" with
    | Some v => set_reverb_level (clamp_f v (f_lit 0) (f_lit 1)) inst
    | None => inst
    end in
  if preset_changed then v2_apply_preset inst (preset_idx inst)
  else
    let inst := v2_update_decay inst in
    let inst := v2_update_input_gain inst in
    let inst := v2_update_reverb_level inst in
    inst.

(** [v2_set_param] (v2), on non-null [instance], [key] and [val]. *)
Definition v2_set_param (inst : psxverb_instance_t F) (key val : string)
  : psxverb_instance_t F :=
  if key_is key "state" then v2_set_state inst val
  else if key_is key "preset" then
    let idx := atoi val in
    if (idx >=? 0)%Z && (idx <? 6)%Z then v2_apply_preset inst idx else inst
  else if key_is key "decay" then
    let inst := set_decay (clamp_f (atof val) (f_lit 0) (f_lit 1)) inst in
    v2_update_decay inst
  else if key_is key "mix" then
    set_mix (clamp_f (atof val) (f_lit 0) (f_lit 1)) inst
  else if key_is key "input_gain" then
    let inst := set_input_gain (clamp_f (atof val) (f_lit 0) (f_lit 1)) inst in
    v2_update_input_gain inst
  else if key_is key "reverb_level" then
    let inst :=
      set_reverb_level (clamp_f (atof val) (f_lit 0) (f_lit 1)) inst in
    v2_update_reverb_level inst
  else inst.

(** The text of the key ["state"]:
    [{"preset":%d,"decay":%.4f,"mix":%.4f,"input_gain":%.4f,"reverb_level":%.4f}] *)
Definition fmt_state (preset : Z) (d m g r : F) : string :=
  json_text "{'preset':" ++ fmt_int preset ++
  json_text ",'decay':" ++ fmt_fixed 4 d ++
  json_text ",'mix':" ++ fmt_fixed 4 m ++
  json_text ",'input_gain':" ++ fmt_fixed 4 g ++
  json_text ",'reverb_level':" ++ fmt_fixed 4 r ++ "}".

Definition ui_hierarchy_json : string :=
  json_text
    ("{" ++
     "'modes':null," ++
     "'levels':{" ++
       "'root':{" ++
         "'list_param':'preset'," ++
         "'count_param':'preset_count'," ++
         "'name_param':'preset_name'," ++
         "'children':'params'," ++
         "'knobs':[]," ++
         "'params':[]" ++
       "}," ++
       "'params':{" ++
         "'children':null," ++
         "'knobs':['decay','mix','input_gain','reverb_level']," ++
         "'params':['decay','mix','input_gain','reverb_level']" ++
       "}" ++
     "}" ++
     "}").

Definition chain_params_json : string :=
  json_text
    ("[" ++
     "{'key':'preset','name':'Preset','type':'int','min':0,'max':5}," ++
     "{'key':'decay','name':'Decay','type':'float','min':0,'max':1}," ++
     "{'key':'mix','name':'Mix','type':'float','min':0,'max':1}," ++
     "{'key':'input_gain','name':'Input Gain','type':'float','min':0,'max':1}," ++
     "{'key':'reverb_level','name':'Reverb Level','type':'float','min':0,'max':1}" ++
     "]").

(** [return snprintf(buf, buf_len, ...)] with formatted text [s]: the
    length of [s] and the new contents of [buf]. *)
Definition snprintf_ret (buf_len : Z) (s : string) : Z * option string :=
  (Z.of_nat (String.length s), Some (snprintf_buf buf_len s)).

(** [strcpy] when the text fits, [-1] otherwise. *)
Definition strcpy_ret (buf_len : Z) (s : string) : Z * option string :=
  let len := Z.of_nat (String.length s) in
  if (len <? buf_len)%Z then (len, Some s) else (-1, None)%Z.

(** [v2_get_param] (v2), on non-null [instance], [key] and [buf]: the
    returned [int] and the contents written to [buf] ([None] when [buf] is
    not written). *)
Definition v2_get_param (inst : psxverb_instance_t F) (key : string)
    (buf_len : Z) : Z * option string :=
  if (buf_len <=? 0)%Z then (-1, None)%Z
  else if key_is key "preset" then
    snprintf_ret buf_len (fmt_int (preset_idx inst))
  else if key_is key "preset_name" then
    snprintf_ret buf_len (Preset.name (preset_at (preset_idx inst)))
  else if key_is key "preset_count" then snprintf_ret buf_len "6"
  else if key_is key "decay" then
    snprintf_ret buf_len (fmt_fixed 2 (decay inst))
  else if key_is key "mix" then
    snprintf_ret buf_len (fmt_fixed 2 (mix inst))
  else if key_is key "input_gain" then
    snprintf_ret buf_len (fmt_fixed 2 (input_gain inst))
  else if key_is key "reverb_level" then
    snprintf_ret buf_len (fmt_fixed 2 (reverb_level inst))
  else if key_is key "name" then snprintf_ret buf_len "PSX Verb"
  else if key_is key "state" then
    snprintf_ret buf_len
      (fmt_state (preset_idx inst) (decay inst) (mix inst)
         (input_gain inst) (reverb_level inst))
  else if key_is key "ui_hierarchy" then strcpy_ret buf_len ui_hierarchy_json
  else if key_is key "chain_params" then strcpy_ret buf_len chain_params_json
  else (-1, None)%Z.

End Parameters.

(** ** Start-up *)

Section Startup.
Context {F : Type} `{FloatOps F}.

(** All-zero storage, as [calloc] and static initialisation give it. *)
Definition zero_preset : scaled_preset_t F :=
  {| dAPF1 := 0; dAPF2 := 0; dLSAME := 0; dRSAME := 0; dLDIFF := 0;
     dRDIFF := 0; mLSAME := 0; mRSAME := 0; mLDIFF := 0; mRDIFF := 0;
     mLCOMB1 := 0; mRCOMB1 := 0; mLCOMB2 := 0; mRCOMB2 := 0;
     mLCOMB3 := 0; mRCOMB3 := 0; mLCOMB4 := 0; mRCOMB4 := 0;
     mLAPF1 := 0; mRAPF1 := 0; mLAPF2 := 0; mRAPF2 := 0;
     vIIR_f := f_lit 0; vCOMB1_f := f_lit 0; vCOMB2_f := f_lit 0;
     vCOMB3_f := f_lit 0; vCOMB4_f := f_lit 0; vWALL_f := f_lit 0;
     vAPF1_f := f_lit 0; vAPF2_f := f_lit 0; vLIN_f := f_lit 0;
     vRIN_f := f_lit 0; vLOUT_f := f_lit 0; vROUT_f := f_lit 0 |}.

Definition zero_halfband : halfband_t F :=
  {| state := replicate (Z.to_nat HB_STATE_SIZE) (f_lit 0); pos := 0 |}.

(** The state both variants start from: zeroed storage, a zeroed work
    buffer of [WORK_MAX_SIZE] samples, and the default controls. *)
Definition initial_state : psxverb_instance_t F :=
  {| preset_idx := 4;
     decay := f_lit 0.8;
     mix := f_lit 0.35;
     input_gain := f_lit 0.5;
     reverb_level := f_lit 0.5;
     current := zero_preset;
     base := zero_preset;
     work := {| WorkArea.buf := replicate (Z.to_nat WORK_MAX_SIZE) 0;
                WorkArea.size_mask := 0; WorkArea.base := 0 |};
     down_l := zero_halfband; down_r := zero_halfband;
     up_l := zero_halfband; up_r := zero_halfband |}.

(** [fx_on_load] (v1) on the initial globals. *)
Definition fx_on_load : psxverb_instance_t F :=
  let g := initial_state in
  let g := set_halfbands (halfband_init (down_l g)) (halfband_init (down_r g))
             (halfband_init (up_l g)) (halfband_init (up_r g)) g in
  apply_preset (preset_idx g) g.

(** [v2_create_instance] (v2) when both allocations succeed. *)
Definition v2_create_instance : psxverb_instance_t F :=
  let inst := initial_state in
  let inst :=
    set_halfbands (halfband_init (down_l inst)) (halfband_init (down_r inst))
      (halfband_init (up_l inst)) (halfband_init (up_r inst)) inst in
  v2_apply_preset inst (preset_idx inst).

End Startup.

(** ** Exact arithmetic for [float] *)

(** [(int32_t)x]: truncation toward zero.  C leaves the conversion
    undefined when the truncated value does not fit; written out here is
    the saturation of the AArch64 conversion instruction, one target's
    behaviour.  Properties about the conversion are stated for values
    that fit, where it is the truncation ([Q_to_int_between]). *)
Definition Q_to_int (x : Q) : Z :=
  let t := Z.quot (Qnum x) (Zpos (Qden x)) in
  Z.max (- 2 ^ 31) (Z.min (2 ^ 31 - 1) t).

Definition Q_ltb (x y : Q) : bool := negb (Qle_bool y x).

(** [atof] on the decimal forms [[ws][sign]digits[.digits][(e|E)[sign]digits]]
    (infinities, NaNs and hexadecimal forms are left out); the value is
    kept exact. *)
Definition Q_atof (s : string) : Q :=
  let '(neg, s) := scan_sign (skip_space s) in
  let '(ip, ni, s) := scan_digits s 0 0 in
  let '(m, nf, s) :=
    match s with
    | String c s' =>
        if Ascii.eqb c "."%char then scan_digits s' ip 0 else (ip, O, s)
    | EmptyString => (ip, O, s)
    end in
  if (ni + nf =? 0)%nat then 0%Q
  else
    let e :=
      match s with
      | String c s' =>
          if Ascii.eqb c "e"%char || Ascii.eqb c "E"%char then
            let '(eneg, s'') := scan_sign s' in
            let '(ev, ne, _) := scan_digits s'' 0 0 in
            if (ne =? 0)%nat then 0 else if eneg then - ev else ev
          else 0
      | EmptyString => 0
      end in
    let v := (Qmake m (Pos.pow 10 (Pos.of_nat nf)) * Qpower 10 e)%Q in
    let v := if (nf =? 0)%nat then (inject_Z m * Qpower 10 e)%Q else v in
    if neg then Qopp v else v.

(** [printf("%.<prec>f", x)]: [x] rounded to [prec] decimals, ties to
    even. *)
Definition Q_fmt_fixed (prec : nat) (x : Q) : string :=
  let scale := 10 ^ Z.of_nat prec in
  let a := Z.abs (Qnum x) * scale in
  let b := Zpos (Qden x) in
  let q := a / b in
  let r := a mod b in
  let n := if 2 * r <? b then q
           else if b <? 2 * r then q + 1
           else if Z.even q then q else q + 1 in
  let frac :=
    if (prec =? 0)%nat then EmptyString
    else String "."%char (fmt_pad prec (n mod scale)) in
  let body := (fmt_nat (n / scale) ++ frac)%string in
  if Qnum x <? 0 then String "-"%char body else body.

#[export] Instance Q_float : FloatOps Q := {|
  f_lit := fun q => q;
  f_of_int := inject_Z;
  f_to_int := Q_to_int;
  f_add := Qplus;
  f_sub := Qminus;
  f_mul := Qmult;
  f_div := Qdiv;
  f_neg := Qopp;
  f_lt := Q_ltb;
  f_le := Qle_bool;
  atof := Q_atof;
  fmt_fixed := Q_fmt_fixed
|}.

(** ** binary32 arithmetic for [float]

    The IEEE 754 single-precision format as the Standard Library
    specifies it ([SpecFloat], precision 24, maximal exponent 128), with
    signed zeros, infinities and NaN. *)

Definition b32_prec : Z := 24.
Definition b32_emax : Z := 128.

(** [(float)n] for an integer [n]: rounded to nearest, ties to even. *)
Definition b32_of_Z (n : Z) : spec_float :=
  binary_normalize b32_prec b32_emax n 0 false.

(** A literal [num / den]: the exact quotient of the two integers,
    rounded once to nearest, ties to even. *)
Definition b32_lit (q : Q) : spec_float :=
  let den := S754_finite false (Qden q) 0 in
  match Qnum q with
  | Z0 => S754_zero false
  | Zpos n => SFdiv b32_prec b32_emax (S754_finite false n 0) den
  | Zneg n => SFdiv b32_prec b32_emax (S754_finite true n 0) den
  end.

Definition INT32_MIN : Z := - 2 ^ 31.

(** [(int32_t)x]: truncation toward zero.  C leaves the conversion
    undefined when the truncated value does not fit and for infinities
    and NaN; written out here is what the x86-64 conversion instruction
    returns in these cases, [INT32_MIN] (the AArch64 one saturates, as
    [Q_to_int] does). *)
Definition b32_to_int (x : spec_float) : Z :=
  match x with
  | S754_zero _ => 0
  | S754_finite s m e =>
      let mag := if e >=? 0 then Zpos m * 2 ^ e else Zpos m / 2 ^ (- e) in
      let t := if s then - mag else mag in
      if (INT32_MIN <=? t) && (t <=? 2 ^ 31 - 1) then t else INT32_MIN
  | _ => INT32_MIN
  end.

(** The rational a finite value stands for. *)
Definition b32_to_Q (x : spec_float) : Q :=
  match x with
  | S754_finite s m e =>
      let mag := if e >=? 0 then inject_Z (Zpos m * 2 ^ e)
                 else Qmake (Zpos m) (Z.to_pos (2 ^ (- e))) in
      if s then Qopp mag else mag
  | _ => 0%Q
  end.

(** [printf("%.<prec>f", (double)x)]; the sign of a NaN, which some C
    libraries print, is left out. *)
Definition b32_fmt_fixed (prec : nat) (x : spec_float) : string :=
  match x with
  | S754_nan => "nan"
  | S754_infinity s => if s then "-inf" else "inf"
  | S754_zero true => String "-"%char (Q_fmt_fixed prec 0)
  | _ => Q_fmt_fixed prec (b32_to_Q x)
  end.

Definition to_lower (c : ascii) : ascii :=
  let n := nat_of_ascii c in
  if (65 <=? n)%nat && (n <=? 90)%nat then ascii_of_nat (n + 32) else c.

(** [p], in lower case, starts [s], whatever the case of [s]. *)
Fixpoint prefix_ci (p s : string) : bool :=
  match p, s with
  | EmptyString, _ => true
  | String a p', String b s' => Ascii.eqb a (to_lower b) && prefix_ci p' s'
  | String _ _, EmptyString => false
  end.

(** [(float)atof(s)]: after blanks and a sign, the texts NAN and INF (or
    INFINITY) in any case, and otherwise the decimal forms of [Q_atof],
    rounded once (hexadecimal forms are left out). *)
Definition b32_atof (s : string) : spec_float :=
  let '(neg, t) := scan_sign (skip_space s) in
  if prefix_ci "nan" t then S754_nan
  else if prefix_ci "inf" t then S754_infinity neg
  else b32_lit (Q_atof s).

#[export] Instance B32_float : FloatOps spec_float := {|
  f_lit := b32_lit;
  f_of_int := b32_of_Z;
  f_to_int := b32_to_int;
  f_add := SFadd b32_prec b32_emax;
  f_sub := SFsub b32_prec b32_emax;
  f_mul := SFmul b32_prec b32_emax;
  f_div := SFdiv b32_prec b32_emax;
  f_neg := SFopp;
  f_lt := SFltb;
  f_le := SFleb;
  atof := b32_atof;
  fmt_fixed := b32_fmt_fixed
|}.

(** ** Reading parameters in API v1 *)

Section ParametersV1.
Context {F : Type} `{FloatOps F}.

Local Open Scope string_scope.

(** [fx_get_param] (v1), on a buffer of at least one byte: the returned
    [int] and the contents written to [buf] ([None] when [buf] is not
    written). *)
Definition fx_get_param (g : psxverb_instance_t F) (key : string)
    (buf_len : Z) : Z * option string :=
  if key_is key "preset" then
    snprintf_ret buf_len (fmt_int (preset_idx g))
  else if key_is key "decay" then
    snprintf_ret buf_len (fmt_fixed 2 (decay g))
  else if key_is key "mix" then
    snprintf_ret buf_len (fmt_fixed 2 (mix g))
  else if key_is key "input_gain" then
    snprintf_ret buf_len (fmt_fixed 2 (input_gain g))
  else if key_is key "level" then
    snprintf_ret buf_len (fmt_fixed 2 (reverb_level g))
  else if key_is key "name" then snprintf_ret buf_len "PSX Verb"
  else (-1, None)%Z.

End ParametersV1.

(** ** The earlier approximate reverb

    The first version of the plugin: one-pole input lowpass, four
    parallel comb taps on a circular [float] buffer per channel, two
    allpass diffusers, wall feedback.  It shares no state with the
    SPU-accurate variants; its globals, preset table and functions carry
    the same names and live in their own module. *)

Module Legacy.

Definition WORK_SIZE : Z := 16384.
Definition WORK_MASK : Z := WORK_SIZE - 1.

Section LegacyPlugin.
Context {F : Type} `{FloatOps F}.

Definition APF_COEFF : F := f_lit 0.5.

(** [preset_t]: delay times in samples and the wall coefficient. *)
Record preset_t := {
  comb1 : Z; comb2 : Z; comb3 : Z; comb4 : Z;
  apf1 : Z; apf2 : Z;
  wall : F
}.

Definition mk_preset (c1 c2 c3 c4 a1 a2 : Z) (w : Q) : preset_t :=
  {| comb1 := c1; comb2 := c2; comb3 := c3; comb4 := c4;
     apf1 := a1; apf2 := a2; wall := f_lit w |}.

Definition g_presets : list preset_t := [
  mk_preset 1500 1600 1700 1800  500  400 0.60;   (* Room *)
  mk_preset 1200 1300 1400 1500  400  300 0.50;   (* Studio S *)
  mk_preset 2000 2200 2400 2600  600  500 0.65;   (* Studio M *)
  mk_preset 3000 3300 3600 3900  800  700 0.70;   (* Studio L *)
  mk_preset 4000 4400 4800 5200 1000  900 0.75;   (* Hall *)
  mk_preset 5500 6000 6500 7000 1200 1100 0.80    (* Space Echo *)
].

(** The file's globals. *)
Record globals := {
  g_preset : Z;
  g_decay : F;
  g_mix : F;
  g_work_l : list F;           (* float g_work_l[WORK_SIZE] *)
  g_work_r : list F;
  g_work_pos : Z;              (* int *)
  g_iir_l : F;
  g_iir_r : F;
  g_apf1_l : list F;           (* float g_apf1_l[2048] *)
  g_apf1_r : list F;
  g_apf2_l : list F;
  g_apf2_r : list F;
  g_comb1_delay : Z;
  g_comb2_delay : Z;
  g_comb3_delay : Z;
  g_comb4_delay : Z;
  g_apf1_delay : Z;
  g_apf2_delay : Z;
  g_wall_coeff : F
}.

(** The globals as initialised statically. *)
Definition initial_globals : globals :=
  {| g_preset := 4; g_decay := f_lit 0.7; g_mix := f_lit 0.35;
     g_work_l := replicate (Z.to_nat WORK_SIZE) (f_lit 0);
     g_work_r := replicate (Z.to_nat WORK_SIZE) (f_lit 0);
     g_work_pos := 0;
     g_iir_l := f_lit 0; g_iir_r := f_lit 0;
     g_apf1_l := replicate 2048 (f_lit 0);
     g_apf1_r := replicate 2048 (f_lit 0);
     g_apf2_l := replicate 2048 (f_lit 0);
     g_apf2_r := replicate 2048 (f_lit 0);
     g_comb1_delay := 4000; g_comb2_delay := 4400;
     g_comb3_delay := 4800; g_comb4_delay := 5200;
     g_apf1_delay := 1000; g_apf2_delay := 900;
     g_wall_coeff := f_lit 0.75 |}.

(** [apply_preset]; the log line is left out. *)
Definition apply_preset (preset : Z) (g : globals) : globals :=
  let preset := if preset <? 0 then 0 else preset in
  let preset := if preset >? 5 then 5 else preset in
  let p := array_get g_presets preset (mk_preset 1500 1600 1700 1800 500 400 0.60) in
  {| g_preset := preset; g_decay := g_decay g; g_mix := g_mix g;
     g_work_l := g_work_l g; g_work_r := g_work_r g;
     g_work_pos := g_work_pos g;
     g_iir_l := g_iir_l g; g_iir_r := g_iir_r g;
     g_apf1_l := g_apf1_l g; g_apf1_r := g_apf1_r g;
     g_apf2_l := g_apf2_l g; g_apf2_r := g_apf2_r g;
     g_comb1_delay := comb1 p; g_comb2_delay := comb2 p;
     g_comb3_delay := comb3 p; g_comb4_delay := comb4 p;
     g_apf1_delay := apf1 p; g_apf2_delay := apf2 p;
     g_wall_coeff := wall p |}.

(** [work_read]: [work[(pos - delay) & WORK_MASK]]. *)
Definition work_read (work : list F) (pos delay : Z) : F :=
  array_get work (Z.land (wrap_s32 (pos - delay)) WORK_MASK) (f_lit 0).

(** [fx_on_load]: buffers cleared, cursor and lowpass reset, the current
    preset applied. *)
Definition fx_on_load (g : globals) : globals :=
  let g :=
    {| g_preset := g_preset g; g_decay := g_decay g; g_mix := g_mix g;
       g_work_l := memset (g_work_l g) (f_lit 0) WORK_SIZE;
       g_work_r := memset (g_work_r g) (f_lit 0) WORK_SIZE;
       g_work_pos := 0;
       g_iir_l := f_lit 0; g_iir_r := f_lit 0;
       g_apf1_l := memset (g_apf1_l g) (f_lit 0) 2048;
       g_apf1_r := memset (g_apf1_r g) (f_lit 0) 2048;
       g_apf2_l := memset (g_apf2_l g) (f_lit 0) 2048;
       g_apf2_r := memset (g_apf2_r g) (f_lit 0) 2048;
       g_comb1_delay := g_comb1_delay g; g_comb2_delay := g_comb2_delay g;
       g_comb3_delay := g_comb3_delay g; g_comb4_delay := g_comb4_delay g;
       g_apf1_delay := g_apf1_delay g; g_apf2_delay := g_apf2_delay g;
       g_wall_coeff := g_wall_coeff g |} in
  apply_preset (g_preset g) g.

(** The wall feedback of a block:
    [g_wall_coeff * (0.5f + g_decay * 0.45f)]. *)
Definition effective_wall (g : globals) : F :=
  g_wall_coeff g *. (f_lit 0.5 +. g_decay g *. f_lit 0.45).

(** The loop body of [fx_process_block] for frame [i].  The cursor is an
    [int] that is only ever incremented; its overflow after [2^31] frames
    is undefined in C and written here as the wrap-around of the
    target. *)
Definition process_frame (effective_wall : F) (g : globals)
    (audio_inout : list Z) (i : Z) : globals * list Z :=
  let in_l := sample_in audio_inout (i * 2) in
  let in_r := sample_in audio_inout (i * 2 + 1) in
  (* input lowpass *)
  let iir_l := g_iir_l g +. f_lit 0.5 *. (in_l -. g_iir_l g) in
  let iir_r := g_iir_r g +. f_lit 0.5 *. (in_r -. g_iir_r g) in
  let filtered_l := iir_l in
  let filtered_r := iir_r in
  (* comb bank *)
  let pos := g_work_pos g in
  let comb_l := work_read (g_work_l g) pos (g_comb1_delay g) +.
                work_read (g_work_l g) pos (g_comb2_delay g) +.
                work_read (g_work_l g) pos (g_comb3_delay g) +.
                work_read (g_work_l g) pos (g_comb4_delay g) in
  let comb_r := work_read (g_work_r g) pos (g_comb1_delay g) +.
                work_read (g_work_r g) pos (g_comb2_delay g) +.
                work_read (g_work_r g) pos (g_comb3_delay g) +.
                work_read (g_work_r g) pos (g_comb4_delay g) in
  let comb_l := comb_l *. f_lit 0.25 in
  let comb_r := comb_r *. f_lit 0.25 in
  (* allpass 1 *)
  let apf1_idx := Z.land pos 2047 in
  let apf1_delayed_l :=
    array_get (g_apf1_l g)
      (Z.land (wrap_s32 (apf1_idx - g_apf1_delay g)) 2047) (f_lit 0) in
  let apf1_delayed_r :=
    array_get (g_apf1_r g)
      (Z.land (wrap_s32 (apf1_idx - g_apf1_delay g)) 2047) (f_lit 0) in
  let apf1_out_l := f_neg comb_l +. apf1_delayed_l in
  let apf1_out_r := f_neg comb_r +. apf1_delayed_r in
  let apf1_l :=
    array_set (g_apf1_l g) apf1_idx (comb_l +. apf1_delayed_l *. APF_COEFF) in
  let apf1_r :=
    array_set (g_apf1_r g) apf1_idx (comb_r +. apf1_delayed_r *. APF_COEFF) in
  (* allpass 2 *)
  let apf2_delayed_l :=
    array_get (g_apf2_l g)
      (Z.land (wrap_s32 (apf1_idx - g_apf2_delay g)) 2047) (f_lit 0) in
  let apf2_delayed_r :=
    array_get (g_apf2_r g)
      (Z.land (wrap_s32 (apf1_idx - g_apf2_delay g)) 2047) (f_lit 0) in
  let apf2_out_l := f_neg apf1_out_l +. apf2_delayed_l in
  let apf2_out_r := f_neg apf1_out_r +. apf2_delayed_r in
  let apf2_l :=
    array_set (g_apf2_l g) apf1_idx
      (apf1_out_l +. apf2_delayed_l *. APF_COEFF) in
  let apf2_r :=
    array_set (g_apf2_r g) apf1_idx
      (apf1_out_r +. apf2_delayed_r *. APF_COEFF) in
  let wet_l := apf2_out_l in
  let wet_r := apf2_out_r in
  (* wall reflection *)
  let work_l :=
    array_set (g_work_l g) (Z.land pos WORK_MASK)
      (filtered_l +. wet_l *. effective_wall) in
  let work_r :=
    array_set (g_work_r g) (Z.land pos WORK_MASK)
      (filtered_r +. wet_r *. effective_wall) in
  let pos := wrap_s32 (pos + 1) in
  (* mix and write back *)
  let out_l := in_l *. (f_lit 1 -. g_mix g) +. wet_l *. g_mix g in
  let out_r := in_r *. (f_lit 1 -. g_mix g) +. wet_r *. g_mix g in
  let out_l := clamp_unit_v1 out_l in
  let out_r := clamp_unit_v1 out_r in
  let audio_inout := array_set audio_inout (i * 2) (sample_out out_l) in
  let audio_inout := array_set audio_inout (i * 2 + 1) (sample_out out_r) in
  ({| g_preset := g_preset g; g_decay := g_decay g; g_mix := g_mix g;
      g_work_l := work_l; g_work_r := work_r; g_work_pos := pos;
      g_iir_l := iir_l; g_iir_r := iir_r;
      g_apf1_l := apf1_l; g_apf1_r := apf1_r;
      g_apf2_l := apf2_l; g_apf2_r := apf2_r;
      g_comb1_delay := g_comb1_delay g; g_comb2_delay := g_comb2_delay g;
      g_comb3_delay := g_comb3_delay g; g_comb4_delay := g_comb4_delay g;
      g_apf1_delay := g_apf1_delay g; g_apf2_delay := g_apf2_delay g;
      g_wall_coeff := g_wall_coeff g |},
   audio_inout).

(** The loop [for (i = 0; i < frames; i++)] from frame [i] on, [n] frames
    to go. *)
Fixpoint process_frames (n : nat) (effective_wall : F) (i : Z) (g : globals)
    (audio_inout : list Z) : globals * list Z :=
  match n with
  | O => (g, audio_inout)
  | S n' =>
      let '(g', audio') := process_frame effective_wall g audio_inout i in
      process_frames n' effective_wall (i + 1) g' audio'
  end.

(** [fx_process_block]: the loop runs [frames] times for a positive
    [frames] and not at all otherwise. *)
Definition fx_process_block (g : globals) (audio_inout : list Z) (frames : Z)
  : globals * list Z :=
  process_frames (Z.to_nat frames) (effective_wall g) 0 g audio_inout.

Definition with_decay (v : F) (g : globals) : globals :=
  {| g_preset := g_preset g; g_decay := v; g_mix := g_mix g;
     g_work_l := g_work_l g; g_work_r := g_work_r g;
     g_work_pos := g_work_pos g;
     g_iir_l := g_iir_l g; g_iir_r := g_iir_r g;
     g_apf1_l := g_apf1_l g; g_apf1_r := g_apf1_r g;
     g_apf2_l := g_apf2_l g; g_apf2_r := g_apf2_r g;
     g_comb1_delay := g_comb1_delay g; g_comb2_delay := g_comb2_delay g;
     g_comb3_delay := g_comb3_delay g; g_comb4_delay := g_comb4_delay g;
     g_apf1_delay := g_apf1_delay g; g_apf2_delay := g_apf2_delay g;
     g_wall_coeff := g_wall_coeff g |}.

Definition with_mix (v : F) (g : globals) : globals :=
  {| g_preset := g_preset g; g_decay := g_decay g; g_mix := v;
     g_work_l := g_work_l g; g_work_r := g_work_r g;
     g_work_pos := g_work_pos g;
     g_iir_l := g_iir_l g; g_iir_r := g_iir_r g;
     g_apf1_l := g_apf1_l g; g_apf1_r := g_apf1_r g;
     g_apf2_l := g_apf2_l g; g_apf2_r := g_apf2_r g;
     g_comb1_delay := g_comb1_delay g; g_comb2_delay := g_comb2_delay g;
     g_comb3_delay := g_comb3_delay g; g_comb4_delay := g_comb4_delay g;
     g_apf1_delay := g_apf1_delay g; g_apf2_delay := g_apf2_delay g;
     g_wall_coeff := g_wall_coeff g |}.

Local Open Scope string_scope.

(** [fx_set_param]: the keys preset, decay and mix. *)
Definition fx_set_param (g : globals) (key val : string) : globals :=
  if key_is key "preset" then
    let v := atoi val in
    apply_preset v g
  else if key_is key "decay" then
    let v := clamp01_v1 (atof val) in
    with_decay v g
  else if key_is key "mix" then
    let v := clamp01_v1 (atof val) in
    with_mix v g
  else g.

(** [fx_get_param], on a buffer of at least one byte. *)
Definition fx_get_param (g : globals) (key : string) (buf_len : Z)
  : Z * option string :=
  if key_is key "preset" then snprintf_ret buf_len (fmt_int (g_preset g))
  else if key_is key "decay" then
    snprintf_ret buf_len (fmt_fixed 2 (g_decay g))
  else if key_is key "mix" then snprintf_ret buf_len (fmt_fixed 2 (g_mix g))
  else if key_is key "name" then snprintf_ret buf_len "PSX Verb"
  else (-1, None)%Z.

End LegacyPlugin.

Arguments preset_t F : clear implicits.
Arguments globals F : clear implicits.

End Legacy.

(** * Vocabulary of the properties *)

(** ** Work Area *)

(** A Work Area whose mask stays inside its buffer. *)
Definition workarea_wf (wa : workarea_t) : Prop :=
  0 <= WorkArea.size_mask wa < Z.of_nat (length (WorkArea.buf wa)).

(** The Work Area size in elements ([size_mask] is the size minus one). *)
Definition workarea_size (wa : workarea_t) : Z := WorkArea.size_mask wa + 1.

(** A value quantized to 1/32768 the way the specification words it:
    scaled by 32768, truncated toward zero, saturated to the [int16_t]
    range and scaled back. *)
Definition trunc_toward_zero (x : Q) : Z := Z.quot (Qnum x) (Zpos (Qden x)).

Definition clamp_int16 (z : Z) : Z := Z.max (-32768) (Z.min 32767 z).

Definition quantize16 (value : Q) : Q :=
  (inject_Z (clamp_int16 (trunc_toward_zero (value * 32768))) / 32768)%Q.

(** ** Finite values *)

(** A binary32 value that is neither an infinity nor NaN. *)
Definition b32_finite (x : spec_float) : Prop :=
  match x with
  | S754_zero _ | S754_finite _ _ _ => True
  | S754_infinity _ | S754_nan => False
  end.

(** ** Decay *)

(** The decay mapping in the words of the specification: [clamp],
    linear interpolation, [maxScale], the two-segment [scale] and the
    resulting wall coefficient. *)
Definition clamp_spec (v lo hi : Q) : Q := Qmax lo (Qmin v hi).

(** The line through [(x0, y0)] and [(x1, y1)], at [x]. *)
Definition lerp (x0 y0 x1 y1 x : Q) : Q :=
  (y0 + (x - x0) * (y1 - y0) / (x1 - x0))%Q.

Definition decay_max_scale (base_vWALL : Q) : Q :=
  let baseWall := Qmax 0.00001 (Qabs base_vWALL) in
  clamp_spec (0.99 / baseWall) 0.5 10.

Definition decay_scale (base_vWALL decay : Q) : Q :=
  if Qle_bool decay 0.5 then lerp 0 0.5 0.5 1 decay
  else lerp 0.5 1 1 (decay_max_scale base_vWALL) decay.

Definition decay_wall (base_vWALL decay : Q) : Q :=
  clamp_spec (base_vWALL * decay_scale base_vWALL decay) (-0.995) 0.995.

(** ** Presets *)

(** [n] is a power of two. *)
Definition is_pow2 (n : Z) : Prop := exists k : Z, 0 <= k /\ n = 2 ^ k.

(** The nearest index in [0, 5]. *)
Definition clamp_index (idx : Z) : Z := Z.max 0 (Z.min 5 idx).

(** ** Blocks and controls *)

(** The frame indices at which the loop runs its body: [m] pairs from
    [i] on. *)
Fixpoint pairs_from (m : nat) (i : Z) : list Z :=
  match m with
  | O => []
  | S m' => i :: pairs_from m' (i + 2)
  end.

Section StateVocabulary.
Context {F : Type} `{FloatOps F}.

(** The loop body run once for each of the given pairs, in order. *)
Definition process_pairs (final_clamp : F -> F) (starts : list Z)
    (s : psxverb_instance_t F * list Z) : psxverb_instance_t F * list Z :=
  fold_left (fun s i => process_pair final_clamp (fst s) (snd s) i) starts s.

(** Everything of the state that is neither a control value nor
    [current]: the preset index, [base], the Work Area and the four
    halfband histories. *)
Definition engine_untouched (s s' : psxverb_instance_t F) : Prop :=
  preset_idx s' = preset_idx s /\ base s' = base s /\ work s' = work s
  /\ down_l s' = down_l s /\ down_r s' = down_r s
  /\ up_l s' = up_l s /\ up_r s' = up_r s.

End StateVocabulary.

(** ** State snapshots *)

(** Characters of a number as [fmt_fixed] prints it: digits and the point. *)
Definition is_num_char (c : ascii) : bool := is_digit c || Ascii.eqb c ".".

(** A text made of such characters only. *)
Fixpoint num_text (s : string) : bool :=
  match s with
  | EmptyString => true
  | String c s' => is_num_char c && num_text s'
  end.

(** The text of a state snapshot around its five numbers. *)
Definition state_text (P D M G R : string) : string :=
  (json_text "{'preset':" ++ P ++
   json_text ",'decay':" ++ D ++
   json_text ",'mix':" ++ M ++
   json_text ",'input_gain':" ++ G ++
   json_text ",'reverb_level':" ++ R ++ "}")%string.

(** The same number on both sides, or none on both. *)
Definition opt_Qeq (a b : option Q) : Prop :=
  match a, b with
  | Some x, Some y => (x == y)%Q
  | None, None => True
  | _, _ => False
  end.

(** Two state objects are equal as JSON objects when each of the five keys
    holds the same number in both. *)
Definition state_json_eq (a b : string) : Prop :=
  opt_Qeq (json_get_number a "preset") (json_get_number b "preset")
  /\ opt_Qeq (json_get_number a "decay") (json_get_number b "decay")
  /\ opt_Qeq (json_get_number a "mix") (json_get_number b "mix")
  /\ opt_Qeq (json_get_number a "input_gain") (json_get_number b "input_gain")
  /\ opt_Qeq (json_get_number a "reverb_level")
       (json_get_number b "reverb_level").

(** ** Bit smearing *)

(** The five [v |= v >> k] steps of [next_pow2]. *)
Definition smear32 (v : Z) : Z :=
  let v := Z.lor v (Z.shiftr v 1) in
  let v := Z.lor v (Z.shiftr v 2) in
  let v := Z.lor v (Z.shiftr v 4) in
  let v := Z.lor v (Z.shiftr v 8) in
  let v := Z.lor v (Z.shiftr v 16) in
  v.

(** ** Circular buffers *)

(** A Work Area whose size is a power of two, at most [2^32]: the mask is
    the size minus one. *)
Definition workarea_pow2 (wa : workarea_t) : Prop :=
  exists k : Z, 0 <= k <= 32 /\ WorkArea.size_mask wa = 2 ^ k - 1.

Section BlockVocabulary.
Context {F : Type} `{FloatOps F}.

(** A halfband history of [HB_STATE_SIZE] samples with its cursor inside. *)
Definition halfband_wf (hb : halfband_t F) : Prop :=
  length (state hb) = Z.to_nat HB_STATE_SIZE /\ 0 <= pos hb < HB_STATE_SIZE.

(** The sample the loop body writes for the input sample [dry_in] and the
    interpolated reverb sample [wet]. *)
Definition mix_sample (final_clamp : F -> F) (inst : psxverb_instance_t F)
    (dry_in wet : F) : Z :=
  sample_out
    (final_clamp (dry_in *. (f_lit 1 -. mix inst) +. wet *. mix inst)).

(** The intermediate values of the loop body for the pair at [i]: the two
    decimators, the reverb tick, the two interpolators. *)
Definition pair_down_l (inst : psxverb_instance_t F) (audio : list Z) (i : Z)
  : halfband_t F * F :=
  halfband_decimate (down_l inst) (sample_in audio (i * 2))
    (sample_in audio ((i + 1) * 2)).

Definition pair_down_r (inst : psxverb_instance_t F) (audio : list Z) (i : Z)
  : halfband_t F * F :=
  halfband_decimate (down_r inst) (sample_in audio (i * 2 + 1))
    (sample_in audio ((i + 1) * 2 + 1)).

Definition pair_tick (inst : psxverb_instance_t F) (audio : list Z) (i : Z)
  : workarea_t * (F * F) :=
  reverb_tick (current inst) (work inst)
    (snd (pair_down_l inst audio i) *. vLIN_f (current inst))
    (snd (pair_down_r inst audio i) *. vRIN_f (current inst)).

Definition pair_up_l (inst : psxverb_instance_t F) (audio : list Z) (i : Z)
  : halfband_t F * (F * F) :=
  halfband_interpolate (up_l inst)
    (fst (snd (pair_tick inst audio i)) *. vLOUT_f (current inst)).

Definition pair_up_r (inst : psxverb_instance_t F) (audio : list Z) (i : Z)
  : halfband_t F * (F * F) :=
  halfband_interpolate (up_r inst)
    (snd (snd (pair_tick inst audio i)) *. vROUT_f (current inst)).

(** The interpolator output that the body mixes into sample [k] of the
    pair at [i]: the first frame takes the phase-0 outputs, the second
    frame the phase-1 outputs. *)
Definition pair_wet (inst : psxverb_instance_t F) (audio : list Z) (i k : Z)
  : F :=
  if k =? i * 2 then fst (snd (pair_up_l inst audio i))
  else if k =? i * 2 + 1 then fst (snd (pair_up_r inst audio i))
  else if k =? (i + 1) * 2 then snd (snd (pair_up_l inst audio i))
  else snd (snd (pair_up_r inst audio i)).

(** The controls and coefficient sets of two states agree. *)
Definition same_settings (s s' : psxverb_instance_t F) : Prop :=
  preset_idx s' = preset_idx s /\ decay s' = decay s /\ mix s' = mix s
  /\ input_gain s' = input_gain s /\ reverb_level s' = reverb_level s
  /\ current s' = current s /\ base s' = base s.

End BlockVocabulary.

(** ** The stages of one reverb tick *)

(** What a stage keeps of the Work Area: mask, cursor and buffer length. *)
Definition same_frame (w w' : workarea_t) : Prop :=
  WorkArea.size_mask w' = WorkArea.size_mask w
  /\ WorkArea.base w' = WorkArea.base w
  /\ length (WorkArea.buf w') = length (WorkArea.buf w).

Section TickStages.
Context {F : Type} `{FloatOps F}.

(** A wall reflection: the feedback read at [d], the one-pole lowpass
    around the previous sample at [m - 1], the result written at [m]. *)
Definition reflection (p : scaled_preset_t F) (w : workarea_t) (d m : Z)
    (Xin : F) : workarea_t :=
  let fb := workarea_read_relative w d in
  let iir := workarea_read_relative w (m - 1) in
  let out := (Xin +. fb *. vWALL_f p -. iir) *. vIIR_f p +. iir in
  workarea_write_relative w m out.

(** The comb bank: four taps weighted by [vCOMB1] .. [vCOMB4]. *)
Definition comb_bank (p : scaled_preset_t F) (w : workarea_t)
    (m1 m2 m3 m4 : Z) : F :=
  vCOMB1_f p *. workarea_read_relative w m1 +.
  vCOMB2_f p *. workarea_read_relative w m2 +.
  vCOMB3_f p *. workarea_read_relative w m3 +.
  vCOMB4_f p *. workarea_read_relative w m4.

(** An all-pass section with gain [v], written at [m], delayed by [d]. *)
Definition allpass (v : F) (w : workarea_t) (m d : Z) (X : F)
  : workarea_t * F :=
  let del := workarea_read_relative w (m - d) in
  let X := X -. v *. del in
  let w := workarea_write_relative w m X in
  (w, X *. v +. del).

(** [reverb_tick] as the sequence of its stages. *)
Definition tick_stages (p : scaled_preset_t F) (w : workarea_t) (Lin Rin : F)
  : workarea_t * (F * F) :=
  let w := reflection p w (dLSAME p) (mLSAME p) Lin in
  let w := reflection p w (dRSAME p) (mRSAME p) Rin in
  let w := reflection p w (dRDIFF p) (mLDIFF p) Lin in
  let w := reflection p w (dLDIFF p) (mRDIFF p) Rin in
  let Lout := comb_bank p w (mLCOMB1 p) (mLCOMB2 p) (mLCOMB3 p) (mLCOMB4 p) in
  let Rout := comb_bank p w (mRCOMB1 p) (mRCOMB2 p) (mRCOMB3 p) (mRCOMB4 p) in
  let '(w, Lout) := allpass (vAPF1_f p) w (mLAPF1 p) (dAPF1 p) Lout in
  let '(w, Rout) := allpass (vAPF1_f p) w (mRAPF1 p) (dAPF1 p) Rout in
  let '(w, Lout) := allpass (vAPF2_f p) w (mLAPF2 p) (dAPF2 p) Lout in
  let '(w, Rout) := allpass (vAPF2_f p) w (mRAPF2 p) (dAPF2 p) Rout in
  (workarea_advance w 1, (Lout, Rout)).

End TickStages.

(** ** Cursors *)

Section StateShape.
Context {F : Type} `{FloatOps F}.

(** The four resamplers of a state: both decimators, both interpolators. *)
Definition resamplers (s : psxverb_instance_t F) : list (halfband_t F) :=
  [down_l s; down_r s; up_l s; up_r s].

(** A resampler whose cursor has moved [n] samples on from that of [hb],
    around the history. *)
Definition cursor_moved (n : Z) (hb hb' : halfband_t F) : Prop :=
  pos hb' = (pos hb + n) mod HB_STATE_SIZE.

(** Histories keep their length and cursors move by [n]. *)
Definition resamplers_moved (n : Z) (s s' : psxverb_instance_t F) : Prop :=
  Forall2 (fun hb hb' => length (state hb') = length (state hb)
                         /\ cursor_moved n hb hb')
    (resamplers s) (resamplers s').

End StateShape.

(** ** Coefficients in step with the controls *)

Section Coherence.
Context {F : Type} `{FloatOps F}.

(** The coefficient set derived from [b]: the wall coefficient replaced,
    the input volumes scaled by [in_scale], the output volumes by
    [out_scale]. *)
Definition derived_volumes (b : scaled_preset_t F)
    (wall in_scale out_scale : F) : scaled_preset_t F :=
  with_volumes b wall
    (vLIN_f b *. in_scale) (vRIN_f b *. in_scale)
    (vLOUT_f b *. out_scale) (vROUT_f b *. out_scale).

(** The preset index is valid and [base] is that preset, scaled. *)
Definition base_loaded (s : psxverb_instance_t F) : Prop :=
  0 <= preset_idx s <= 5
  /\ base s = scale_preset (preset_at (preset_idx s)).

(** v2: [current] is [base] with the wall coefficient times the decay,
    the input volumes times twice the input gain and the output volumes
    times four times the reverb level. *)
Definition v2_coherent (s : psxverb_instance_t F) : Prop :=
  base_loaded s
  /\ current s =
     derived_volumes (base s) (vWALL_f (base s) *. decay s)
       (input_gain s *. f_lit 2) (reverb_level s *. f_lit 4).

(** v1: the same with the wall coefficient of [update_decay]. *)
Definition v1_coherent (s : psxverb_instance_t F) : Prop :=
  base_loaded s
  /\ current s =
     derived_volumes (base s) (vWALL_f (current (update_decay (decay s) s)))
       (input_gain s *. f_lit 2) (reverb_level s *. f_lit 4).

(** [current] has the delays and filter coefficients of [base]; only the
    five volumes may differ. *)
Definition volumes_only (s : psxverb_instance_t F) : Prop :=
  exists wall lin rin lout rout : F,
    current s = with_volumes (base s) wall lin rin lout rout.

(** A control value is the old one or a clamped new one. *)
Definition kept_or_clamped (old new : F) : Prop :=
  new = old \/ exists v : F, new = clamp_f v (f_lit 0) (f_lit 1).

(** The four controls of two states agree. *)
Definition same_controls (s s' : psxverb_instance_t F) : Prop :=
  decay s' = decay s /\ mix s' = mix s /\ input_gain s' = input_gain s
  /\ reverb_level s' = reverb_level s.

End Coherence.

(** ** Buffers *)

(** What [snprintf] and the guarded [strcpy] leave in a buffer of
    [buf_len] bytes: less than [buf_len] characters, never more than the
    returned length, and the whole text when the returned length is below
    [buf_len]. *)
Definition fits_buffer (buf_len : Z) (r : Z * option string) : Prop :=
  match snd r with
  | Some s =>
      Z.of_nat (String.length s) < buf_len
      /\ Z.of_nat (String.length s) <= fst r
      /\ (fst r < buf_len -> Z.of_nat (String.length s) = fst r)
  | None => fst r = -1
  end.

(** ** State texts *)

(** The text ["key":] does not occur in [text]. *)
Definition key_absent (text key : string) : Prop :=
  strstr text (String dquote (key ++ String dquote ":")) = None.

(** ** The earlier approximate reverb *)

Section LegacyVocabulary.
Context {F : Type} `{FloatOps F}.

(** The sample the loop body writes for the input sample [dry_in] and the
    diffused sample [wet]. *)
Definition legacy_mix_sample (g : Legacy.globals F) (dry_in wet : F) : Z :=
  sample_out
    (clamp_unit_v1
       (dry_in *. (f_lit 1 -. Legacy.g_mix g) +. wet *. Legacy.g_mix g)).

(** What a block leaves alone: preset, controls, delays and wall
    coefficient. *)
Definition legacy_same_settings (g g' : Legacy.globals F) : Prop :=
  Legacy.g_preset g' = Legacy.g_preset g
  /\ Legacy.g_decay g' = Legacy.g_decay g
  /\ Legacy.g_mix g' = Legacy.g_mix g
  /\ Legacy.g_comb1_delay g' = Legacy.g_comb1_delay g
  /\ Legacy.g_comb2_delay g' = Legacy.g_comb2_delay g
  /\ Legacy.g_comb3_delay g' = Legacy.g_comb3_delay g
  /\ Legacy.g_comb4_delay g' = Legacy.g_comb4_delay g
  /\ Legacy.g_apf1_delay g' = Legacy.g_apf1_delay g
  /\ Legacy.g_apf2_delay g' = Legacy.g_apf2_delay g
  /\ Legacy.g_wall_coeff g' = Legacy.g_wall_coeff g.

(** The buffers and the cursor of two states agree. *)
Definition legacy_same_buffers (g g' : Legacy.globals F) : Prop :=
  Legacy.g_work_l g' = Legacy.g_work_l g
  /\ Legacy.g_work_r g' = Legacy.g_work_r g
  /\ Legacy.g_work_pos g' = Legacy.g_work_pos g
  /\ Legacy.g_iir_l g' = Legacy.g_iir_l g
  /\ Legacy.g_iir_r g' = Legacy.g_iir_r g
  /\ Legacy.g_apf1_l g' = Legacy.g_apf1_l g
  /\ Legacy.g_apf1_r g' = Legacy.g_apf1_r g
  /\ Legacy.g_apf2_l g' = Legacy.g_apf2_l g
  /\ Legacy.g_apf2_r g' = Legacy.g_apf2_r g.

End LegacyVocabulary.

(** ** binary32 values *)

(** A control value as the clamps leave it: inside [0, 1], or NaN. *)
Definition b32_unit_or_nan (x : spec_float) : Prop :=
  x = S754_nan \/ ((f_lit 0 <=. x) = true /\ (x <=. f_lit 1) = true).

Definition b32_controls_unit_or_nan (s : psxverb_instance_t spec_float)
  : Prop :=
  b32_unit_or_nan (decay s) /\ b32_unit_or_nan (mix s)
  /\ b32_unit_or_nan (input_gain s) /\ b32_unit_or_nan (reverb_level s).

(** The two interpolator histories hold finite samples. *)
Definition b32_interpolators_finite (s : psxverb_instance_t spec_float)
  : Prop :=
  Forall b32_finite (state (up_l s)) /\ Forall b32_finite (state (up_r s)).

(** Along the [m] pairs of a block from frame [i] on, the two samples
    handed to the interpolators ([Lout * vLOUT], [Rout * vROUT]) are
    finite. *)
Fixpoint interpolator_inputs_finite (m : nat) (i : Z)
    (inst : psxverb_instance_t spec_float) (audio : list Z) : Prop :=
  match m with
  | O => True
  | S m' =>
      b32_finite (fst (snd (pair_tick inst audio i)) *. vLOUT_f (current inst))
      /\ b32_finite
           (snd (snd (pair_tick inst audio i)) *. vROUT_f (current inst))
      /\ interpolator_inputs_finite m' (i + 2)
           (fst (process_pair clamp_unit_v2 inst audio i))
           (snd (process_pair clamp_unit_v2 inst audio i))
  end.

(** A zero of either sign. *)
Definition b32_zero (x : spec_float) : Prop :=
  match x with
  | S754_zero _ => True
  | _ => False
  end.

(** A state that holds no sound: the Work Area and the four resampler
    histories are all zero. *)
Definition b32_silent_halfband (hb : halfband_t spec_float) : Prop :=
  Forall b32_zero (state hb).

Definition b32_silent_state (s : psxverb_instance_t spec_float) : Prop :=
  Forall (fun z => z = 0) (WorkArea.buf (work s))
  /\ b32_silent_halfband (down_l s) /\ b32_silent_halfband (down_r s)
  /\ b32_silent_halfband (up_l s) /\ b32_silent_halfband (up_r s).

(** The twelve volumes and filter coefficients of a coefficient set are
    finite. *)
Definition b32_coefficients_finite (p : scaled_preset_t spec_float) : Prop :=
  Forall b32_finite
    [vIIR_f p; vCOMB1_f p; vCOMB2_f p; vCOMB3_f p; vCOMB4_f p; vWALL_f p;
     vAPF1_f p; vAPF2_f p; vLIN_f p; vRIN_f p; vLOUT_f p; vROUT_f p].

(** The wet mix [mix] and the dry mix [1 - mix] are finite. *)
Definition b32_mix_finite (s : psxverb_instance_t spec_float) : Prop :=
  b32_finite (mix s) /\ b32_finite (f_lit 1 -. mix s).

(** * Properties *)

(** ** The model on concrete inputs *)

Example next_pow2_examples :
  next_pow2 (0x26C0 / 2) = 8192 /\ next_pow2 0x26C0 = 16384
  /\ next_pow2 0xF6C0 = 65536 /\ next_pow2 4096 = 4096 /\ next_pow2 0 = 0.
Proof. repeat split; reflexivity. Qed.

Example atoi_examples :
  atoi "7" = 7 /\ atoi "  -42x" = -42 /\ atoi "+5" = 5 /\ atoi "abc" = 0
  /\ atoi "4294967296" = 0.
Proof. repeat split; reflexivity. Qed.

Example Q_atof_examples :
  Q_atof "0.1235," = (1235 * 1 # 10000)%Q /\ (Q_atof "  -12.5e-1x" == -1.25)%Q
  /\ (Q_atof ".5" == 0.5)%Q /\ Q_atof "abc" = 0%Q /\ (Q_atof "1e2" == 100)%Q.
Proof. repeat split; reflexivity. Qed.

Example Q_fmt_fixed_examples :
  Q_fmt_fixed 4 0.123456 = "0.1235"%string
  /\ Q_fmt_fixed 4 0.8 = "0.8000"%string
  /\ Q_fmt_fixed 2 (1 # 3) = "0.33"%string
  /\ Q_fmt_fixed 2 (- (1 # 3)) = "-0.33"%string
  /\ Q_fmt_fixed 0 2.5 = "2"%string /\ Q_fmt_fixed 0 3.5 = "4"%string
  /\ fmt_int (-120) = "-120"%string.
Proof. repeat split; reflexivity. Qed.

Example fresh_instance_state :
  v2_get_param (F:=Q) v2_create_instance "state" 256
  = (82, Some (json_text
      "{'preset':4,'decay':0.8000,'mix':0.3500,'input_gain':0.5000,'reverb_level':0.5000}")).
Proof. vm_compute. reflexivity. Qed.

Example fresh_instance_coefficients :
  let inst : psxverb_instance_t Q := v2_create_instance in
  let g : psxverb_instance_t Q := fx_on_load in
  (vWALL_f (base inst) == -0.5)%Q /\ (vWALL_f (current inst) == -0.4)%Q
  /\ (vWALL_f (current g) == -0.794)%Q
  /\ workarea_size (work inst) = 65536 /\ workarea_size (work g) = 32768.
Proof. vm_compute. repeat split; reflexivity. Qed.

Example silence_in_silence_out :
  snd (v2_process_block (F:=Q) v2_create_instance (replicate 16 0) 8)
  = replicate 16 0.
Proof. vm_compute. reflexivity. Qed.

Example odd_block_example :
  snd (v2_process_block (F:=Q) v2_create_instance
         [1000; -2000; 3000; 4000; 5; 6] 3)
  = [649; -1299; 1949; 2599; 5; 6].
Proof. vm_compute. reflexivity. Qed.

(** ** Integers and arrays *)

Lemma wrap_s16_small (z : Z) : -32768 <= z <= 32767 -> wrap_s16 z = z.
Proof.
  intros Hz. unfold wrap_s16.
  rewrite Z.mod_small by lia. lia.
Qed.

Lemma wrap_u32_small (z : Z) : 0 <= z < 2 ^ 32 -> wrap_u32 z = z.
Proof. intros Hz. unfold wrap_u32. now apply Z.mod_small. Qed.

Lemma wrap_u32_range (z : Z) : 0 <= wrap_u32 z < 2 ^ 32.
Proof. unfold wrap_u32. apply Z.mod_pos_bound. lia. Qed.

Lemma saturate16_range (z : Z) : -32768 <= saturate16 z <= 32767.
Proof.
  unfold saturate16.
  destruct (z >? 32767) eqn:Hhi.
  - cbn. lia.
  - destruct (z <? -32768) eqn:Hlo; lia.
Qed.

Lemma saturate16_max_min (z : Z) :
  saturate16 z = Z.max (-32768) (Z.min 32767 z).
Proof.
  unfold saturate16.
  destruct (z >? 32767) eqn:Hhi.
  - cbn. lia.
  - destruct (z <? -32768) eqn:Hlo; lia.
Qed.

(** A mask keeps an index inside the masked range. *)
Lemma land_mask_range (x m : Z) : 0 <= m -> 0 <= Z.land x m <= m.
Proof.
  intros Hm. split.
  - apply Z.land_nonneg. now right.
  - assert (Hsplit : m = Z.ldiff m x + Z.land m x).
    { rewrite Z.add_nocarry_lor.
      - symmetry. apply Z.lor_ldiff_and.
      - rewrite (Z.land_comm m x), Z.land_assoc.
        rewrite Z.land_ldiff. apply Z.land_0_l. }
    assert (0 <= Z.ldiff m x) by (apply Z.ldiff_nonneg; now left).
    rewrite (Z.land_comm x m). lia.
Qed.

Lemma array_get_set_same {A : Type} (a : list A) (i : Z) (x d : A) :
  0 <= i < Z.of_nat (length a) -> array_get (array_set a i x) i d = x.
Proof.
  intros Hi. unfold array_get, array_set.
  destruct (i <? 0) eqn:Hneg; [lia|].
  rewrite list_lookup_insert_eq by lia. reflexivity.
Qed.

Lemma array_get_set_other {A : Type} (a : list A) (i j : Z) (x d : A) :
  0 <= i -> 0 <= j -> i <> j ->
  array_get (array_set a i x) j d = array_get a j d.
Proof.
  intros Hi Hj Hne. unfold array_get, array_set.
  destruct (i <? 0) eqn:Hneg; [lia|].
  rewrite list_lookup_insert_ne by lia. reflexivity.
Qed.

Lemma array_set_length {A : Type} (a : list A) (i : Z) (x : A) :
  length (array_set a i x) = length a.
Proof.
  unfold array_set. destruct (i <? 0); [reflexivity|apply length_insert].
Qed.

(** ** Work Area *)

Lemma workarea_index_range (wa : workarea_t) (offset : Z) :
  workarea_wf wa ->
  0 <= workarea_index wa offset < Z.of_nat (length (WorkArea.buf wa)).
Proof.
  intros [Hlo Hhi]. unfold workarea_index.
  pose proof (land_mask_range (wrap_u32 (WorkArea.base wa + offset))
                (WorkArea.size_mask wa) Hlo).
  lia.
Qed.

(** *** Truncation toward zero *)

Lemma trunc_scale (x : Q) (c : positive) :
  Z.quot (Qnum x * Zpos c) (Zpos (Qden x) * Zpos c) = trunc_toward_zero x.
Proof. unfold trunc_toward_zero. apply Z.quot_mul_cancel_r; lia. Qed.

(** Truncation toward zero is monotone. *)
Lemma trunc_le (x y : Q) :
  (x <= y)%Q -> trunc_toward_zero x <= trunc_toward_zero y.
Proof.
  intros Hle.
  rewrite <- (trunc_scale x (Qden y)), <- (trunc_scale y (Qden x)).
  rewrite (Z.mul_comm (Zpos (Qden y)) (Zpos (Qden x))).
  apply Z.quot_le_mono; [lia|exact Hle].
Qed.

Lemma trunc_Qeq (x y : Q) :
  (x == y)%Q -> trunc_toward_zero x = trunc_toward_zero y.
Proof.
  intros Heq. apply Z.le_antisymm; apply trunc_le; rewrite Heq; apply Qle_refl.
Qed.

Lemma trunc_inject (z : Z) : trunc_toward_zero (inject_Z z) = z.
Proof. unfold trunc_toward_zero. cbn. apply Z.quot_1_r. Qed.

Lemma Q_to_int_trunc (x : Q) :
  Q_to_int x = Z.max (- 2 ^ 31) (Z.min (2 ^ 31 - 1) (trunc_toward_zero x)).
Proof. reflexivity. Qed.

(** The conversion to [int32_t] depends on the value only, not on the
    fraction that represents it. *)
Lemma Q_to_int_Qeq (x y : Q) : (x == y)%Q -> Q_to_int x = Q_to_int y.
Proof. intros Heq. rewrite !Q_to_int_trunc, (trunc_Qeq x y Heq). reflexivity. Qed.

(** Between two integers of the [int32_t] range the conversion is the
    truncation, and stays between them. *)
Lemma Q_to_int_between (x : Q) (a b : Z) :
  - 2 ^ 31 <= a -> b <= 2 ^ 31 - 1 ->
  (inject_Z a <= x <= inject_Z b)%Q ->
  Q_to_int x = trunc_toward_zero x /\ a <= Q_to_int x <= b.
Proof.
  intros Ha Hb [Hlo Hhi]. rewrite Q_to_int_trunc.
  apply trunc_le in Hlo, Hhi. rewrite trunc_inject in Hlo, Hhi. lia.
Qed.

(** Strictly inside [(-b, b)] the truncation stays strictly inside. *)
Lemma trunc_inside (x : Q) (b : Z) :
  0 < b -> (inject_Z (- b) < x < inject_Z b)%Q ->
  - b < trunc_toward_zero x < b.
Proof.
  intros Hb [Hlo Hhi]. unfold Qlt in Hlo, Hhi. cbn in Hlo, Hhi.
  unfold trunc_toward_zero.
  destruct x as [n d]. cbn [Qnum Qden] in Hlo, Hhi |- * .
  destruct (Z.le_gt_cases 0 n) as [Hn | Hn].
  - assert (0 <= Z.quot n (Zpos d)) by (apply Z.quot_pos; lia).
    assert (Z.quot n (Zpos d) < b)
      by (apply Z.quot_lt_upper_bound; lia).
    lia.
  - replace n with (- (- n)) by lia. rewrite Z.quot_opp_l by lia.
    assert (0 <= Z.quot (- n) (Zpos d)) by (apply Z.quot_pos; lia).
    assert (Z.quot (- n) (Zpos d) < b)
      by (apply Z.quot_lt_upper_bound; lia).
    lia.
Qed.

(** For a value inside (-65536, 65536) the scaled value fits [int32_t]:
    the conversion is exact, and what is stored is the truncation,
    saturated to 16 bits. *)
Lemma stored_sample_quantized (value : Q) :
  (-65536 < value < 65536)%Q ->
  wrap_s16 (saturate16 (Q_to_int (value * 32768)%Q)) =
  clamp_int16 (trunc_toward_zero (value * 32768)%Q).
Proof.
  intros [Hlo Hhi].
  assert (Hfit : (inject_Z (- 2 ^ 31) < value * 32768 < inject_Z (2 ^ 31))%Q).
  { change (inject_Z (- 2 ^ 31)) with (-2147483648)%Q.
    change (inject_Z (2 ^ 31)) with 2147483648%Q. split; nra. }
  apply (trunc_inside _ (2 ^ 31) ltac:(lia)) in Hfit.
  rewrite Q_to_int_trunc.
  rewrite Z.min_r, Z.max_r by lia.
  rewrite wrap_s16_small by apply saturate16_range.
  rewrite saturate16_max_min. reflexivity.
Qed.

(** A sample read back where it was written. *)
Lemma workarea_read_written (wa : workarea_t) (offset : Z) (value : Q) :
  workarea_wf wa -> (-65536 < value < 65536)%Q ->
  (workarea_read_relative (workarea_write_relative wa offset value) offset
   == quantize16 value)%Q.
Proof.
  intros Hwf Hvalue. unfold workarea_read_relative, workarea_write_relative.
  cbv zeta. cbn [WorkArea.buf].
  change (workarea_index
            {| WorkArea.buf := _; WorkArea.size_mask := _;
               WorkArea.base := _ |} offset)
    with (workarea_index wa offset).
  rewrite array_get_set_same by now apply workarea_index_range.
  cbn [f_of_int f_mul f_to_int Q_float kFloatToInt16 kInt16ToFloat f_lit
       f_div].
  rewrite stored_sample_quantized by exact Hvalue.
  unfold quantize16. field.
Qed.

(** C6, as the code has it: for every offset and every value inside
    (-65536, 65536), whose scaled value fits the [int32_t] it is converted
    to, a sample written with [workarea_write_relative] and read back with
    [workarea_read_relative] at the same offset, the base cursor left
    alone, is the value scaled by 32768, truncated toward zero, saturated
    to [-32768, 32767] and scaled back by 1/32768; writing 2.0 reads back
    32767/32768. *)
Theorem C6_write_read_roundtrip_amended (wa : workarea_t) (offset : Z)
    (value : Q) :
  workarea_wf wa ->
  (-65536 < value < 65536)%Q ->
  (workarea_read_relative (workarea_write_relative wa offset value) offset
     == quantize16 value)%Q
  /\ (workarea_read_relative (workarea_write_relative wa offset 2%Q) offset
     == 32767 # 32768)%Q.
Proof.
  intros Hwf Hvalue. split.
  - now apply workarea_read_written.
  - rewrite workarea_read_written by (try exact Hwf; split; reflexivity).
    reflexivity.
Qed.

(** C6 at a Work Area of eight samples with the cursor at 5, writing 2.0
    one sample behind the cursor. *)
Lemma C6_write_read_roundtrip_amended_witness :
  let wa := {| WorkArea.buf := replicate 8 0; WorkArea.size_mask := 7;
               WorkArea.base := 5 |} in
  workarea_wf wa /\ (-65536 < 2 < 65536)%Q /\
  (workarea_read_relative (workarea_write_relative wa (-1) 2%Q) (-1)
     == quantize16 2)%Q.
Proof.
  intros wa.
  assert (Hwf : workarea_wf wa) by (unfold workarea_wf; cbn; lia).
  assert (Hvalue : (-65536 < 2 < 65536)%Q) by (split; reflexivity).
  split; [exact Hwf|]. split; [exact Hvalue|].
  exact (proj1 (C6_write_read_roundtrip_amended wa (-1) 2%Q Hwf Hvalue)).
Defined.

(** C6 fails as stated, for every value: where the scaled value leaves
    the [int32_t] range the conversion [(int32_t)(value * kFloatToInt16)]
    is undefined.  In binary32 arithmetic with the conversion of x86-64,
    which returns [INT32_MIN] there, writing 65536.0 reads back -1.0 and
    not the saturated value 32767/32768; writing NaN reads back -1.0 as
    well. *)
Lemma C6_out_of_range_counterexample :
  let wa := {| WorkArea.buf := replicate 8 0; WorkArea.size_mask := 7;
               WorkArea.base := 5 |} in
  let back (value : spec_float) : spec_float :=
    workarea_read_relative (workarea_write_relative wa (-1) value) (-1) in
  (quantize16 65536 == 32767 # 32768)%Q
  /\ back (f_lit 2) = f_lit (32767 # 32768)
  /\ back (f_lit 65536) = f_neg (f_lit 1)
  /\ back (f_lit 65536) <> f_lit (32767 # 32768)
  /\ back S754_nan = f_neg (f_lit 1).
Proof.
  intros wa back. repeat split; try (vm_compute; reflexivity).
  vm_compute. discriminate.
Qed.

(** ** Halfband resampler *)

(** A convolution against a table of zeros leaves the running sum as it
    is, whatever the history holds. *)
Lemma hb_convolve_zero_taps (g : list Q) (st : list Q) (idx : Z) (sum : Q) :
  Forall (fun c => c == 0)%Q g ->
  (hb_convolve g st idx sum == sum)%Q.
Proof.
  intros Hg. revert idx sum.
  induction Hg as [|c g Hc _ IH]; intros idx sum; cbn [hb_convolve].
  - reflexivity.
  - rewrite IH. cbn [f_add f_mul Q_float]. rewrite Hc. ring.
Qed.

Lemma g_hb_phase1_zero : Forall (fun c => c == 0)%Q (@g_hb_phase1 Q _).
Proof. unfold g_hb_phase1. cbn. repeat constructor. Qed.

(** The same in binary32 arithmetic, for a history of finite samples:
    every product is a zero, and a sum of zeros that starts at +0 stays
    +0. *)
Lemma b32_zero_tap (sum x : spec_float) :
  sum = S754_zero false -> b32_finite x ->
  sum +. S754_zero false *. x = S754_zero false.
Proof.
  intros -> Hx. destruct x as [s | s | | s m e]; try contradiction;
    destruct s; reflexivity.
Qed.

Lemma b32_array_get_finite (st : list spec_float) (idx : Z) :
  Forall b32_finite st -> b32_finite (array_get st idx (f_lit 0)).
Proof.
  intros Hst. unfold array_get. destruct (idx <? 0); [exact I|].
  destruct (st !! Z.to_nat idx) as [x|] eqn:Hx; cbn [default from_option id];
    [|exact I].
  rewrite Forall_lookup in Hst. exact (Hst _ _ Hx).
Qed.

Lemma b32_convolve_zero_taps (g st : list spec_float) :
  Forall (fun c => c = S754_zero false) g -> Forall b32_finite st ->
  forall idx : Z, hb_convolve g st idx (S754_zero false) = S754_zero false.
Proof.
  intros Hg Hst. induction Hg as [|c g Hc _ IH]; intros idx;
    cbn [hb_convolve]; [reflexivity|].
  rewrite Hc, b32_zero_tap; [apply IH|reflexivity|].
  now apply b32_array_get_finite.
Qed.

Lemma b32_phase1_zero :
  Forall (fun c => c = S754_zero false) (@g_hb_phase1 spec_float _).
Proof. unfold g_hb_phase1. cbn [map]. repeat constructor. Qed.

Lemma b32_push_finite (hb : halfband_t spec_float) (x : spec_float) :
  Forall b32_finite (state hb) -> b32_finite x ->
  Forall b32_finite (state (halfband_push hb x)).
Proof.
  intros Hhb Hx. unfold halfband_push, array_set. cbn [state].
  destruct (pos hb <? 0); [exact Hhb|]. now apply Forall_insert.
Qed.

(** C7, as the code has it: for every finite input sample and every
    filter history of finite samples, the second output sample of
    [halfband_interpolate], the phase-1 (odd-tap) branch, is exactly +0.0
    in binary32 arithmetic. *)
Theorem C7_interpolate_phase1_zero_finite (hb : halfband_t spec_float)
    (in_tick : spec_float) :
  Forall b32_finite (state hb) -> b32_finite in_tick ->
  snd (snd (halfband_interpolate hb in_tick)) = S754_zero false.
Proof.
  intros Hhb Hin. unfold halfband_interpolate. cbv zeta. cbn [snd].
  rewrite (b32_convolve_zero_taps g_hb_phase1) by
    first [ apply b32_phase1_zero
          | apply b32_push_finite; [apply b32_push_finite; assumption|exact I] ].
  reflexivity.
Qed.

(** C7 at a history of zeros and the input sample -3.0. *)
Lemma C7_interpolate_phase1_zero_finite_witness :
  let hb : halfband_t spec_float := zero_halfband in
  Forall b32_finite (state hb) /\ b32_finite (f_lit (-3))
  /\ snd (snd (halfband_interpolate hb (f_lit (-3)))) = S754_zero false.
Proof.
  intros hb.
  assert (Hhb : Forall b32_finite (state hb))
    by (apply Forall_replicate; exact I).
  assert (Hin : b32_finite (f_lit (-3))) by exact I.
  split; [exact Hhb|]. split; [exact Hin|].
  exact (C7_interpolate_phase1_zero_finite hb (f_lit (-3)) Hhb Hin).
Defined.

(** C7 fails as stated, for every input sample and every history: in
    binary32 arithmetic the product of a zero tap with an infinity or a
    NaN is NaN.  On a history of zeros the second output is NaN for the
    input sample +infinity and for the input sample NaN, and on a history
    that holds one infinity it is NaN for the input sample 1.0. *)
Lemma C7_non_finite_counterexample :
  let hb : halfband_t spec_float := zero_halfband in
  let hb' : halfband_t spec_float :=
    halfband_push zero_halfband (S754_infinity true) in
  snd (snd (halfband_interpolate hb (S754_infinity false))) = S754_nan
  /\ snd (snd (halfband_interpolate hb S754_nan)) = S754_nan
  /\ snd (snd (halfband_interpolate hb' (f_lit 1))) = S754_nan
  /\ S754_nan <> S754_zero false.
Proof.
  intros hb hb'. repeat split; try (vm_compute; reflexivity). discriminate.
Qed.

(** ** Decay *)

Lemma Q_ltb_lt (x y : Q) : Q_ltb x y = true <-> (x < y)%Q.
Proof.
  unfold Q_ltb. rewrite negb_true_iff.
  destruct (Qle_bool y x) eqn:Hle.
  - apply Qle_bool_iff in Hle. split; [discriminate|].
    intros Hlt. exfalso. apply (Qlt_not_le _ _ Hlt Hle).
  - split; [intros _|reflexivity].
    apply Qnot_le_lt. intros Hle'. apply Qle_bool_iff in Hle'. congruence.
Qed.

Lemma Q_ltb_ge (x y : Q) : Q_ltb x y = false <-> (y <= x)%Q.
Proof.
  unfold Q_ltb. rewrite negb_false_iff. apply Qle_bool_iff.
Qed.

Lemma max_f_Q (a b : Q) : (max_f a b == Qmax a b)%Q.
Proof.
  unfold max_f. cbn [f_lt Q_float].
  destruct (Q_ltb b a) eqn:Hlt.
  - apply Q_ltb_lt in Hlt. symmetry. apply Q.max_l. now apply Qlt_le_weak.
  - apply Q_ltb_ge in Hlt. symmetry. now apply Q.max_r.
Qed.

Lemma abs_f_Q (v : Q) : (abs_f v == Qabs v)%Q.
Proof.
  unfold abs_f. cbn [f_lt f_lit f_neg Q_float].
  destruct (Q_ltb v 0) eqn:Hlt.
  - apply Q_ltb_lt in Hlt. symmetry. apply Qabs_neg. now apply Qlt_le_weak.
  - apply Q_ltb_ge in Hlt. symmetry. now apply Qabs_pos.
Qed.

Lemma clamp_f_Q (v lo hi : Q) :
  (lo <= hi)%Q -> (clamp_f v lo hi == clamp_spec v lo hi)%Q.
Proof.
  intros Hlohi. unfold clamp_f, clamp_spec. cbn [f_lt Q_float].
  destruct (Q_ltb v lo) eqn:Hlo.
  - apply Q_ltb_lt in Hlo. symmetry. apply Q.max_l.
    apply Q.min_le_iff. left. now apply Qlt_le_weak.
  - apply Q_ltb_ge in Hlo.
    destruct (Q_ltb hi v) eqn:Hhi.
    + apply Q_ltb_lt in Hhi.
      rewrite Q.min_r by now apply Qlt_le_weak.
      symmetry. now apply Q.max_r.
    + apply Q_ltb_ge in Hhi.
      rewrite Q.min_l by assumption.
      symmetry. now apply Q.max_r.
Qed.

Lemma clamp_f_range (v lo hi : Q) :
  (lo <= hi)%Q -> (lo <= clamp_f v lo hi <= hi)%Q.
Proof.
  intros Hlohi. unfold clamp_f. cbn [f_lt Q_float].
  destruct (Q_ltb v lo) eqn:Hlo.
  - split; [apply Qle_refl|assumption].
  - apply Q_ltb_ge in Hlo.
    destruct (Q_ltb hi v) eqn:Hhi.
    + split; [assumption|apply Qle_refl].
    + apply Q_ltb_ge in Hhi. now split.
Qed.

(** What v1 [update_decay] leaves in [current.vWALL_f]. *)
Lemma update_decay_wall (g : psxverb_instance_t Q) (d : Q) :
  (vWALL_f (current (update_decay d g)) == decay_wall (vWALL_f (base g)) d)%Q.
Proof.
  unfold update_decay.
  cbn [current set_current vWALL_f set_vWALL_f with_volumes].
  rewrite clamp_f_Q by (cbn; discriminate).
  unfold decay_wall, decay_scale, decay_max_scale, lerp.
  cbn [f_le f_lit f_add f_sub f_mul f_div Q_float].
  destruct (Qle_bool d 0.5) eqn:Hd.
  - apply Q.max_compat; [reflexivity|].
    apply Q.min_compat; [|reflexivity]. field.
  - apply Q.max_compat; [reflexivity|].
    apply Q.min_compat; [|reflexivity].
    rewrite clamp_f_Q by (cbn; discriminate).
    unfold clamp_spec. rewrite max_f_Q, abs_f_Q. field.
Qed.

(** What v2 [v2_update_decay] leaves in [current.vWALL_f]. *)
Lemma v2_update_decay_wall (inst : psxverb_instance_t Q) :
  vWALL_f (current (v2_update_decay inst))
  = (vWALL_f (base inst) * decay inst)%Q.
Proof. reflexivity. Qed.

(** C1, as the code has it: v1 [update_decay] sets [current.vWALL] to
    [clamp(base.vWALL * scale, -0.995, 0.995)], where [scale] runs linearly
    from 0.5 at decay 0 to 1.0 at decay 0.5 and from there to [maxScale] at
    decay 1.0; v2 [v2_update_decay] sets it to [base.vWALL * decay]. *)
Theorem C1_decay_update_amended (g : psxverb_instance_t Q) (d : Q) :
  (vWALL_f (current (update_decay d g)) == decay_wall (vWALL_f (base g)) d)%Q
  /\ (decay_scale (vWALL_f (base g)) 0 == 0.5)%Q
  /\ (decay_scale (vWALL_f (base g)) 0.5 == 1)%Q
  /\ (decay_scale (vWALL_f (base g)) 1
      == decay_max_scale (vWALL_f (base g)))%Q
  /\ (vWALL_f (current (v2_update_decay (set_decay d g)))
      == vWALL_f (base g) * d)%Q.
Proof.
  split; [apply update_decay_wall|].
  split; [reflexivity|].
  split; [reflexivity|].
  split.
  - unfold decay_scale.
    assert (Hhigh : Qle_bool 1 0.5 = false) by reflexivity.
    rewrite Hhigh. unfold lerp. field.
  - rewrite v2_update_decay_wall. reflexivity.
Qed.

(** C1 fails on the v2 instance: a freshly created instance (preset Hall,
    [base.vWALL = -0.5], decay 0.8) gets [current.vWALL = -0.4] where the
    two-segment mapping gives -0.794. *)
Lemma C1_v2_counterexample :
  let inst : psxverb_instance_t Q := v2_create_instance in
  ~ (vWALL_f (current (v2_update_decay inst))
     == decay_wall (vWALL_f (base inst)) (decay inst))%Q.
Proof.
  intros inst. vm_compute. discriminate.
Qed.

(** The wall coefficient of each preset, scaled, stays within 0.79. *)
Lemma preset_wall_bound (idx : Z) :
  0 <= idx <= 5 ->
  (- (79 # 100) <= vWALL_f (scale_preset (F:=Q) (preset_at idx)) <= 0)%Q.
Proof.
  intros Hidx.
  assert (Hcases : idx = 0 \/ idx = 1 \/ idx = 2 \/ idx = 3 \/ idx = 4
                   \/ idx = 5) by lia.
  destruct Hcases as [-> | [-> | [-> | [-> | [-> | ->]]]]];
    vm_compute; split; discriminate.
Qed.

(** C5: for every decay in [0, 1] and each of the six presets, the
    [current.vWALL] the decay update produces lies in [-0.995, 0.995], with
    v1 [update_decay] and with v2 [v2_update_decay] alike. *)
Theorem C5_decay_wall_in_range (g : psxverb_instance_t Q) (idx : Z) (d : Q) :
  0 <= idx <= 5 ->
  (0 <= d <= 1)%Q ->
  base g = scale_preset (preset_at idx) ->
  (-0.995 <= vWALL_f (current (update_decay d g)) <= 0.995)%Q
  /\ (-0.995 <= vWALL_f (current (v2_update_decay (set_decay d g)))
      <= 0.995)%Q.
Proof.
  intros Hidx Hd Hbase. split.
  - unfold update_decay.
    cbn [current set_current vWALL_f set_vWALL_f with_volumes].
    apply clamp_f_range. cbn. discriminate.
  - rewrite v2_update_decay_wall.
    cbn [base decay set_decay]. rewrite Hbase.
    pose proof (preset_wall_bound idx Hidx) as Hw.
    revert Hw.
    generalize (vWALL_f (scale_preset (F:=Q) (preset_at idx))).
    intros w Hw. split; nra.
Qed.

(** C5 at a freshly created v2 instance: preset Hall (index 4), decay 0.8. *)
Lemma C5_decay_wall_in_range_witness :
  let g : psxverb_instance_t Q := v2_create_instance in
  0 <= 4 <= 5 /\ (0 <= 0.8 <= 1)%Q /\
  base g = scale_preset (preset_at 4) /\
  (-0.995 <= vWALL_f (current (update_decay 0.8%Q g)) <= 0.995)%Q /\
  (-0.995 <= vWALL_f (current (v2_update_decay (set_decay 0.8%Q g)))
   <= 0.995)%Q.
Proof.
  intros g.
  assert (Hidx : 0 <= 4 <= 5) by lia.
  assert (Hd : (0 <= 0.8 <= 1)%Q) by (split; discriminate).
  assert (Hbase : base g = scale_preset (preset_at 4)) by reflexivity.
  split; [exact Hidx|]. split; [exact Hd|]. split; [exact Hbase|].
  exact (C5_decay_wall_in_range g 4 0.8%Q Hidx Hd Hbase).
Defined.

(** ** Presets and the Work Area size *)

Section PresetProperties.
Context {F : Type} `{FloatOps F}.

Lemma preset_index_cases (idx : Z) :
  0 <= idx <= 5 ->
  idx = 0 \/ idx = 1 \/ idx = 2 \/ idx = 3 \/ idx = 4 \/ idx = 5.
Proof. lia. Qed.

Lemma clamp_index_ifs (idx : Z) :
  (if (if idx <? 0 then 0 else idx) >? 5 then 5
   else (if idx <? 0 then 0 else idx)) = clamp_index idx.
Proof.
  unfold clamp_index. destruct (idx <? 0) eqn:Hlo.
  - cbn. lia.
  - destruct (idx >? 5) eqn:Hhi; lia.
Qed.

Lemma clamp_index_idem (idx : Z) : clamp_index (clamp_index idx) = clamp_index idx.
Proof. unfold clamp_index. lia. Qed.

(** The size v1 [apply_preset] gives the Work Area. *)
Lemma apply_preset_work_size (g : psxverb_instance_t F) (idx : Z) :
  workarea_size (work (apply_preset idx g)) =
  let n := next_pow2
             (Preset.work_size (preset_at (clamp_index idx)) / sizeof_int16_t) in
  wrap_u32 ((if n >? WORK_MAX_SIZE then WORK_MAX_SIZE else n) - 1) + 1.
Proof.
  unfold apply_preset, clamp_index.
  assert (Hidx : (let i := if idx <? 0 then 0 else idx in
                  if i >? 5 then 5 else i) = Z.max 0 (Z.min 5 idx)).
  { cbv zeta. destruct (idx <? 0) eqn:Hlo.
    - cbn. lia.
    - destruct (idx >? 5) eqn:Hhi; lia. }
  cbv zeta in Hidx |- *; rewrite Hidx. reflexivity.
Qed.

(** The size v2 [v2_apply_preset] gives the Work Area. *)
Lemma v2_apply_preset_work_size (inst : psxverb_instance_t F) (idx : Z) :
  0 <= idx <= 5 ->
  workarea_size (work (v2_apply_preset inst idx)) =
  let n := next_pow2 (Preset.work_size (preset_at idx)) in
  wrap_u32 ((if n >? WORK_MAX_SIZE then WORK_MAX_SIZE else n) - 1) + 1.
Proof.
  intros Hidx. unfold v2_apply_preset.
  assert (Hguard : (idx <? 0) || (idx >=? 6) = false).
  { apply orb_false_iff. split; lia. }
  rewrite Hguard. reflexivity.
Qed.

Lemma memset_length {A : Type} (a : list A) (z : A) (n : Z) :
  length (memset a z n) = length a.
Proof.
  unfold memset. rewrite length_app, length_replicate, length_drop. lia.
Qed.

(** The masks the two variants compute stay below [WORK_MAX_SIZE]. *)
Lemma preset_masks_bounded (idx : Z) :
  0 <= idx <= 5 ->
  (let n := next_pow2 (Preset.work_size (preset_at idx) / sizeof_int16_t) in
   0 <= wrap_u32 ((if n >? WORK_MAX_SIZE then WORK_MAX_SIZE else n) - 1)
     < WORK_MAX_SIZE)
  /\ (let n := next_pow2 (Preset.work_size (preset_at idx)) in
      0 <= wrap_u32 ((if n >? WORK_MAX_SIZE then WORK_MAX_SIZE else n) - 1)
        < WORK_MAX_SIZE).
Proof.
  intros Hidx.
  destruct (preset_index_cases idx Hidx)
    as [-> | [-> | [-> | [-> | [-> | ->]]]]];
    vm_compute; intuition congruence.
Qed.

Lemma apply_preset_work (g : psxverb_instance_t F) (idx : Z) :
  work (apply_preset idx g) =
  let n := next_pow2
             (Preset.work_size (preset_at (clamp_index idx)) / sizeof_int16_t) in
  workarea_init (work g) (if n >? WORK_MAX_SIZE then WORK_MAX_SIZE else n).
Proof.
  unfold apply_preset. cbv zeta. rewrite !clamp_index_ifs. reflexivity.
Qed.

Lemma v2_apply_preset_work (inst : psxverb_instance_t F) (idx : Z) :
  0 <= idx <= 5 ->
  work (v2_apply_preset inst idx) =
  let n := next_pow2 (Preset.work_size (preset_at idx)) in
  let work_size := if n >? WORK_MAX_SIZE then WORK_MAX_SIZE else n in
  {| WorkArea.buf := memset (WorkArea.buf (work inst)) 0 work_size;
     WorkArea.size_mask := wrap_u32 (work_size - 1);
     WorkArea.base := 0 |}.
Proof.
  intros Hidx. unfold v2_apply_preset.
  assert (Hguard : (idx <? 0) || (idx >=? 6) = false).
  { apply orb_false_iff. split; lia. }
  rewrite Hguard. reflexivity.
Qed.

(** Applying a preset leaves a Work Area whose mask stays inside the
    buffer of [WORK_MAX_SIZE] samples, in both variants. *)
Lemma apply_preset_wf (g : psxverb_instance_t F) (idx : Z) :
  Z.of_nat (length (WorkArea.buf (work g))) = WORK_MAX_SIZE ->
  workarea_wf (work (apply_preset idx g))
  /\ Z.of_nat (length (WorkArea.buf (work (apply_preset idx g))))
     = WORK_MAX_SIZE.
Proof.
  intros Hlen. rewrite apply_preset_work. cbv zeta.
  unfold workarea_wf, workarea_init. cbn [WorkArea.buf WorkArea.size_mask].
  rewrite memset_length, Hlen. split; [|reflexivity].
  assert (Hidx : 0 <= clamp_index idx <= 5) by (unfold clamp_index; lia).
  exact (proj1 (preset_masks_bounded (clamp_index idx) Hidx)).
Qed.

Lemma v2_apply_preset_wf (inst : psxverb_instance_t F) (idx : Z) :
  0 <= idx <= 5 ->
  Z.of_nat (length (WorkArea.buf (work inst))) = WORK_MAX_SIZE ->
  workarea_wf (work (v2_apply_preset inst idx))
  /\ Z.of_nat (length (WorkArea.buf (work (v2_apply_preset inst idx))))
     = WORK_MAX_SIZE.
Proof.
  intros Hidx Hlen. rewrite v2_apply_preset_work by assumption. cbv zeta.
  unfold workarea_wf. cbn [WorkArea.buf WorkArea.size_mask].
  rewrite memset_length, Hlen. split; [|reflexivity].
  exact (proj2 (preset_masks_bounded idx Hidx)).
Qed.
(** [base] after v2 [v2_apply_preset] is the scaled preset. *)
Lemma v2_apply_preset_base (inst : psxverb_instance_t F) (idx : Z) :
  0 <= idx <= 5 ->
  preset_idx (v2_apply_preset inst idx) = idx
  /\ base (v2_apply_preset inst idx) = scale_preset (preset_at idx).
Proof.
  intros Hidx. unfold v2_apply_preset.
  assert (Hguard : (idx <? 0) || (idx >=? 6) = false).
  { apply orb_false_iff. split; lia. }
  rewrite Hguard. split; reflexivity.
Qed.

(** C2: for each of the six presets the Work Area size after applying the
    preset is a power of two, at least the preset's declared [work_size]
    and at most 65536 elements.  v2 counts [work_size] in elements; v1
    counts it in bytes, two to an element, and its Work Area holds at
    least [work_size / 2] elements, which are at least [work_size]
    bytes. *)
Theorem C2_work_area_size (g : psxverb_instance_t F) (idx : Z) :
  0 <= idx <= 5 ->
  let declared := Preset.work_size (preset_at idx) in
  let size_v1 := workarea_size (work (apply_preset idx g)) in
  let size_v2 := workarea_size (work (v2_apply_preset g idx)) in
  (is_pow2 size_v1 /\ declared / sizeof_int16_t <= size_v1 <= WORK_MAX_SIZE
   /\ declared <= size_v1 * sizeof_int16_t)
  /\ (is_pow2 size_v2 /\ declared <= size_v2 <= WORK_MAX_SIZE).
Proof.
  intros Hidx. cbv zeta.
  rewrite apply_preset_work_size, v2_apply_preset_work_size by assumption.
  replace (clamp_index idx) with idx by (unfold clamp_index; lia).
  destruct (preset_index_cases idx Hidx)
    as [-> | [-> | [-> | [-> | [-> | ->]]]]].
  - split; split;
      [exists 13|idtac|exists 14|idtac]; vm_compute; intuition congruence.
  - split; split;
      [exists 12|idtac|exists 13|idtac]; vm_compute; intuition congruence.
  - split; split;
      [exists 14|idtac|exists 15|idtac]; vm_compute; intuition congruence.
  - split; split;
      [exists 14|idtac|exists 15|idtac]; vm_compute; intuition congruence.
  - split; split;
      [exists 15|idtac|exists 16|idtac]; vm_compute; intuition congruence.
  - split; split;
      [exists 15|idtac|exists 16|idtac]; vm_compute; intuition congruence.
Qed.

End PresetProperties.

(** C2 at the v1 plugin as loaded, preset Room (index 0): [work_size] is
    9920, the v1 Work Area has 8192 elements (16384 bytes) and the v2
    Work Area 16384 elements. *)
Lemma C2_work_area_size_witness :
  let g : psxverb_instance_t Q := fx_on_load in
  0 <= 0 <= 5 /\
  (is_pow2 (workarea_size (work (apply_preset 0 g))) /\
   Preset.work_size (preset_at 0) / sizeof_int16_t
     <= workarea_size (work (apply_preset 0 g)) <= WORK_MAX_SIZE /\
   Preset.work_size (preset_at 0)
     <= workarea_size (work (apply_preset 0 g)) * sizeof_int16_t) /\
  (is_pow2 (workarea_size (work (v2_apply_preset g 0))) /\
   Preset.work_size (preset_at 0)
     <= workarea_size (work (v2_apply_preset g 0)) <= WORK_MAX_SIZE).
Proof.
  intros g.
  assert (Hidx : 0 <= 0 <= 5) by lia.
  split; [exact Hidx|].
  exact (C2_work_area_size g 0 Hidx).
Defined.

(** ** Preset selection *)

Section PresetSelection.
Context {F : Type} `{FloatOps F}.

(** v1 [apply_preset] works on the clamped index. *)
Lemma apply_preset_clamps (g : psxverb_instance_t F) (idx : Z) :
  apply_preset idx g = apply_preset (clamp_index idx) g.
Proof.
  unfold apply_preset. cbv zeta.
  rewrite !clamp_index_ifs, !clamp_index_idem. reflexivity.
Qed.

Lemma apply_preset_selects (g : psxverb_instance_t F) (idx : Z) :
  preset_idx (apply_preset idx g) = clamp_index idx
  /\ base (apply_preset idx g) = scale_preset (preset_at (clamp_index idx)).
Proof.
  unfold apply_preset. cbv zeta. rewrite !clamp_index_ifs.
  split; reflexivity.
Qed.

(** v2 [v2_apply_preset] returns at once on an index outside [0, 5]. *)
Lemma v2_apply_preset_out_of_range (inst : psxverb_instance_t F) (idx : Z) :
  idx < 0 \/ 5 < idx -> v2_apply_preset inst idx = inst.
Proof.
  intros Hidx. unfold v2_apply_preset.
  assert (Hguard : (idx <? 0) || (idx >=? 6) = true).
  { apply orb_true_iff. destruct Hidx; [left|right]; lia. }
  now rewrite Hguard.
Qed.

(** v2 [v2_set_param] does not even call it. *)
Lemma v2_set_param_preset_out_of_range (inst : psxverb_instance_t F)
    (val : string) :
  atoi val < 0 \/ 5 < atoi val -> v2_set_param inst "preset" val = inst.
Proof.
  intros Hidx. unfold v2_set_param.
  change (key_is "preset" "state") with false.
  change (key_is "preset" "preset") with true.
  cbv iota zeta.
  assert (Hguard : (atoi val >=? 0) && (atoi val <? 6) = false).
  { apply andb_false_iff. destruct Hidx; [left|right]; lia. }
  now rewrite Hguard.
Qed.

(** C3, as the code has it: an index outside [0, 5] given to v1
    [apply_preset], directly or through [fx_set_param] with key "preset",
    is clamped to the nearest index in [0, 5] and that preset is applied;
    given to v2 [v2_apply_preset] or to [v2_set_param] with key "preset" it
    is rejected and the instance stays as it is. *)
Theorem C3_preset_index_amended (g : psxverb_instance_t F) (idx : Z)
    (val : string) :
  idx < 0 \/ 5 < idx ->
  atoi val = idx ->
  (apply_preset idx g = apply_preset (clamp_index idx) g
   /\ preset_idx (apply_preset idx g) = clamp_index idx
   /\ base (apply_preset idx g) = scale_preset (preset_at (clamp_index idx))
   /\ fx_set_param g "preset" val = apply_preset (clamp_index idx) g)
  /\ (v2_apply_preset g idx = g
      /\ v2_set_param g "preset" val = g).
Proof.
  intros Hidx Hval. split.
  - split; [apply apply_preset_clamps|].
    split; [apply apply_preset_selects|].
    split; [apply apply_preset_selects|].
    unfold fx_set_param.
    change (key_is "preset" "preset") with true. cbv iota zeta.
    rewrite Hval. apply apply_preset_clamps.
  - split.
    + now apply v2_apply_preset_out_of_range.
    + apply v2_set_param_preset_out_of_range. now rewrite Hval.
Qed.

(** C10: a "preset" value that converts to an index outside [0, 5] leaves
    the whole v2 instance as it was: preset index, [base] and [current],
    Work Area and cursor, halfband histories and controls. *)
Theorem C10_v2_preset_out_of_range_ignored (inst : psxverb_instance_t F)
    (val : string) :
  atoi val < 0 \/ 5 < atoi val ->
  v2_set_param inst "preset" val = inst.
Proof. apply v2_set_param_preset_out_of_range. Qed.

End PresetSelection.

(** C3 at a freshly created v2 instance (and the same state taken as the
    v1 globals), index 7 given as the text "7". *)
Lemma C3_preset_index_amended_witness :
  let g : psxverb_instance_t Q := v2_create_instance in
  (7 < 0 \/ 5 < 7) /\ atoi "7" = 7 /\
  (apply_preset 7 g = apply_preset (clamp_index 7) g
   /\ preset_idx (apply_preset 7 g) = clamp_index 7
   /\ base (apply_preset 7 g) = scale_preset (preset_at (clamp_index 7))
   /\ fx_set_param g "preset" "7" = apply_preset (clamp_index 7) g)
  /\ (v2_apply_preset g 7 = g
      /\ v2_set_param g "preset" "7" = g).
Proof.
  intros g.
  assert (Hidx : 7 < 0 \/ 5 < 7) by (right; lia).
  assert (Hval : atoi "7" = 7) by reflexivity.
  split; [exact Hidx|]. split; [exact Hval|].
  exact (C3_preset_index_amended g 7 "7" Hidx Hval).
Defined.

(** C3 fails on v2 as stated: on a freshly created instance (preset 4)
    the text "7" does not select the nearest preset 5; the instance keeps
    preset 4. *)
Lemma C3_v2_counterexample :
  let inst : psxverb_instance_t Q := v2_create_instance in
  ~ (v2_set_param inst "preset" "7" = v2_apply_preset inst (clamp_index 7))
  /\ preset_idx (v2_set_param inst "preset" "7") = 4.
Proof.
  intros inst. split.
  - intros Heq. apply (f_equal preset_idx) in Heq.
    vm_compute in Heq. discriminate.
  - vm_compute. reflexivity.
Qed.

(** C10 at a freshly created v2 instance, with the text "-3". *)
Lemma C10_v2_preset_out_of_range_ignored_witness :
  let inst : psxverb_instance_t Q := v2_create_instance in
  (atoi "-3" < 0 \/ 5 < atoi "-3") /\
  v2_set_param inst "preset" "-3" = inst.
Proof.
  intros inst.
  assert (Hidx : atoi "-3" < 0 \/ 5 < atoi "-3") by (left; vm_compute; reflexivity).
  split; [exact Hidx|].
  exact (C10_v2_preset_out_of_range_ignored inst "-3" Hidx).
Defined.

(** ** Control changes *)

(** Decide the [strcmp] tests of a dispatch on a literal key. *)
Ltac decide_keys :=
  repeat match goal with
         | |- context [key_is ?a ?b] =>
             let r := eval vm_compute in (key_is a b) in
             change (key_is a b) with r
         end;
  cbv iota.

Section ControlChanges.
Context {F : Type} `{FloatOps F}.

Lemma v2_set_param_decay (inst : psxverb_instance_t F) (val : string) :
  let inst' := v2_set_param inst "decay" val in
  engine_untouched inst inst'
  /\ current inst' =
     set_vWALL_f (vWALL_f (base inst) *. decay inst') (current inst)
  /\ decay inst' = clamp_f (atof val) (f_lit 0) (f_lit 1)
  /\ mix inst' = mix inst /\ input_gain inst' = input_gain inst
  /\ reverb_level inst' = reverb_level inst.
Proof.
  unfold v2_set_param. decide_keys. unfold engine_untouched.
  cbv zeta. repeat split; reflexivity.
Qed.

Lemma v2_set_param_mix (inst : psxverb_instance_t F) (val : string) :
  let inst' := v2_set_param inst "mix" val in
  engine_untouched inst inst'
  /\ current inst' = current inst
  /\ mix inst' = clamp_f (atof val) (f_lit 0) (f_lit 1)
  /\ decay inst' = decay inst /\ input_gain inst' = input_gain inst
  /\ reverb_level inst' = reverb_level inst.
Proof.
  unfold v2_set_param. decide_keys. unfold engine_untouched.
  cbv zeta. repeat split; reflexivity.
Qed.

Lemma v2_set_param_input_gain (inst : psxverb_instance_t F) (val : string) :
  let inst' := v2_set_param inst "input_gain" val in
  engine_untouched inst inst'
  /\ current inst' =
     set_vIN_f (vLIN_f (base inst) *. (input_gain inst' *. f_lit 2))
       (vRIN_f (base inst) *. (input_gain inst' *. f_lit 2)) (current inst)
  /\ input_gain inst' = clamp_f (atof val) (f_lit 0) (f_lit 1)
  /\ decay inst' = decay inst /\ mix inst' = mix inst
  /\ reverb_level inst' = reverb_level inst.
Proof.
  unfold v2_set_param. decide_keys. unfold engine_untouched.
  cbv zeta. repeat split; reflexivity.
Qed.

Lemma v2_set_param_reverb_level (inst : psxverb_instance_t F) (val : string) :
  let inst' := v2_set_param inst "reverb_level" val in
  engine_untouched inst inst'
  /\ current inst' =
     set_vOUT_f (vLOUT_f (base inst) *. (reverb_level inst' *. f_lit 4))
       (vROUT_f (base inst) *. (reverb_level inst' *. f_lit 4)) (current inst)
  /\ reverb_level inst' = clamp_f (atof val) (f_lit 0) (f_lit 1)
  /\ decay inst' = decay inst /\ mix inst' = mix inst
  /\ input_gain inst' = input_gain inst.
Proof.
  unfold v2_set_param. decide_keys. unfold engine_untouched.
  cbv zeta. repeat split; reflexivity.
Qed.

(** The same for v1 [fx_set_param]; there the reverb level is the key
    "level", and "reverb_level" is not a key at all. *)
Lemma fx_set_param_controls (g : psxverb_instance_t F) (val : string) :
  (let g' := fx_set_param g "decay" val in
   engine_untouched g g'
   /\ exists wall, current g' = set_vWALL_f wall (current g))
  /\ (let g' := fx_set_param g "mix" val in
      engine_untouched g g' /\ current g' = current g)
  /\ (let g' := fx_set_param g "input_gain" val in
      engine_untouched g g'
      /\ current g' =
         set_vIN_f (vLIN_f (base g) *. (input_gain g' *. f_lit 2))
           (vRIN_f (base g) *. (input_gain g' *. f_lit 2)) (current g))
  /\ (let g' := fx_set_param g "level" val in
      engine_untouched g g'
      /\ current g' =
         set_vOUT_f (vLOUT_f (base g) *. (reverb_level g' *. f_lit 4))
           (vROUT_f (base g) *. (reverb_level g' *. f_lit 4)) (current g))
  /\ fx_set_param g "reverb_level" val = g.
Proof.
  unfold fx_set_param. decide_keys. unfold engine_untouched. cbv zeta.
  repeat split; try reflexivity.
  eexists. reflexivity.
Qed.

(** C9: a [set_param] on one of the control keys decay, mix, input_gain,
    reverb_level recomputes in [current] only the coefficients that depend
    on that control ([vWALL] for decay, none for mix, [vLIN]/[vRIN] for
    input_gain, [vLOUT]/[vROUT] for reverb_level) and leaves every field of
    [base] as it was, in v2 and in v1 (where the reverb level is the key
    "level" and "reverb_level" is ignored). *)
Theorem C9_control_change_keeps_base (s : psxverb_instance_t F)
    (val : string) :
  (base (v2_set_param s "decay" val) = base s
   /\ current (v2_set_param s "decay" val) =
      set_vWALL_f
        (vWALL_f (base s) *. clamp_f (atof val) (f_lit 0) (f_lit 1))
        (current s))
  /\ (base (v2_set_param s "mix" val) = base s
      /\ current (v2_set_param s "mix" val) = current s)
  /\ (base (v2_set_param s "input_gain" val) = base s
      /\ exists lin rin,
           current (v2_set_param s "input_gain" val) =
           set_vIN_f lin rin (current s))
  /\ (base (v2_set_param s "reverb_level" val) = base s
      /\ exists lout rout,
           current (v2_set_param s "reverb_level" val) =
           set_vOUT_f lout rout (current s))
  /\ (base (fx_set_param s "decay" val) = base s
      /\ exists wall,
           current (fx_set_param s "decay" val) = set_vWALL_f wall (current s))
  /\ (base (fx_set_param s "mix" val) = base s
      /\ current (fx_set_param s "mix" val) = current s)
  /\ (base (fx_set_param s "input_gain" val) = base s
      /\ exists lin rin,
           current (fx_set_param s "input_gain" val) =
           set_vIN_f lin rin (current s))
  /\ (base (fx_set_param s "level" val) = base s
      /\ exists lout rout,
           current (fx_set_param s "level" val) =
           set_vOUT_f lout rout (current s))
  /\ (base (fx_set_param s "reverb_level" val) = base s
      /\ current (fx_set_param s "reverb_level" val) = current s).
Proof.
  unfold v2_set_param, fx_set_param. decide_keys. cbv zeta.
  repeat split; try reflexivity; repeat eexists; reflexivity.
Qed.

End ControlChanges.

(** ** The block loop *)

Section BlockLoop.
Context {F : Type} `{FloatOps F}.

Lemma pairs_count_step (frames i : Z) :
  i + 1 < frames ->
  Z.to_nat ((frames - i) / 2) = S (Z.to_nat ((frames - (i + 2)) / 2)).
Proof.
  intros Hlt.
  assert (Hdiv : (frames - i) / 2 = (frames - (i + 2)) / 2 + 1).
  { replace (frames - i) with ((frames - (i + 2)) + 1 * 2) by lia.
    rewrite Z.div_add by lia. lia. }
  assert (0 <= (frames - (i + 2)) / 2) by (apply Z.div_pos; lia).
  lia.
Qed.

Lemma pairs_count_done (frames i : Z) :
  frames <= i + 1 -> Z.to_nat ((frames - i) / 2) = O.
Proof.
  intros Hge.
  assert ((frames - i) / 2 < 1).
  { apply Z.div_lt_upper_bound; lia. }
  lia.
Qed.

(** The loop, given fuel for every pair that is left, runs the body on
    exactly the pairs [i], [i + 2], ... whose second frame is below
    [frames]. *)
Lemma process_loop_pairs (final_clamp : F -> F) (frames : Z) (fuel : nat) :
  forall (i : Z) (inst : psxverb_instance_t F) (audio : list Z),
    (frames - i) / 2 <= Z.of_nat fuel ->
    process_loop fuel final_clamp frames i inst audio =
    process_pairs final_clamp
      (pairs_from (Z.to_nat ((frames - i) / 2)) i) (inst, audio).
Proof.
  induction fuel as [|fuel IH]; intros i inst audio Hfuel.
  - replace (Z.to_nat ((frames - i) / 2)) with O by lia. reflexivity.
  - cbn [process_loop].
    destruct (i <? frames) eqn:Hlt.
    + destruct (i + 1 >=? frames) eqn:Hbreak.
      * rewrite pairs_count_done by lia. reflexivity.
      * rewrite pairs_count_step by lia.
        cbn [pairs_from process_pairs fold_left fst snd].
        destruct (process_pair final_clamp inst audio i) as [inst' audio'].
        rewrite IH.
        -- reflexivity.
        -- pose proof (pairs_count_step frames i ltac:(lia)). lia.
    + rewrite pairs_count_done by lia. reflexivity.
Qed.

(** More fuel than that changes nothing. *)
Lemma process_loop_fuel (final_clamp : F -> F) (frames : Z) (fuel fuel' : nat)
    (i : Z) (inst : psxverb_instance_t F) (audio : list Z) :
  (frames - i) / 2 <= Z.of_nat fuel ->
  (fuel <= fuel')%nat ->
  process_loop fuel' final_clamp frames i inst audio =
  process_loop fuel final_clamp frames i inst audio.
Proof.
  intros Hfuel Hle. rewrite !process_loop_pairs by lia. reflexivity.
Qed.

Lemma frames_fuel (frames : Z) : (frames - 0) / 2 <= Z.of_nat (Z.to_nat frames).
Proof.
  rewrite Z.sub_0_r.
  destruct (Z.le_gt_cases 0 frames) as [Hpos|Hneg].
  - rewrite Z2Nat.id by assumption.
    apply Z.div_le_upper_bound; lia.
  - assert (frames / 2 <= 0) by (apply Z.div_le_upper_bound; lia). lia.
Qed.

Lemma fx_process_block_pairs (g : psxverb_instance_t F) (audio : list Z)
    (frames : Z) :
  fx_process_block g audio frames =
  process_pairs clamp_unit_v1 (pairs_from (Z.to_nat (frames / 2)) 0) (g, audio).
Proof.
  unfold fx_process_block.
  rewrite process_loop_pairs by apply frames_fuel.
  now rewrite Z.sub_0_r.
Qed.

Lemma v2_process_block_pairs (inst : psxverb_instance_t F) (audio : list Z)
    (frames : Z) :
  v2_process_block inst audio frames =
  process_pairs clamp_unit_v2 (pairs_from (Z.to_nat (frames / 2)) 0)
    (inst, audio).
Proof.
  unfold v2_process_block.
  rewrite process_loop_pairs by apply frames_fuel.
  now rewrite Z.sub_0_r.
Qed.

(** The body for the pair at [i] writes the four samples of its two frames
    and nothing from sample [2 * (i + 2)] on. *)
Lemma process_pair_tail (final_clamp : F -> F) (inst : psxverb_instance_t F)
    (audio : list Z) (i : Z) (n : nat) :
  0 <= i -> 2 * (i + 2) <= Z.of_nat n ->
  drop n (snd (process_pair final_clamp inst audio i)) = drop n audio.
Proof.
  intros Hi Hn. unfold process_pair. cbv zeta.
  destruct (halfband_decimate (down_l inst) _ _) as [down_l' dl].
  destruct (halfband_decimate (down_r inst) _ _) as [down_r' dr].
  destruct (reverb_tick _ _ _ _) as [w [Lout Rout]].
  destruct (halfband_interpolate (up_l inst) _) as [up_l' [out_l0 out_l1]].
  destruct (halfband_interpolate (up_r inst) _) as [up_r' [out_r0 out_r1]].
  cbn [snd]. unfold array_set.
  repeat match goal with
         | |- context [?x <? 0] => destruct (x <? 0) eqn:?; [lia|]
         end.
  rewrite !drop_insert_lt by lia. reflexivity.
Qed.

Lemma drop_eq_further {A : Type} (l l' : list A) (n m : nat) :
  (n <= m)%nat -> drop n l = drop n l' -> drop m l = drop m l'.
Proof.
  intros Hle Heq.
  replace m with (n + (m - n))%nat by lia.
  rewrite <- !drop_drop. now rewrite Heq.
Qed.

Lemma process_pairs_tail (final_clamp : F -> F) (n : nat) (m : nat) :
  forall (i : Z) (inst : psxverb_instance_t F) (audio : list Z),
    0 <= i -> 2 * (i + 2 * Z.of_nat m) <= Z.of_nat n ->
    drop n (snd (process_pairs final_clamp (pairs_from m i) (inst, audio)))
    = drop n audio.
Proof.
  induction m as [|m IH]; intros i inst audio Hi Hn.
  - reflexivity.
  - cbn [pairs_from process_pairs fold_left fst snd].
    pose proof (process_pair_tail final_clamp inst audio i n Hi ltac:(lia))
      as Hpair.
    destruct (process_pair final_clamp inst audio i) as [inst' audio'].
    cbn [snd] in Hpair. rewrite <- Hpair.
    apply (IH (i + 2) inst' audio'); lia.
Qed.

(** An odd frame count takes as many pairs as the even count below it. *)
Lemma odd_frames_pairs (n : Z) :
  0 < n -> Z.odd n = true -> n / 2 = (n - 1) / 2 /\ 2 * (n / 2) = n - 1.
Proof.
  intros Hpos Hodd.
  pose proof (Z.div_mod n 2 ltac:(lia)) as Hdm.
  rewrite Zmod_odd, Hodd in Hdm.
  assert (Hhalf : (n - 1) / 2 = n / 2).
  { replace (n - 1) with (n / 2 * 2) by lia. apply Z.div_mul. lia. }
  lia.
Qed.

(** C8: on a block with an odd frame count [n] the block functions do
    what they do on its first [n - 1] frames (each of the [(n - 1) / 2]
    pairs goes through the loop body once, in order); state and buffer
    come out as for [n - 1] frames, so no state is advanced for the last
    frame, and the last frame's samples stay as they were.  For [n = 1]
    block and state are unchanged.  This holds for v1 [fx_process_block]
    and v2 [v2_process_block]. *)
Theorem C8_odd_block_leaves_last_frame (s : psxverb_instance_t F)
    (audio : list Z) (n : Z) :
  0 < n -> Z.odd n = true ->
  length audio = Z.to_nat (2 * n) ->
  let last := Z.to_nat (2 * (n - 1)) in
  let pairs := pairs_from (Z.to_nat ((n - 1) / 2)) 0 in
  (fx_process_block s audio n = fx_process_block s audio (n - 1)
   /\ fx_process_block s audio n = process_pairs clamp_unit_v1 pairs (s, audio)
   /\ drop last (snd (fx_process_block s audio n)) = drop last audio)
  /\ (v2_process_block s audio n = v2_process_block s audio (n - 1)
      /\ v2_process_block s audio n
         = process_pairs clamp_unit_v2 pairs (s, audio)
      /\ drop last (snd (v2_process_block s audio n)) = drop last audio)
  /\ fx_process_block s audio 1 = (s, audio)
  /\ v2_process_block s audio 1 = (s, audio).
Proof.
  intros Hpos Hodd Hlen. cbv zeta.
  destruct (odd_frames_pairs n Hpos Hodd) as [Hhalf Hpairs].
  rewrite !fx_process_block_pairs, !v2_process_block_pairs.
  rewrite <- Hhalf.
  repeat split; try reflexivity.
  - apply process_pairs_tail; lia.
  - apply process_pairs_tail; lia.
Qed.

End BlockLoop.

(** C8 on a freshly created instance and a block of three frames. *)
Lemma C8_odd_block_leaves_last_frame_witness :
  let s : psxverb_instance_t Q := v2_create_instance in
  let audio := [1000; -2000; 3000; 4000; 5; 6] in
  0 < 3 /\ Z.odd 3 = true /\ length audio = Z.to_nat (2 * 3) /\
  let last := Z.to_nat (2 * (3 - 1)) in
  let pairs := pairs_from (Z.to_nat ((3 - 1) / 2)) 0 in
  (fx_process_block s audio 3 = fx_process_block s audio (3 - 1)
   /\ fx_process_block s audio 3 = process_pairs clamp_unit_v1 pairs (s, audio)
   /\ drop last (snd (fx_process_block s audio 3)) = drop last audio)
  /\ (v2_process_block s audio 3 = v2_process_block s audio (3 - 1)
      /\ v2_process_block s audio 3
         = process_pairs clamp_unit_v2 pairs (s, audio)
      /\ drop last (snd (v2_process_block s audio 3)) = drop last audio)
  /\ fx_process_block s audio 1 = (s, audio)
  /\ v2_process_block s audio 1 = (s, audio).
Proof.
  intros s audio.
  assert (Hpos : 0 < 3) by lia.
  assert (Hodd : Z.odd 3 = true) by reflexivity.
  assert (Hlen : length audio = Z.to_nat (2 * 3)) by reflexivity.
  split; [exact Hpos|]. split; [exact Hodd|]. split; [exact Hlen|].
  exact (C8_odd_block_leaves_last_frame s audio 3 Hpos Hodd Hlen).
Defined.

(** ** State snapshot *)

Lemma num_char_facts (c : ascii) :
  is_num_char c = true ->
  c <> dquote /\ Ascii.eqb c " " = false /\ is_space c = false
  /\ Ascii.eqb c "-" = false /\ Ascii.eqb c "+" = false.
Proof.
  destruct c as [[] [] [] [] [] [] [] []]; vm_compute; intros Hc;
    try discriminate Hc; repeat split; discriminate.
Qed.

Lemma digit_is_num_char (c : ascii) : is_digit c = true -> is_num_char c = true.
Proof. intros Hc. unfold is_num_char. now rewrite Hc. Qed.

Lemma digit_char_cases (x : Z) (P : ascii -> Prop) :
  0 <= x <= 9 ->
  P "0"%char -> P "1"%char -> P "2"%char -> P "3"%char -> P "4"%char ->
  P "5"%char -> P "6"%char -> P "7"%char -> P "8"%char -> P "9"%char ->
  P (digit_char x).
Proof.
  intros Hx.
  assert (Hc : x = 0 \/ x = 1 \/ x = 2 \/ x = 3 \/ x = 4 \/ x = 5 \/ x = 6
               \/ x = 7 \/ x = 8 \/ x = 9) by lia.
  intros; repeat (destruct Hc as [-> | Hc]; [assumption|]); subst; assumption.
Qed.

Lemma digit_char_is_digit (x : Z) : 0 <= x <= 9 -> is_digit (digit_char x) = true.
Proof. intros Hx. apply (digit_char_cases x); [exact Hx|reflexivity..]. Qed.

Lemma digit_char_val (x : Z) : 0 <= x <= 9 -> digit_val (digit_char x) = x.
Proof.
  intros Hx.
  assert (Hc : x = 0 \/ x = 1 \/ x = 2 \/ x = 3 \/ x = 4 \/ x = 5 \/ x = 6
               \/ x = 7 \/ x = 8 \/ x = 9) by lia.
  repeat (destruct Hc as [-> | Hc]; [reflexivity|]); subst; reflexivity.
Qed.

(** *** Searching *)

Lemma strstr_here (h needle : string) :
  String.prefix needle h = true -> strstr h needle = Some h.
Proof. intros Hp. destruct h; cbn [strstr]; now rewrite Hp. Qed.

Lemma strstr_skip1 (c a : ascii) (s nt : string) :
  c <> a -> strstr (String c s) (String a nt) = strstr s (String a nt).
Proof.
  intros Hne. cbn [strstr String.prefix].
  destruct (ascii_dec a c) as [Heq|_]; [congruence|reflexivity].
Qed.

Lemma strstr_skip2 (c1 c2 a1 a2 : ascii) (s nt : string) :
  c2 <> a2 ->
  strstr (String c1 (String c2 s)) (String a1 (String a2 nt))
  = strstr (String c2 s) (String a1 (String a2 nt)).
Proof.
  intros Hne.
  change (strstr (String c1 (String c2 s)) (String a1 (String a2 nt)))
    with (if String.prefix (String a1 (String a2 nt)) (String c1 (String c2 s))
          then Some (String c1 (String c2 s))
          else strstr (String c2 s) (String a1 (String a2 nt))).
  cbn [String.prefix].
  destruct (ascii_dec a1 c1) as [_|_]; [|reflexivity].
  destruct (ascii_dec a2 c2) as [Heq|_]; [congruence|reflexivity].
Qed.

Lemma strstr_skip_num (s rest nt : string) :
  num_text s = true ->
  strstr (s ++ rest) (String dquote nt) = strstr rest (String dquote nt).
Proof.
  induction s as [|c s IH]; intros Hs.
  - reflexivity.
  - cbn [num_text] in Hs. apply andb_true_iff in Hs as [Hc Hs].
    cbn [append]. rewrite strstr_skip1 by apply (num_char_facts c Hc).
    now apply IH.
Qed.

(** Evaluate the literal texts of a goal. *)
Ltac eval_literals :=
  repeat match goal with
         | |- context [json_text ?l] =>
             let v := eval vm_compute in (json_text l) in
             change (json_text l) with v
         | |- context [snprintf_buf ?n ?l] =>
             let v := eval vm_compute in (snprintf_buf n l) in
             change (snprintf_buf n l) with v
         end.

Section StateText.
Context {F : Type} `{FloatOps F}.

Lemma json_get_number_state (pc dc mc gc rc : ascii) (ps ds ms gs rs : string) :
  is_num_char pc = true -> num_text ps = true ->
  is_num_char dc = true -> num_text ds = true ->
  is_num_char mc = true -> num_text ms = true ->
  is_num_char gc = true -> num_text gs = true ->
  is_num_char rc = true -> num_text rs = true ->
  let X := state_text (String pc ps) (String dc ds) (String mc ms)
             (String gc gs) (String rc rs) in
  json_get_number X "preset"
    = Some (atof (String pc ps ++ json_text ",'decay':" ++ String dc ds ++
              json_text ",'mix':" ++ String mc ms ++
              json_text ",'input_gain':" ++ String gc gs ++
              json_text ",'reverb_level':" ++ String rc rs ++ "}"))
  /\ json_get_number X "decay"
    = Some (atof (String dc ds ++
              json_text ",'mix':" ++ String mc ms ++
              json_text ",'input_gain':" ++ String gc gs ++
              json_text ",'reverb_level':" ++ String rc rs ++ "}"))
  /\ json_get_number X "mix"
    = Some (atof (String mc ms ++
              json_text ",'input_gain':" ++ String gc gs ++
              json_text ",'reverb_level':" ++ String rc rs ++ "}"))
  /\ json_get_number X "input_gain"
    = Some (atof (String gc gs ++
              json_text ",'reverb_level':" ++ String rc rs ++ "}"))
  /\ json_get_number X "reverb_level"
    = Some (atof (String rc rs ++ "}")).
Proof.
  intros Hpc Hps Hdc Hds Hmc Hms Hgc Hgs Hrc Hrs X. subst X.
  unfold state_text, json_get_number.
  eval_literals. cbn [append].
  (* walk [strstr] along the text until the key is found, then step over
     the key *)
  repeat split;
    repeat first
      [ rewrite strstr_here by reflexivity
      | rewrite strstr_skip1 by discriminate
      | rewrite strstr_skip2 by discriminate
      | rewrite strstr_skip1 by (apply num_char_facts; assumption)
      | rewrite strstr_skip_num by assumption ];
    cbn [String.length str_skip skip_blanks];
    match goal with
    | |- context [Ascii.eqb ?c " "] =>
        rewrite (proj1 (proj2 (num_char_facts c ltac:(assumption))))
    end;
    reflexivity.
Qed.
End StateText.

(** *** Reading numbers *)

Lemma skip_space_num (c : ascii) (s : string) :
  is_num_char c = true -> skip_space (String c s) = String c s.
Proof.
  intros Hc. cbn [skip_space].
  destruct (num_char_facts c Hc) as (_ & _ & -> & _). reflexivity.
Qed.

Lemma scan_sign_num (c : ascii) (s : string) :
  is_num_char c = true -> scan_sign (String c s) = (false, String c s).
Proof.
  intros Hc. cbn [scan_sign].
  destruct (num_char_facts c Hc) as (_ & _ & _ & -> & ->). reflexivity.
Qed.

Lemma scan_digits_digit (c : ascii) (s : string) (acc : Z) (n : nat) :
  is_digit c = true ->
  scan_digits (String c s) acc n = scan_digits s (acc * 10 + digit_val c) (S n).
Proof. intros Hc. cbn [scan_digits]. now rewrite Hc. Qed.

(** The text [d.dddd] followed by a comma or a closing brace reads as the
    number of ten-thousandths its digits spell. *)
Lemma Q_atof_fixed4 (c0 c1 c2 c3 c4 t : ascii) (rest : string) :
  is_digit c0 = true -> is_digit c1 = true -> is_digit c2 = true ->
  is_digit c3 = true -> is_digit c4 = true ->
  t = ","%char \/ t = "}"%char ->
  Q_atof (String c0 (String "." (String c1 (String c2 (String c3
            (String c4 (String t rest)))))))
  = Qmake ((((((0 * 10 + digit_val c0) * 10 + digit_val c1) * 10
               + digit_val c2) * 10 + digit_val c3) * 10 + digit_val c4) * 1)
      10000.
Proof.
  intros H0 H1 H2 H3 H4 Ht. unfold Q_atof.
  rewrite skip_space_num, scan_sign_num by now apply digit_is_num_char.
  rewrite scan_digits_digit by assumption.
  cbn [scan_digits is_digit nat_of_ascii].
  change (is_digit ".") with false. cbv iota.
  change (Ascii.eqb "." ".") with true. cbv iota.
  rewrite !scan_digits_digit by assumption.
  destruct Ht as [-> | ->]; reflexivity.
Qed.

(** A single digit followed by a comma reads as that digit. *)
Lemma Q_atof_digit (c : ascii) (rest : string) :
  is_digit c = true ->
  (Q_atof (String c (String "," rest)) == inject_Z (digit_val c))%Q.
Proof.
  intros Hc. unfold Q_atof.
  rewrite skip_space_num, scan_sign_num by now apply digit_is_num_char.
  rewrite scan_digits_digit by assumption.
  cbn [scan_digits]. change (is_digit ",") with false. cbv iota.
  change (Ascii.eqb "," ".") with false. cbv iota.
  cbn -[Z.mul Z.add Z.quot Z.pow digit_val].
  unfold Qeq. cbn [Qmult inject_Z Qnum Qden Pos.mul]. lia.
Qed.

(** *** Printing numbers *)

Lemma fmt_int_digit (p : Z) :
  0 <= p <= 9 -> fmt_int p = String (digit_char p) EmptyString.
Proof.
  intros Hp.
  assert (Hc : p = 0 \/ p = 1 \/ p = 2 \/ p = 3 \/ p = 4 \/ p = 5 \/ p = 6
               \/ p = 7 \/ p = 8 \/ p = 9) by lia.
  repeat (destruct Hc as [-> | Hc]; [reflexivity|]); subst; reflexivity.
Qed.

(** A number of ten-thousandths in [0, 1] prints as [d.dddd]. *)
Lemma Q_fmt_fixed_4 (k : Z) :
  0 <= k <= 10000 ->
  Q_fmt_fixed 4 (k # 10000) =
  String (digit_char (k / 10000))
    (String "."
       (String (digit_char (k mod 10000 / 10 / 10 / 10 mod 10))
          (String (digit_char (k mod 10000 / 10 / 10 mod 10))
             (String (digit_char (k mod 10000 / 10 mod 10))
                (String (digit_char (k mod 10000 mod 10)) EmptyString))))).
Proof.
  intros Hk. unfold Q_fmt_fixed. cbn [Qnum Qden Nat.eqb].
  change (10 ^ Z.of_nat 4) with 10000.
  rewrite Z.abs_eq by lia.
  rewrite Z.div_mul, Z.mod_mul by lia.
  change (2 * 0 <? 10000) with true. cbv iota zeta.
  assert (Hneg : (k <? 0) = false) by lia. rewrite Hneg.
  assert (Hq : k / 10000 = 0 \/ k / 10000 = 1).
  { Z.to_euclidean_division_equations. lia. }
  cbn [fmt_pad append].
  destruct Hq as [-> | ->]; reflexivity.
Qed.

(** Printing with four decimals depends on the value only, for a number
    of ten-thousandths. *)
Lemma Q_fmt_fixed_4_Qeq (x : Q) (k : Z) :
  (x == k # 10000)%Q -> 0 <= k ->
  Q_fmt_fixed 4 x = Q_fmt_fixed 4 (k # 10000).
Proof.
  intros Hx Hk. unfold Qeq in Hx. cbn [Qnum Qden] in Hx.
  destruct x as [n d]. cbn [Qnum Qden] in Hx.
  assert (Hn : 0 <= n) by nia.
  unfold Q_fmt_fixed. cbn [Qnum Qden Nat.eqb].
  change (10 ^ Z.of_nat 4) with 10000.
  rewrite !Z.abs_eq by lia.
  rewrite Hx, !Z.div_mul, !Z.mod_mul by lia.
  assert (H1 : (2 * 0 <? Z.pos d) = true) by lia.
  rewrite H1. change (2 * 0 <? 10000) with true. cbv iota zeta.
  assert (H2 : (n <? 0) = false) by lia.
  assert (H3 : (k <? 0) = false) by lia.
  rewrite H2, H3. reflexivity.
Qed.

(** *** Restoring and saving *)

Lemma substring_whole (s : string) (n : nat) :
  (String.length s <= n)%nat -> String.substring 0 n s = s.
Proof.
  revert n. induction s as [|c s IH]; intros n Hn.
  - destruct n; reflexivity.
  - destruct n as [|n]; cbn in Hn; [lia|].
    cbn [String.substring]. rewrite IH by lia. reflexivity.
Qed.

Lemma clamp_f_inside (v lo hi : Q) :
  (lo <= v)%Q -> (v <= hi)%Q -> clamp_f v lo hi = v.
Proof.
  intros Hlo Hhi. unfold clamp_f. cbn [f_lt Q_float].
  assert (H1 : Q_ltb v lo = false) by now apply Q_ltb_ge.
  assert (H2 : Q_ltb hi v = false) by now apply Q_ltb_ge.
  now rewrite H1, H2.
Qed.

Section Restore.
Context {F : Type} `{FloatOps F}.

(** What [v2_set_param] with key "state" leaves in the instance when the
    text holds all five numbers and a preset index in [0, 5]. *)
Lemma v2_set_state_controls (inst : psxverb_instance_t F) (X : string)
    (vp vd vm vg vr : F) :
  json_get_number X "preset" = Some vp ->
  json_get_number X "decay" = Some vd ->
  json_get_number X "mix" = Some vm ->
  json_get_number X "input_gain" = Some vg ->
  json_get_number X "reverb_level" = Some vr ->
  0 <= f_to_int vp <= 5 ->
  let inst' := v2_set_param inst "state" X in
  preset_idx inst' = f_to_int vp
  /\ decay inst' = clamp_f vd (f_lit 0) (f_lit 1)
  /\ mix inst' = clamp_f vm (f_lit 0) (f_lit 1)
  /\ input_gain inst' = clamp_f vg (f_lit 0) (f_lit 1)
  /\ reverb_level inst' = clamp_f vr (f_lit 0) (f_lit 1).
Proof.
  intros Hp Hd Hm Hg Hr Hidx.
  unfold v2_set_param. decide_keys. unfold v2_set_state.
  rewrite Hp, Hd, Hm, Hg, Hr. cbv zeta.
  assert (Hlo : (f_to_int vp >=? 0) = true) by lia.
  assert (Hhi : (f_to_int vp <? 6) = true) by lia.
  rewrite Hlo, Hhi. cbn [andb].
  destruct (f_to_int vp =? preset_idx inst) eqn:Hsame; cbn [negb].
  - apply Z.eqb_eq in Hsame. repeat split; try reflexivity.
    cbn. now symmetry.
  - unfold v2_apply_preset.
    cbn [preset_idx set_preset_idx set_decay set_mix set_input_gain
         set_reverb_level].
    assert (Hguard : (f_to_int vp <? 0) || (f_to_int vp >=? 6) = false).
    { apply orb_false_iff. split; lia. }
    rewrite Hguard. repeat split; reflexivity.
Qed.

End Restore.

(** The five numbers [json_get_number] finds in a snapshot of a preset
    index in [0, 9] and four controls in [0, 1]. *)
Lemma fmt_state_numbers (p kd km kg kr : Z) :
  0 <= p <= 9 ->
  0 <= kd <= 10000 -> 0 <= km <= 10000 ->
  0 <= kg <= 10000 -> 0 <= kr <= 10000 ->
  let Y := fmt_state p (kd # 10000) (km # 10000) (kg # 10000) (kr # 10000) in
  (exists vp : Q, json_get_number Y "preset" = Some vp
                  /\ (vp == inject_Z p)%Q)
  /\ json_get_number Y "decay" = Some (kd # 10000)
  /\ json_get_number Y "mix" = Some (km # 10000)
  /\ json_get_number Y "input_gain" = Some (kg # 10000)
  /\ json_get_number Y "reverb_level" = Some (kr # 10000).
Proof.
  intros Hp Hkd Hkm Hkg Hkr Y.
  (* the shape of the text *)
  assert (HY : Y = state_text (fmt_int p) (Q_fmt_fixed 4 (kd # 10000))
                 (Q_fmt_fixed 4 (km # 10000)) (Q_fmt_fixed 4 (kg # 10000))
                 (Q_fmt_fixed 4 (kr # 10000))) by reflexivity.
  rewrite fmt_int_digit, !Q_fmt_fixed_4 in HY by lia.
  (* its digits *)
  assert (Hdig : forall k, 0 <= k <= 10000 ->
            0 <= k / 10000 <= 9 /\ 0 <= k mod 10000 / 10 / 10 / 10 mod 10 <= 9
            /\ 0 <= k mod 10000 / 10 / 10 mod 10 <= 9
            /\ 0 <= k mod 10000 / 10 mod 10 <= 9
            /\ 0 <= k mod 10000 mod 10 <= 9
            /\ (((((0 * 10 + k / 10000) * 10 + k mod 10000 / 10 / 10 / 10 mod 10)
                   * 10 + k mod 10000 / 10 / 10 mod 10) * 10
                 + k mod 10000 / 10 mod 10) * 10 + k mod 10000 mod 10) * 1 = k).
  { intros k Hk. Z.to_euclidean_division_equations. lia. }
  destruct (Hdig kd Hkd) as (Hd0 & Hd1 & Hd2 & Hd3 & Hd4 & Hdv).
  destruct (Hdig km Hkm) as (Hm0 & Hm1 & Hm2 & Hm3 & Hm4 & Hmv).
  destruct (Hdig kg Hkg) as (Hg0 & Hg1 & Hg2 & Hg3 & Hg4 & Hgv).
  destruct (Hdig kr Hkr) as (Hr0 & Hr1 & Hr2 & Hr3 & Hr4 & Hrv).
  clear Hdig.
  assert (Hnum : forall a b c d,
            0 <= a <= 9 -> 0 <= b <= 9 -> 0 <= c <= 9 -> 0 <= d <= 9 ->
            num_text (String "." (String (digit_char a) (String (digit_char b)
              (String (digit_char c) (String (digit_char d) EmptyString)))))
            = true).
  { intros a b c d Ha Hb Hc Hd. cbn [num_text]. unfold is_num_char.
    rewrite !digit_char_is_digit by assumption. reflexivity. }
  (* the five numbers read back *)
  pose proof (json_get_number_state (F:=Q)
    (digit_char p) (digit_char (kd / 10000)) (digit_char (km / 10000))
    (digit_char (kg / 10000)) (digit_char (kr / 10000)) EmptyString _ _ _ _
    ltac:(apply digit_is_num_char, digit_char_is_digit; lia) eq_refl
    ltac:(apply digit_is_num_char, digit_char_is_digit; lia)
    (Hnum _ _ _ _ Hd1 Hd2 Hd3 Hd4)
    ltac:(apply digit_is_num_char, digit_char_is_digit; lia)
    (Hnum _ _ _ _ Hm1 Hm2 Hm3 Hm4)
    ltac:(apply digit_is_num_char, digit_char_is_digit; lia)
    (Hnum _ _ _ _ Hg1 Hg2 Hg3 Hg4)
    ltac:(apply digit_is_num_char, digit_char_is_digit; lia)
    (Hnum _ _ _ _ Hr1 Hr2 Hr3 Hr4)) as Hget.
  cbv zeta in Hget. rewrite <- HY in Hget.
  destruct Hget as (Hgp & Hgd & Hgm & Hgg & Hgr).
  cbn [atof Q_float] in Hgp, Hgd, Hgm, Hgg, Hgr.
  change (json_text ",'decay':") with (String "," (json_text "'decay':"))
    in Hgp.
  change (json_text ",'mix':") with (String "," (json_text "'mix':")) in Hgd.
  change (json_text ",'input_gain':")
    with (String "," (json_text "'input_gain':")) in Hgm.
  change (json_text ",'reverb_level':")
    with (String "," (json_text "'reverb_level':")) in Hgg.
  cbn [append] in Hgp, Hgd, Hgm, Hgg, Hgr.
  rewrite Q_atof_fixed4 in Hgd, Hgm, Hgg, Hgr
    by (try apply digit_char_is_digit; auto).
  rewrite !digit_char_val in Hgd, Hgm, Hgg, Hgr by assumption.
  rewrite Hdv in Hgd. rewrite Hmv in Hgm. rewrite Hgv in Hgg.
  rewrite Hrv in Hgr.
  split; [|now repeat split].
  eexists. split; [exact Hgp|].
  rewrite Q_atof_digit by (apply digit_char_is_digit; lia).
  now rewrite digit_char_val by lia.
Qed.

(** The snapshot taken after a restore: when the five numbers found in
    the text are a whole preset number in [0, 5] and four whole numbers of
    ten-thousandths in [0, 1], [get_param] prints exactly these. *)
Lemma state_restore_snapshot (inst : psxverb_instance_t Q) (X : string)
    (vp vd vm vg vr : Q) (p kd km kg kr buf_len : Z) :
  json_get_number X "preset" = Some vp ->
  json_get_number X "decay" = Some vd ->
  json_get_number X "mix" = Some vm ->
  json_get_number X "input_gain" = Some vg ->
  json_get_number X "reverb_level" = Some vr ->
  (vp == inject_Z p)%Q -> 0 <= p <= 5 ->
  (vd == kd # 10000)%Q -> 0 <= kd <= 10000 ->
  (vm == km # 10000)%Q -> 0 <= km <= 10000 ->
  (vg == kg # 10000)%Q -> 0 <= kg <= 10000 ->
  (vr == kr # 10000)%Q -> 0 <= kr <= 10000 ->
  let Y := fmt_state p (kd # 10000) (km # 10000) (kg # 10000) (kr # 10000) in
  Z.of_nat (String.length Y) < buf_len ->
  v2_get_param (v2_set_param inst "state" X) "state" buf_len
  = (Z.of_nat (String.length Y), Some Y).
Proof.
  intros Hgp Hgd Hgm Hgg Hgr Hvp Hp Hvd Hkd Hvm Hkm Hvg Hkg Hvr Hkr Y Hlen.
  (* the restored instance *)
  assert (Hpv : f_to_int vp = p).
  { cbn [f_to_int Q_float].
    rewrite (Q_to_int_Qeq vp (inject_Z p) Hvp), Q_to_int_trunc,
      trunc_inject.
    lia. }
  destruct (v2_set_state_controls inst X _ _ _ _ _ Hgp Hgd Hgm Hgg Hgr
              ltac:(rewrite Hpv; lia)) as (Hip & Hid & Him & Hig & Hir).
  rewrite Hpv in Hip.
  assert (Hin : forall (v : Q) (k : Z),
            (v == k # 10000)%Q -> 0 <= k <= 10000 ->
            clamp_f v (f_lit 0) (f_lit 1) = v).
  { intros v k Hv Hk. apply clamp_f_inside; rewrite Hv;
      unfold Qle; cbn [f_lit Q_float Qnum Qden]; lia. }
  rewrite (Hin vd kd) in Hid by assumption.
  rewrite (Hin vm km) in Him by assumption.
  rewrite (Hin vg kg) in Hig by assumption.
  rewrite (Hin vr kr) in Hir by assumption.
  (* the snapshot taken from it *)
  assert (HY : fmt_state p vd vm vg vr = Y).
  { unfold Y, fmt_state. cbn [fmt_fixed Q_float].
    rewrite (Q_fmt_fixed_4_Qeq vd kd), (Q_fmt_fixed_4_Qeq vm km),
      (Q_fmt_fixed_4_Qeq vg kg), (Q_fmt_fixed_4_Qeq vr kr)
      by first [assumption | lia].
    reflexivity. }
  unfold v2_get_param.
  assert (Hbuf : (buf_len <=? 0) = false) by lia. rewrite Hbuf.
  decide_keys. rewrite Hip, Hid, Him, Hig, Hir, HY.
  unfold snprintf_ret, snprintf_buf.
  rewrite substring_whole by lia. reflexivity.
Qed.




(** * Further properties *)

(** ** [next_pow2] on every [uint32_t] *)

Lemma next_pow2_smear (v : Z) :
  next_pow2 v = wrap_u32 (smear32 (wrap_u32 (v - 1)) + 1).
Proof. reflexivity. Qed.

(** One step doubles the window of bits of [x] that bit [i] collects. *)
Lemma smear_step (x v k : Z) :
  0 <= k ->
  (forall i, 0 <= i ->
     Z.testbit v i = true <-> exists j, i <= j < i + k /\ Z.testbit x j = true) ->
  forall i, 0 <= i ->
    Z.testbit (Z.lor v (Z.shiftr v k)) i = true
    <-> exists j, i <= j < i + 2 * k /\ Z.testbit x j = true.
Proof.
  intros Hk Hv i Hi.
  rewrite Z.lor_spec, Z.shiftr_spec by assumption.
  rewrite orb_true_iff, (Hv i Hi), (Hv (i + k)) by lia.
  split.
  - intros [(j & Hj & Hb) | (j & Hj & Hb)]; exists j; split; auto; lia.
  - intros (j & Hj & Hb).
    destruct (Z.lt_ge_cases j (i + k)); [left|right]; exists j; split; auto; lia.
Qed.

Lemma smear32_window (x i : Z) :
  0 <= i ->
  Z.testbit (smear32 x) i = true
  <-> exists j, i <= j < i + 32 /\ Z.testbit x j = true.
Proof.
  revert i. unfold smear32. cbv zeta.
  apply (smear_step x _ 16); [lia|].
  apply (smear_step x _ 8); [lia|].
  apply (smear_step x _ 4); [lia|].
  apply (smear_step x _ 2); [lia|].
  apply (smear_step x _ 1); [lia|].
  intros i Hi. split.
  - intros Hb. exists i. split; [lia|assumption].
  - intros (j & Hj & Hb). now replace i with j by lia.
Qed.

(** On a positive [uint32_t] the steps set every bit up to the highest. *)
Lemma smear32_ones (x : Z) :
  0 < x < 2 ^ 32 -> smear32 x = Z.ones (Z.log2 x + 1).
Proof.
  intros Hx. apply Z.bits_inj'. intros i Hi.
  pose proof (Z.log2_nonneg x) as Hlog.
  assert (Hlt : Z.log2 x < 32) by (apply Z.log2_lt_pow2; lia).
  destruct (Z.lt_ge_cases i (Z.log2 x + 1)) as [Hlow | Hhigh].
  - rewrite Z.ones_spec_low by lia.
    apply smear32_window; [assumption|].
    exists (Z.log2 x). split; [lia|]. apply Z.bit_log2. lia.
  - rewrite Z.ones_spec_high by lia.
    apply not_true_is_false. intros Hb.
    apply smear32_window in Hb as (j & Hj & Hb); [|assumption].
    rewrite Z.bits_above_log2 in Hb by lia. discriminate.
Qed.

Lemma smear32_zero : smear32 0 = 0.
Proof. reflexivity. Qed.

(** X1: for [1 <= v <= 2^31], [next_pow2 v] is the smallest power of two
    that is at least [v]: it is a power of two, [v <= next_pow2 v], and
    half of it is below [v]. *)
Theorem X1_next_pow2_smallest (v : Z) :
  1 <= v <= 2 ^ 31 ->
  is_pow2 (next_pow2 v) /\ v <= next_pow2 v < 2 * v.
Proof.
  intros Hv. rewrite next_pow2_smear.
  rewrite (wrap_u32_small (v - 1)) by lia.
  destruct (Z.eq_dec v 1) as [-> | Hne].
  - split; [exists 0; split; [lia|reflexivity]|]. vm_compute. intuition congruence.
  - assert (Hx : 0 < v - 1 < 2 ^ 32) by lia.
    rewrite smear32_ones by assumption.
    pose proof (Z.log2_nonneg (v - 1)) as Hlog.
    pose proof (Z.log2_spec (v - 1) ltac:(lia)) as [Hlo Hhi].
    assert (Hlt : Z.log2 (v - 1) < 31) by (apply Z.log2_lt_pow2; lia).
    rewrite Z.ones_equiv.
    replace (Z.pred (2 ^ (Z.log2 (v - 1) + 1)) + 1)
      with (2 ^ (Z.log2 (v - 1) + 1)) by lia.
    replace (Z.succ (Z.log2 (v - 1))) with (Z.log2 (v - 1) + 1) in Hhi by lia.
    assert (Hpow : 2 ^ (Z.log2 (v - 1) + 1) = 2 * 2 ^ Z.log2 (v - 1)).
    { rewrite Z.pow_add_r by lia. lia. }
    assert (Hle : 2 ^ (Z.log2 (v - 1) + 1) <= 2 ^ 31).
    { apply Z.pow_le_mono_r; lia. }
    rewrite wrap_u32_small by lia.
    split.
    + exists (Z.log2 (v - 1) + 1). split; [lia|reflexivity].
    + lia.
Qed.

(** X1 at the declared size of preset Room, 0x26C0: the result is 16384. *)
Lemma X1_next_pow2_smallest_witness :
  1 <= 0x26C0 <= 2 ^ 31
  /\ is_pow2 (next_pow2 0x26C0)
  /\ 0x26C0 <= next_pow2 0x26C0 < 2 * 0x26C0.
Proof.
  assert (Hv : 1 <= 0x26C0 <= 2 ^ 31) by lia.
  split; [exact Hv|].
  exact (X1_next_pow2_smallest 0x26C0 Hv).
Defined.

(** X2: at the ends of the [uint32_t] range the result wraps to 0: for
    [v = 0] and for every [v] above [2^31]. *)
Theorem X2_next_pow2_wraps (v : Z) :
  v = 0 \/ 2 ^ 31 < v < 2 ^ 32 -> next_pow2 v = 0.
Proof.
  intros [-> | Hv]; [reflexivity|].
  rewrite next_pow2_smear. rewrite (wrap_u32_small (v - 1)) by lia.
  rewrite smear32_ones by lia.
  assert (Hlog : Z.log2 (v - 1) = 31).
  { apply Z.log2_unique; lia. }
  rewrite Hlog. reflexivity.
Qed.

(** X2 at [2^31 + 1]. *)
Lemma X2_next_pow2_wraps_witness :
  (2 ^ 31 + 1 = 0 \/ 2 ^ 31 < 2 ^ 31 + 1 < 2 ^ 32)
  /\ next_pow2 (2 ^ 31 + 1) = 0.
Proof.
  assert (Hv : 2 ^ 31 + 1 = 0 \/ 2 ^ 31 < 2 ^ 31 + 1 < 2 ^ 32) by (right; lia).
  split; [exact Hv|].
  exact (X2_next_pow2_wraps (2 ^ 31 + 1) Hv).
Defined.

(** ** One reverb tick *)

Section Tick.
Context {F : Type} `{FloatOps F}.

Lemma reverb_tick_stages (p : scaled_preset_t F) (w : workarea_t) (Lin Rin : F) :
  reverb_tick p w Lin Rin = tick_stages p w Lin Rin.
Proof. reflexivity. Qed.

Lemma same_frame_refl (w : workarea_t) : same_frame w w.
Proof. repeat split. Qed.

Lemma same_frame_trans (w1 w2 w3 : workarea_t) :
  same_frame w1 w2 -> same_frame w2 w3 -> same_frame w1 w3.
Proof.
  intros (A1 & A2 & A3) (B1 & B2 & B3). repeat split; congruence.
Qed.

Lemma workarea_write_frame (w : workarea_t) (o : Z) (v : F) :
  same_frame w (workarea_write_relative w o v).
Proof.
  unfold same_frame, workarea_write_relative. cbn.
  rewrite array_set_length. auto.
Qed.

Lemma reflection_frame (p : scaled_preset_t F) (w : workarea_t) (d m : Z)
    (Xin : F) :
  same_frame w (reflection p w d m Xin).
Proof. apply workarea_write_frame. Qed.

Lemma allpass_frame (v : F) (w : workarea_t) (m d : Z) (X : F) :
  same_frame w (fst (allpass v w m d X)).
Proof. apply workarea_write_frame. Qed.

(** One tick writes eight samples and moves the cursor by one; mask and
    buffer length stay. *)
Lemma reverb_tick_frame (p : scaled_preset_t F) (w : workarea_t) (Lin Rin : F) :
  WorkArea.size_mask (fst (reverb_tick p w Lin Rin)) = WorkArea.size_mask w
  /\ length (WorkArea.buf (fst (reverb_tick p w Lin Rin)))
     = length (WorkArea.buf w)
  /\ WorkArea.base (fst (reverb_tick p w Lin Rin))
     = Z.land (wrap_u32 (WorkArea.base w + 1)) (WorkArea.size_mask w).
Proof.
  rewrite reverb_tick_stages. unfold tick_stages.
  pose proof (reflection_frame p w (dLSAME p) (mLSAME p) Lin) as H1.
  set (w1 := reflection p w (dLSAME p) (mLSAME p) Lin) in H1 |- * .
  pose proof (reflection_frame p w1 (dRSAME p) (mRSAME p) Rin) as H2.
  set (w2 := reflection p w1 (dRSAME p) (mRSAME p) Rin) in H2 |- * .
  pose proof (reflection_frame p w2 (dRDIFF p) (mLDIFF p) Lin) as H3.
  set (w3 := reflection p w2 (dRDIFF p) (mLDIFF p) Lin) in H3 |- * .
  pose proof (reflection_frame p w3 (dLDIFF p) (mRDIFF p) Rin) as H4.
  set (w4 := reflection p w3 (dLDIFF p) (mRDIFF p) Rin) in H4 |- * .
  cbv zeta.
  match goal with |- context [allpass ?v ?w ?m ?d ?X] =>
    pose proof (allpass_frame v w m d X) as H5;
    destruct (allpass v w m d X) as [w5 L5] end.
  match goal with |- context [allpass ?v ?w ?m ?d ?X] =>
    pose proof (allpass_frame v w m d X) as H6;
    destruct (allpass v w m d X) as [w6 R6] end.
  match goal with |- context [allpass ?v ?w ?m ?d ?X] =>
    pose proof (allpass_frame v w m d X) as H7;
    destruct (allpass v w m d X) as [w7 L7] end.
  match goal with |- context [allpass ?v ?w ?m ?d ?X] =>
    pose proof (allpass_frame v w m d X) as H8;
    destruct (allpass v w m d X) as [w8 R8] end.
  cbn [fst] in H5, H6, H7, H8 |- * .
  assert (Hall : same_frame w w8).
  { repeat (eapply same_frame_trans; [eassumption|]). apply same_frame_refl. }
  destruct Hall as (Hm & Hb & Hl).
  unfold workarea_advance. cbn [WorkArea.size_mask WorkArea.buf WorkArea.base].
  rewrite Hm, Hb, Hl. auto.
Qed.

End Tick.

(** ** The loop body *)

Section Body.
Context {F : Type} `{FloatOps F}.

(** The loop body spelt out: the new state differs from the old one in
    the Work Area and the four resampler histories, and the four samples
    of the pair are each the mix of their own input sample with one of
    the two interpolator outputs of their channel. *)
Lemma process_pair_shape (final_clamp : F -> F) (inst : psxverb_instance_t F)
    (audio : list Z) (i : Z) :
  let m := mix_sample final_clamp inst in
  process_pair final_clamp inst audio i =
  (set_halfbands
     (fst (pair_down_l inst audio i)) (fst (pair_down_r inst audio i))
     (fst (pair_up_l inst audio i)) (fst (pair_up_r inst audio i))
     (set_work (fst (pair_tick inst audio i)) inst),
   array_set
     (array_set
        (array_set
           (array_set audio (i * 2)
              (m (sample_in audio (i * 2))
                 (fst (snd (pair_up_l inst audio i)))))
           (i * 2 + 1)
           (m (sample_in audio (i * 2 + 1))
              (fst (snd (pair_up_r inst audio i)))))
        ((i + 1) * 2)
        (m (sample_in audio ((i + 1) * 2))
           (snd (snd (pair_up_l inst audio i)))))
     ((i + 1) * 2 + 1)
     (m (sample_in audio ((i + 1) * 2 + 1))
        (snd (snd (pair_up_r inst audio i))))).
Proof.
  unfold process_pair, pair_up_l, pair_up_r, pair_tick, pair_down_l,
    pair_down_r. cbv zeta.
  destruct (halfband_decimate (down_l inst) _ _) as [down_l' dl].
  destruct (halfband_decimate (down_r inst) _ _) as [down_r' dr].
  cbn [fst snd].
  destruct (reverb_tick _ _ _ _) as [w [Lout Rout]].
  cbn [fst snd].
  destruct (halfband_interpolate (up_l inst) _) as [up_l' [out_l0 out_l1]].
  destruct (halfband_interpolate (up_r inst) _) as [up_r' [out_r0 out_r1]].
  reflexivity.
Qed.

Lemma process_pair_length (final_clamp : F -> F) (inst : psxverb_instance_t F)
    (audio : list Z) (i : Z) :
  length (snd (process_pair final_clamp inst audio i)) = length audio.
Proof.
  rewrite process_pair_shape. cbn [snd]. now rewrite !array_set_length.
Qed.

Lemma process_pair_settings (final_clamp : F -> F)
    (inst : psxverb_instance_t F) (audio : list Z) (i : Z) :
  same_settings inst (fst (process_pair final_clamp inst audio i)).
Proof. rewrite process_pair_shape. repeat split. Qed.

(** The body leaves every sample outside its pair alone. *)
Lemma process_pair_other (final_clamp : F -> F) (inst : psxverb_instance_t F)
    (audio : list Z) (i k d : Z) :
  0 <= i -> 0 <= k -> k < 2 * i \/ 2 * i + 4 <= k ->
  array_get (snd (process_pair final_clamp inst audio i)) k d
  = array_get audio k d.
Proof.
  intros Hi Hk Hout. rewrite process_pair_shape. cbn [snd].
  rewrite !array_get_set_other by lia. reflexivity.
Qed.

(** Each sample of the pair is the mix of its own input with its
    interpolator output. *)
Lemma process_pair_own (final_clamp : F -> F) (inst : psxverb_instance_t F)
    (audio : list Z) (i k : Z) :
  0 <= i -> 2 * i <= k < 2 * i + 4 -> k < Z.of_nat (length audio) ->
  array_get (snd (process_pair final_clamp inst audio i)) k 0
  = mix_sample final_clamp inst (sample_in audio k) (pair_wet inst audio i k).
Proof.
  intros Hi Hk Hlen. rewrite process_pair_shape. cbn [snd]. unfold pair_wet.
  assert (Hcases : k = i * 2 \/ k = i * 2 + 1 \/ k = (i + 1) * 2
                   \/ k = (i + 1) * 2 + 1) by lia.
  destruct Hcases as [-> | [-> | [-> | ->]]].
  - rewrite Z.eqb_refl.
    rewrite !array_get_set_other by lia.
    rewrite array_get_set_same by lia. reflexivity.
  - replace (i * 2 + 1 =? i * 2) with false by lia. rewrite Z.eqb_refl.
    rewrite !array_get_set_other by lia.
    rewrite array_get_set_same by (rewrite !array_set_length; lia).
    reflexivity.
  - replace ((i + 1) * 2 =? i * 2) with false by lia.
    replace ((i + 1) * 2 =? i * 2 + 1) with false by lia.
    rewrite Z.eqb_refl.
    rewrite !array_get_set_other by lia.
    rewrite array_get_set_same by (rewrite !array_set_length; lia).
    reflexivity.
  - replace ((i + 1) * 2 + 1 =? i * 2) with false by lia.
    replace ((i + 1) * 2 + 1 =? i * 2 + 1) with false by lia.
    replace ((i + 1) * 2 + 1 =? (i + 1) * 2) with false by lia.
    rewrite array_get_set_same by (rewrite !array_set_length; lia).
    reflexivity.
Qed.

End Body.

(** ** Whole blocks *)

Section Blocks.
Context {F : Type} `{FloatOps F}.

Lemma same_settings_refl (s : psxverb_instance_t F) : same_settings s s.
Proof. repeat split. Qed.

Lemma same_settings_trans (s1 s2 s3 : psxverb_instance_t F) :
  same_settings s1 s2 -> same_settings s2 s3 -> same_settings s1 s3.
Proof.
  unfold same_settings. intros A B.
  destruct A as (A1 & A2 & A3 & A4 & A5 & A6 & A7).
  destruct B as (B1 & B2 & B3 & B4 & B5 & B6 & B7).
  repeat split; congruence.
Qed.

Lemma process_pairs_cons (final_clamp : F -> F) (m : nat) (i : Z)
    (inst : psxverb_instance_t F) (audio : list Z) :
  process_pairs final_clamp (pairs_from (S m) i) (inst, audio)
  = process_pairs final_clamp (pairs_from m (i + 2))
      (process_pair final_clamp inst audio i).
Proof. cbn [pairs_from process_pairs fold_left fst snd]. reflexivity. Qed.

Lemma process_pairs_length (final_clamp : F -> F) (m : nat) :
  forall (i : Z) (inst : psxverb_instance_t F) (audio : list Z),
    length (snd (process_pairs final_clamp (pairs_from m i) (inst, audio)))
    = length audio.
Proof.
  induction m as [|m IH]; intros i inst audio; [reflexivity|].
  rewrite process_pairs_cons.
  pose proof (process_pair_length final_clamp inst audio i) as Hlen.
  destruct (process_pair final_clamp inst audio i) as [inst1 audio1].
  rewrite IH. exact Hlen.
Qed.

Lemma process_pairs_settings (final_clamp : F -> F) (m : nat) :
  forall (i : Z) (inst : psxverb_instance_t F) (audio : list Z),
    same_settings inst
      (fst (process_pairs final_clamp (pairs_from m i) (inst, audio))).
Proof.
  induction m as [|m IH]; intros i inst audio; [apply same_settings_refl|].
  rewrite process_pairs_cons.
  pose proof (process_pair_settings final_clamp inst audio i) as Hset.
  destruct (process_pair final_clamp inst audio i) as [inst1 audio1].
  eapply same_settings_trans; [exact Hset|apply IH].
Qed.

(** The pairs from [i] on leave every sample outside their range alone. *)
Lemma process_pairs_other (final_clamp : F -> F) (m : nat) :
  forall (i : Z) (inst : psxverb_instance_t F) (audio : list Z) (k d : Z),
    0 <= i -> 0 <= k -> k < 2 * i \/ 2 * i + 4 * Z.of_nat m <= k ->
    array_get
      (snd (process_pairs final_clamp (pairs_from m i) (inst, audio))) k d
    = array_get audio k d.
Proof.
  induction m as [|m IH]; intros i inst audio k d Hi Hk Hout; [reflexivity|].
  rewrite process_pairs_cons.
  pose proof (process_pair_other final_clamp inst audio i k d Hi Hk
                ltac:(lia)) as Hpair.
  destruct (process_pair final_clamp inst audio i) as [inst1 audio1].
  rewrite IH by lia. exact Hpair.
Qed.

(** Every sample inside the range of the pairs is the mix of the input
    sample at its place with the interpolator output of its pair, taken in
    the state the block had reached at that pair. *)
Lemma process_pairs_sample (final_clamp : F -> F) (m : nat) :
  forall (i : Z) (inst : psxverb_instance_t F) (audio : list Z) (k : Z),
    0 <= i -> 2 * i <= k < 2 * i + 4 * Z.of_nat m ->
    k < Z.of_nat (length audio) ->
    exists (inst' : psxverb_instance_t F) (audio' : list Z) (j : Z),
      2 * j <= k < 2 * j + 4
      /\ (exists n : nat, j = i + 2 * Z.of_nat n)
      /\ array_get
           (snd (process_pairs final_clamp (pairs_from m i) (inst, audio))) k 0
         = mix_sample final_clamp inst (sample_in audio k)
             (pair_wet inst' audio' j k).
Proof.
  induction m as [|m IH]; intros i inst audio k Hi Hk Hlen; [lia|].
  rewrite process_pairs_cons.
  destruct (Z.lt_ge_cases k (2 * i + 4)) as [Hhere | Hlater].
  - exists inst, audio, i. split; [lia|]. split; [exists O; lia|].
    pose proof (process_pair_own final_clamp inst audio i k Hi ltac:(lia) Hlen)
      as Hown.
    destruct (process_pair final_clamp inst audio i) as [inst1 audio1].
    rewrite process_pairs_other by lia. exact Hown.
  - pose proof (process_pair_other final_clamp inst audio i k 0 Hi ltac:(lia)
                  ltac:(lia)) as Hsame.
    pose proof (process_pair_length final_clamp inst audio i) as Hlen1.
    pose proof (process_pair_settings final_clamp inst audio i) as Hset.
    destruct (process_pair final_clamp inst audio i) as [inst1 audio1].
    cbn [fst snd] in Hsame, Hlen1, Hset.
    destruct (IH (i + 2) inst1 audio1 k ltac:(lia) ltac:(lia) ltac:(lia))
      as (inst' & audio' & j & Hj & [n Hn] & Hout).
    exists inst', audio', j. split; [exact Hj|].
    split; [exists (S n); lia|].
    rewrite Hout. unfold mix_sample, sample_in.
    destruct Hset as (_ & _ & Hmix & _). rewrite Hmix, Hsame. reflexivity.
Qed.

End Blocks.

(** ** The two block functions *)

Section BlocksAgree.
Context {F : Type} `{FloatOps F}.
Hypothesis clamp_agree : forall x : F, clamp_unit_v1 x = clamp_unit_v2 x.

Lemma process_pair_v1_v2 (inst : psxverb_instance_t F) (audio : list Z)
    (i : Z) :
  process_pair clamp_unit_v1 inst audio i
  = process_pair clamp_unit_v2 inst audio i.
Proof.
  rewrite !process_pair_shape. cbv zeta.
  unfold mix_sample. rewrite !clamp_agree. reflexivity.
Qed.

Lemma process_pairs_v1_v2 (m : nat) :
  forall (i : Z) (inst : psxverb_instance_t F) (audio : list Z),
    process_pairs clamp_unit_v1 (pairs_from m i) (inst, audio)
    = process_pairs clamp_unit_v2 (pairs_from m i) (inst, audio).
Proof.
  induction m as [|m IH]; intros i inst audio; [reflexivity|].
  rewrite !process_pairs_cons, process_pair_v1_v2.
  destruct (process_pair clamp_unit_v2 inst audio i) as [inst1 audio1].
  apply IH.
Qed.

Lemma fx_process_block_as_v2 (g : psxverb_instance_t F) (audio : list Z)
    (frames : Z) :
  fx_process_block g audio frames = v2_process_block g audio frames.
Proof.
  rewrite fx_process_block_pairs, v2_process_block_pairs.
  apply process_pairs_v1_v2.
Qed.

End BlocksAgree.

(** Over exact arithmetic the two ways of writing the final clamp agree. *)
Lemma clamp_unit_v1_v2 (x : Q) : clamp_unit_v1 x = clamp_unit_v2 x.
Proof.
  unfold clamp_unit_v1, clamp_unit_v2, clamp_f. cbn [f_lt f_lit Q_float].
  destruct (Q_ltb 1 x) eqn:Hhi.
  - assert (Hc : Q_ltb 1 (-1) = false) by reflexivity. rewrite Hc.
    apply Q_ltb_lt in Hhi.
    assert (Hlo : Q_ltb x (-1) = false).
    { apply Q_ltb_ge. apply Qlt_le_weak. eapply Qlt_trans; [|exact Hhi].
      reflexivity. }
    rewrite Hlo. reflexivity.
  - reflexivity.
Qed.

(** In binary32 arithmetic no negative value is above 1.0 and no positive
    one below -1.0, and every comparison with NaN fails. *)
Lemma b32_one_lt_neg (m : positive) (e : Z) :
  (f_lit 1 <. S754_finite true m e) = false.
Proof. reflexivity. Qed.

Lemma b32_pos_lt_neg_one (m : positive) (e : Z) :
  (S754_finite false m e <. f_lit (-1)) = false.
Proof. reflexivity. Qed.

Lemma b32_clamp_unit_v1_v2 (x : spec_float) :
  clamp_unit_v1 x = clamp_unit_v2 x.
Proof.
  unfold clamp_unit_v1, clamp_unit_v2, clamp_f.
  destruct x as [[] | [] | | s m e]; try reflexivity.
  destruct s.
  - rewrite b32_one_lt_neg. reflexivity.
  - rewrite b32_pos_lt_neg_one.
    destruct (f_lit 1 <. S754_finite false m e); reflexivity.
Qed.

(** X3: the two block functions are one function.  v1 writes the final
    clamp as two [if]s and v2 as a call of [clamp_f]; on the same state
    and the same block, [fx_process_block] and [v2_process_block] return
    the same state and the same audio, in exact arithmetic and in
    binary32 arithmetic, infinities and NaN included. *)
Theorem X3_v1_v2_blocks_agree (audio : list Z) (frames : Z) :
  (forall s : psxverb_instance_t Q,
     fx_process_block s audio frames = v2_process_block s audio frames)
  /\ (forall s : psxverb_instance_t spec_float,
        fx_process_block s audio frames = v2_process_block s audio frames).
Proof.
  split; intros s.
  - apply fx_process_block_as_v2, clamp_unit_v1_v2.
  - apply fx_process_block_as_v2, b32_clamp_unit_v1_v2.
Qed.

(** ** The second frame of a pair, in binary32 arithmetic *)

(** The phase-1 output of the interpolator on finite samples is +0.0. *)
Lemma b32_interpolate_second (hb : halfband_t spec_float)
    (in_tick : spec_float) :
  Forall b32_finite (state hb) -> b32_finite in_tick ->
  snd (snd (halfband_interpolate hb in_tick)) = S754_zero false
  /\ Forall b32_finite (state (fst (halfband_interpolate hb in_tick))).
Proof.
  intros Hhb Hin.
  assert (Hst : Forall b32_finite
                  (state (halfband_push (halfband_push hb in_tick) (f_lit 0))))
    by (apply b32_push_finite; [apply b32_push_finite; assumption|exact I]).
  unfold halfband_interpolate. cbv zeta. cbn [fst snd]. split; [|exact Hst].
  rewrite (b32_convolve_zero_taps g_hb_phase1) by
    first [apply b32_phase1_zero | exact Hst].
  reflexivity.
Qed.

(** A zero wet sample leaves the dry sample as it is: the product with a
    finite mix is a zero, and adding a zero changes at most the sign of a
    zero. *)
Lemma b32_mix_zero_wet (x mixv : spec_float) :
  b32_finite mixv ->
  sample_out (clamp_unit_v2 (x +. S754_zero false *. mixv))
  = sample_out (clamp_unit_v2 x)
  /\ sample_out (clamp_unit_v1 (x +. S754_zero false *. mixv))
     = sample_out (clamp_unit_v2 x).
Proof.
  intros Hmix. rewrite b32_clamp_unit_v1_v2.
  assert (Hz : exists b, S754_zero false *. mixv = S754_zero b).
  { destruct mixv as [s | s | | s m e]; try contradiction;
      eexists; reflexivity. }
  destruct Hz as [b ->].
  assert (Hadd : x +. S754_zero b = x
                 \/ exists a c, x = S754_zero a /\ x +. S754_zero b = S754_zero c).
  { destruct x as [a | a | | a m e].
    - right. exists a. destruct a, b; eexists; split; reflexivity.
    - left. reflexivity.
    - left. reflexivity.
    - left. reflexivity. }
  destruct Hadd as [-> | (a & c & -> & ->)]; [now split|].
  destruct a, c; split; reflexivity.
Qed.

(** The second frame of one pair. *)
Lemma b32_pair_second_frame (inst : psxverb_instance_t spec_float)
    (audio : list Z) (i k : Z) :
  0 <= i -> 2 * i + 2 <= k < 2 * i + 4 -> k < Z.of_nat (length audio) ->
  b32_interpolators_finite inst -> b32_finite (mix inst) ->
  interpolator_inputs_finite 1 i inst audio ->
  array_get (snd (process_pair clamp_unit_v2 inst audio i)) k 0
  = sample_out (clamp_unit_v2 (sample_in audio k *. (f_lit 1 -. mix inst))).
Proof.
  intros Hi Hk Hlen [Hl Hr] Hmix (HL & HR & _).
  rewrite process_pair_own by lia.
  unfold mix_sample, pair_wet.
  replace (k =? i * 2) with false by lia.
  replace (k =? i * 2 + 1) with false by lia.
  destruct (k =? (i + 1) * 2).
  - unfold pair_up_l.
    rewrite (proj1 (b32_interpolate_second _ _ Hl HL)).
    exact (proj1 (b32_mix_zero_wet _ (mix inst) Hmix)).
  - unfold pair_up_r.
    rewrite (proj1 (b32_interpolate_second _ _ Hr HR)).
    exact (proj1 (b32_mix_zero_wet _ (mix inst) Hmix)).
Qed.

(** The body keeps the interpolator histories finite. *)
Lemma b32_pair_interpolators (inst : psxverb_instance_t spec_float)
    (audio : list Z) (i : Z) :
  b32_interpolators_finite inst ->
  interpolator_inputs_finite 1 i inst audio ->
  b32_interpolators_finite (fst (process_pair clamp_unit_v2 inst audio i)).
Proof.
  intros [Hl Hr] (HL & HR & _). rewrite process_pair_shape. cbn [fst].
  split.
  - exact (proj2 (b32_interpolate_second _ _ Hl HL)).
  - exact (proj2 (b32_interpolate_second _ _ Hr HR)).
Qed.

Lemma b32_pairs_second_frame (m : nat) :
  forall (i : Z) (inst : psxverb_instance_t spec_float) (audio : list Z)
         (k : Z),
    0 <= i -> 2 * i <= k < 2 * i + 4 * Z.of_nat m ->
    k < Z.of_nat (length audio) -> Z.odd (k / 2 - i) = true ->
    b32_interpolators_finite inst -> b32_finite (mix inst) ->
    interpolator_inputs_finite m i inst audio ->
    array_get
      (snd (process_pairs clamp_unit_v2 (pairs_from m i) (inst, audio))) k 0
    = sample_out (clamp_unit_v2 (sample_in audio k *. (f_lit 1 -. mix inst))).
Proof.
  induction m as [|m IH]; intros i inst audio k Hi Hk Hlen Hodd Hhist Hmix Hrun;
    [lia|].
  rewrite process_pairs_cons.
  assert (Hone : interpolator_inputs_finite 1 i inst audio).
  { destruct Hrun as (HL & HR & _). cbn [interpolator_inputs_finite].
    split; [exact HL|]. split; [exact HR|exact I]. }
  destruct Hrun as (_ & _ & Hrest).
  destruct (Z.lt_ge_cases k (2 * i + 4)) as [Hhere | Hlater].
  - assert (Hsecond : 2 * i + 2 <= k).
    { destruct (Z.lt_ge_cases k (2 * i + 2)) as [Hfirst|]; [|lia].
      replace (k / 2 - i) with 0 in Hodd
        by (Z.to_euclidean_division_equations; lia).
      discriminate. }
    pose proof (b32_pair_second_frame inst audio i k Hi ltac:(lia) Hlen
                  Hhist Hmix Hone) as Hown.
    destruct (process_pair clamp_unit_v2 inst audio i) as [inst1 audio1].
    rewrite process_pairs_other by lia. exact Hown.
  - pose proof (process_pair_other clamp_unit_v2 inst audio i k 0 Hi
                  ltac:(lia) ltac:(lia)) as Hsame.
    pose proof (process_pair_length clamp_unit_v2 inst audio i) as Hlen1.
    pose proof (process_pair_settings clamp_unit_v2 inst audio i) as Hset.
    pose proof (b32_pair_interpolators inst audio i Hhist Hone) as Hhist1.
    destruct (process_pair clamp_unit_v2 inst audio i) as [inst1 audio1].
    cbn [fst snd] in Hsame, Hlen1, Hset, Hhist1, Hrest.
    destruct Hset as (_ & _ & Hm1 & _).
    rewrite (IH (i + 2) inst1 audio1 k) by
      first [ lia | assumption | now rewrite Hm1
            | replace (k / 2 - (i + 2)) with (k / 2 - i - 2) by lia;
              rewrite Z.odd_sub, Bool.xorb_false_r; assumption
            | idtac ].
    unfold sample_in. now rewrite Hm1, Hsame.
Qed.

(** X4: the reverb reaches only every other frame.  The second frame of
    each processed pair (the odd frames of the block) is mixed with the
    phase-1 output of the interpolator.  In binary32 arithmetic, as long
    as the interpolator histories, the samples handed to the
    interpolators and the mix are finite, that output is +0.0 and the
    samples written are the dry input scaled by [1 - mix], clamped and
    converted, independent of the preset and of the reverb state, in v2
    and v1 alike. *)
Theorem X4_odd_frames_carry_no_reverb (inst : psxverb_instance_t spec_float)
    (audio : list Z) (frames k : Z) :
  b32_interpolators_finite inst -> b32_finite (mix inst) ->
  interpolator_inputs_finite (Z.to_nat (frames / 2)) 0 inst audio ->
  0 <= k < 4 * (frames / 2) -> k < Z.of_nat (length audio) ->
  Z.odd (k / 2) = true ->
  let dry :=
    sample_out (clamp_unit_v2 (sample_in audio k *. (f_lit 1 -. mix inst))) in
  array_get (snd (v2_process_block inst audio frames)) k 0 = dry
  /\ array_get (snd (fx_process_block inst audio frames)) k 0 = dry.
Proof.
  intros Hhist Hmix Hrun Hk Hlen Hodd dry.
  rewrite (fx_process_block_as_v2 b32_clamp_unit_v1_v2).
  rewrite v2_process_block_pairs.
  assert (Hout : array_get
            (snd (process_pairs clamp_unit_v2
                    (pairs_from (Z.to_nat (frames / 2)) 0) (inst, audio))) k 0
          = dry).
  { apply b32_pairs_second_frame; try assumption; try lia.
    now rewrite Z.sub_0_r. }
  split; exact Hout.
Qed.

(** X4 on a freshly created instance and a block of four frames: sample
    6, the left sample of frame 3, is 3000 scaled by [1 - 0.35], one
    step toward zero: 1949. *)
Lemma X4_odd_frames_carry_no_reverb_witness :
  let inst : psxverb_instance_t spec_float := v2_create_instance in
  let audio := [1000; -2000; 3000; 4000; 1000; -2000; 3000; 4000] in
  b32_interpolators_finite inst /\ b32_finite (mix inst)
  /\ interpolator_inputs_finite (Z.to_nat (4 / 2)) 0 inst audio
  /\ 0 <= 6 < 4 * (4 / 2) /\ 6 < Z.of_nat (length audio)
  /\ Z.odd (6 / 2) = true
  /\ array_get (snd (v2_process_block inst audio 4)) 6 0 = 1949
  /\ array_get (snd (fx_process_block inst audio 4)) 6 0 = 1949.
Proof.
  intros inst audio.
  assert (Hhist : b32_interpolators_finite inst)
    by (split; apply Forall_replicate; exact I).
  assert (Hmix : b32_finite (mix inst)) by exact I.
  assert (Hrun : interpolator_inputs_finite (Z.to_nat (4 / 2)) 0 inst audio)
    by (vm_compute; repeat split).
  assert (Hk : 0 <= 6 < 4 * (4 / 2)) by (vm_compute; split; [discriminate|reflexivity]).
  assert (Hlen : 6 < Z.of_nat (length audio)) by reflexivity.
  assert (Hodd : Z.odd (6 / 2) = true) by reflexivity.
  repeat (split; [assumption|]).
  assert (Hdry : sample_out (clamp_unit_v2
                   (sample_in audio 6 *. (f_lit 1 -. mix inst))) = 1949)
    by (vm_compute; reflexivity).
  rewrite <- Hdry.
  exact (X4_odd_frames_carry_no_reverb inst audio 4 6 Hhist Hmix Hrun Hk Hlen
           Hodd).
Defined.

(** ** Silence, in binary32 arithmetic *)

Lemma array_set_Forall {A : Type} (P : A -> Prop) (a : list A) (i : Z) (x : A) :
  Forall P a -> P x -> Forall P (array_set a i x).
Proof.
  intros Ha Hx. unfold array_set. destruct (i <? 0); [exact Ha|].
  now apply Forall_insert.
Qed.

Lemma array_get_Forall {A : Type} (P : A -> Prop) (a : list A) (i : Z) (d : A) :
  Forall P a -> P d -> P (array_get a i d).
Proof.
  intros Ha Hd. unfold array_get. destruct (i <? 0); [exact Hd|].
  destruct (a !! Z.to_nat i) as [x|] eqn:Hx; cbn; [|exact Hd].
  rewrite Forall_lookup in Ha. exact (Ha _ _ Hx).
Qed.

Lemma array_set_zero_id (a : list Z) (i : Z) :
  Forall (fun z => z = 0) a -> array_set a i 0 = a.
Proof.
  intros Ha. unfold array_set. destruct (i <? 0); [reflexivity|].
  destruct (a !! Z.to_nat i) as [x|] eqn:Hx.
  - apply list_insert_id. rewrite Hx. f_equal.
    rewrite Forall_lookup in Ha. exact (Ha _ _ Hx).
  - apply list_insert_ge. now apply lookup_ge_None.
Qed.

(** *** Zeros under the operations *)

Lemma b32_zero_mul_l (x c : spec_float) :
  b32_zero x -> b32_finite c -> b32_zero (x *. c).
Proof. destruct x, c; intros Hx Hc; try contradiction; exact I. Qed.

Lemma b32_zero_mul_r (c x : spec_float) :
  b32_finite c -> b32_zero x -> b32_zero (c *. x).
Proof. destruct x, c; intros Hc Hx; try contradiction; exact I. Qed.

Lemma b32_zero_add (x y : spec_float) :
  b32_zero x -> b32_zero y -> b32_zero (x +. y).
Proof.
  destruct x as [[] | | |], y as [[] | | |]; intros Hx Hy;
    try contradiction; exact I.
Qed.

Lemma b32_zero_sub (x y : spec_float) :
  b32_zero x -> b32_zero y -> b32_zero (x -. y).
Proof.
  destruct x as [[] | | |], y as [[] | | |]; intros Hx Hy;
    try contradiction; exact I.
Qed.

Lemma b32_zero_to_int (x : spec_float) : b32_zero x -> f_to_int x = 0.
Proof. destruct x; intros Hx; try contradiction; reflexivity. Qed.

Lemma b32_zero_finite (x : spec_float) : b32_zero x -> b32_finite x.
Proof. destruct x; intros Hx; try contradiction; exact I. Qed.

Create HintDb b32_zeros.
#[local] Hint Resolve b32_zero_mul_l b32_zero_mul_r b32_zero_add b32_zero_sub
  : b32_zeros.

(** *** The Work Area *)

Lemma b32_silent_read (w : workarea_t) (o : Z) :
  Forall (fun z => z = 0) (WorkArea.buf w) ->
  b32_zero (workarea_read_relative w o).
Proof.
  intros Hw. unfold workarea_read_relative.
  rewrite (array_get_Forall (fun z => z = 0) _ _ 0 Hw eq_refl).
  exact I.
Qed.

Lemma b32_silent_write (w : workarea_t) (o : Z) (v : spec_float) :
  Forall (fun z => z = 0) (WorkArea.buf w) -> b32_zero v ->
  Forall (fun z => z = 0) (WorkArea.buf (workarea_write_relative w o v)).
Proof.
  intros Hw Hv. unfold workarea_write_relative. cbn [WorkArea.buf].
  apply array_set_Forall; [exact Hw|].
  rewrite (b32_zero_to_int (v *. kFloatToInt16))
    by (apply b32_zero_mul_l; [exact Hv|exact I]).
  reflexivity.
Qed.

Section SilentTick.
Variable p : scaled_preset_t spec_float.
Hypothesis coefficients : b32_coefficients_finite p.

Lemma b32_coefficient_cases :
  b32_finite (vIIR_f p) /\ b32_finite (vCOMB1_f p) /\ b32_finite (vCOMB2_f p)
  /\ b32_finite (vCOMB3_f p) /\ b32_finite (vCOMB4_f p)
  /\ b32_finite (vWALL_f p) /\ b32_finite (vAPF1_f p)
  /\ b32_finite (vAPF2_f p) /\ b32_finite (vLIN_f p) /\ b32_finite (vRIN_f p)
  /\ b32_finite (vLOUT_f p) /\ b32_finite (vROUT_f p).
Proof.
  unfold b32_coefficients_finite in coefficients.
  repeat match goal with
         | H : Forall _ (_ :: _) |- _ => apply Forall_cons_1 in H; destruct H
         end.
  repeat split; assumption.
Qed.

Lemma b32_silent_reflection (w : workarea_t) (d m : Z) (Xin : spec_float) :
  Forall (fun z => z = 0) (WorkArea.buf w) -> b32_zero Xin ->
  Forall (fun z => z = 0) (WorkArea.buf (reflection p w d m Xin)).
Proof.
  intros Hw Hx.
  destruct b32_coefficient_cases as (Hiir & _ & _ & _ & _ & Hwall & _).
  unfold reflection. cbv zeta.
  apply b32_silent_write; [exact Hw|].
  pose proof (b32_silent_read w d Hw). pose proof (b32_silent_read w (m - 1) Hw).
  auto 10 with b32_zeros.
Qed.

Lemma b32_silent_comb_bank (w : workarea_t) (m1 m2 m3 m4 : Z) :
  Forall (fun z => z = 0) (WorkArea.buf w) ->
  b32_zero (comb_bank p w m1 m2 m3 m4).
Proof.
  intros Hw.
  destruct b32_coefficient_cases as (_ & H1 & H2 & H3 & H4 & _).
  unfold comb_bank.
  pose proof (b32_silent_read w m1 Hw). pose proof (b32_silent_read w m2 Hw).
  pose proof (b32_silent_read w m3 Hw). pose proof (b32_silent_read w m4 Hw).
  auto 10 with b32_zeros.
Qed.

Lemma b32_silent_allpass (v : spec_float) (w : workarea_t) (m d : Z)
    (X : spec_float) :
  b32_finite v ->
  Forall (fun z => z = 0) (WorkArea.buf w) -> b32_zero X ->
  Forall (fun z => z = 0) (WorkArea.buf (fst (allpass v w m d X)))
  /\ b32_zero (snd (allpass v w m d X)).
Proof.
  intros Hv Hw Hx. unfold allpass. cbv zeta. cbn [fst snd].
  pose proof (b32_silent_read w (m - d) Hw).
  split.
  - apply b32_silent_write; [exact Hw|]. auto 10 with b32_zeros.
  - auto 10 with b32_zeros.
Qed.

(** A tick on a silent Work Area with silent inputs stays silent. *)
Lemma b32_silent_tick (w : workarea_t) (Lin Rin : spec_float) :
  Forall (fun z => z = 0) (WorkArea.buf w) -> b32_zero Lin -> b32_zero Rin ->
  Forall (fun z => z = 0) (WorkArea.buf (fst (reverb_tick p w Lin Rin)))
  /\ b32_zero (fst (snd (reverb_tick p w Lin Rin)))
  /\ b32_zero (snd (snd (reverb_tick p w Lin Rin))).
Proof.
  intros Hw HL HR.
  destruct b32_coefficient_cases as (_ & _ & _ & _ & _ & _ & Ha1 & Ha2 & _).
  rewrite reverb_tick_stages. unfold tick_stages.
  pose proof (b32_silent_reflection w (dLSAME p) (mLSAME p) Lin Hw HL) as H1.
  set (w1 := reflection p w (dLSAME p) (mLSAME p) Lin) in H1 |- * .
  pose proof (b32_silent_reflection w1 (dRSAME p) (mRSAME p) Rin H1 HR) as H2.
  set (w2 := reflection p w1 (dRSAME p) (mRSAME p) Rin) in H2 |- * .
  pose proof (b32_silent_reflection w2 (dRDIFF p) (mLDIFF p) Lin H2 HL) as H3.
  set (w3 := reflection p w2 (dRDIFF p) (mLDIFF p) Lin) in H3 |- * .
  pose proof (b32_silent_reflection w3 (dLDIFF p) (mRDIFF p) Rin H3 HR) as H4.
  set (w4 := reflection p w3 (dLDIFF p) (mRDIFF p) Rin) in H4 |- * .
  cbv zeta.
  pose proof (b32_silent_comb_bank w4 (mLCOMB1 p) (mLCOMB2 p) (mLCOMB3 p)
                (mLCOMB4 p) H4) as HcL.
  pose proof (b32_silent_comb_bank w4 (mRCOMB1 p) (mRCOMB2 p) (mRCOMB3 p)
                (mRCOMB4 p) H4) as HcR.
  set (cL := comb_bank p w4 (mLCOMB1 p) _ _ _) in HcL |- * .
  set (cR := comb_bank p w4 (mRCOMB1 p) _ _ _) in HcR |- * .
  destruct (b32_silent_allpass (vAPF1_f p) w4 (mLAPF1 p) (dAPF1 p) cL Ha1 H4
              HcL) as [H5 HL5].
  destruct (allpass (vAPF1_f p) w4 (mLAPF1 p) (dAPF1 p) cL) as [w5 L5].
  cbn [fst snd] in H5, HL5.
  destruct (b32_silent_allpass (vAPF1_f p) w5 (mRAPF1 p) (dAPF1 p) cR Ha1 H5
              HcR) as [H6 HR6].
  destruct (allpass (vAPF1_f p) w5 (mRAPF1 p) (dAPF1 p) cR) as [w6 R6].
  cbn [fst snd] in H6, HR6.
  destruct (b32_silent_allpass (vAPF2_f p) w6 (mLAPF2 p) (dAPF2 p) L5 Ha2 H6
              HL5) as [H7 HL7].
  destruct (allpass (vAPF2_f p) w6 (mLAPF2 p) (dAPF2 p) L5) as [w7 L7].
  cbn [fst snd] in H7, HL7.
  destruct (b32_silent_allpass (vAPF2_f p) w7 (mRAPF2 p) (dAPF2 p) R6 Ha2 H7
              HR6) as [H8 HR8].
  destruct (allpass (vAPF2_f p) w7 (mRAPF2 p) (dAPF2 p) R6) as [w8 R8].
  cbn [fst snd] in H8, HR8 |- * .
  unfold workarea_advance. cbn [WorkArea.buf]. auto.
Qed.

End SilentTick.

(** *** The resamplers *)

Lemma b32_silent_push (hb : halfband_t spec_float) (x : spec_float) :
  b32_silent_halfband hb -> b32_zero x ->
  b32_silent_halfband (halfband_push hb x).
Proof.
  intros Hhb Hx. unfold b32_silent_halfband, halfband_push. cbn [state].
  apply array_set_Forall; assumption.
Qed.

Lemma b32_silent_convolve (g st : list spec_float) :
  Forall b32_finite g -> Forall b32_zero st ->
  forall (idx : Z) (sum : spec_float),
    b32_zero sum -> b32_zero (hb_convolve g st idx sum).
Proof.
  intros Hg Hst. induction Hg as [|c g Hc _ IH]; intros idx sum Hsum;
    cbn [hb_convolve]; [exact Hsum|].
  apply IH. apply b32_zero_add; [exact Hsum|].
  apply b32_zero_mul_r; [exact Hc|].
  apply array_get_Forall; [exact Hst|exact I].
Qed.

Lemma b32_taps_finite :
  Forall b32_finite (@g_hb_coeffs spec_float _)
  /\ Forall b32_finite (@g_hb_phase0 spec_float _)
  /\ Forall b32_finite (@g_hb_phase1 spec_float _).
Proof.
  unfold g_hb_coeffs, g_hb_phase0, g_hb_phase1. cbn [map].
  repeat split; repeat (constructor; [vm_compute; exact I|]); constructor.
Qed.

Lemma b32_silent_decimate (hb : halfband_t spec_float) (x0 x1 : spec_float) :
  b32_silent_halfband hb -> b32_zero x0 -> b32_zero x1 ->
  b32_silent_halfband (fst (halfband_decimate hb x0 x1))
  /\ b32_zero (snd (halfband_decimate hb x0 x1)).
Proof.
  intros Hhb H0 H1. unfold halfband_decimate. cbv zeta. cbn [fst snd].
  assert (Hs : b32_silent_halfband (halfband_push (halfband_push hb x0) x1)).
  { apply b32_silent_push; [apply b32_silent_push|]; assumption. }
  split; [exact Hs|].
  apply b32_silent_convolve; [apply b32_taps_finite|exact Hs|exact I].
Qed.

Lemma b32_silent_interpolate (hb : halfband_t spec_float) (x : spec_float) :
  b32_silent_halfband hb -> b32_zero x ->
  b32_silent_halfband (fst (halfband_interpolate hb x))
  /\ b32_zero (fst (snd (halfband_interpolate hb x)))
  /\ b32_zero (snd (snd (halfband_interpolate hb x))).
Proof.
  intros Hhb Hx. unfold halfband_interpolate. cbv zeta. cbn [fst snd].
  assert (Hs1 : b32_silent_halfband (halfband_push hb x)).
  { apply b32_silent_push; assumption. }
  assert (Hs2 : b32_silent_halfband
                  (halfband_push (halfband_push hb x) (f_lit 0))).
  { apply b32_silent_push; [exact Hs1|exact I]. }
  split; [exact Hs2|].
  split; (apply b32_zero_mul_l; [|exact I]);
    apply b32_silent_convolve;
    first [apply b32_taps_finite | assumption | exact I].
Qed.

(** *** The loop body *)

Lemma b32_silent_sample_in (audio : list Z) (k : Z) :
  Forall (fun z => z = 0) audio -> b32_zero (sample_in audio k).
Proof.
  intros Ha. unfold sample_in.
  rewrite (array_get_Forall (fun z => z = 0) _ _ 0 Ha eq_refl). exact I.
Qed.

Lemma b32_silent_mix_sample (inst : psxverb_instance_t spec_float)
    (x y : spec_float) :
  b32_mix_finite inst -> b32_zero x -> b32_zero y ->
  mix_sample clamp_unit_v2 inst x y = 0.
Proof.
  intros [Hwet Hdry] Hx Hy. unfold mix_sample.
  assert (Hz : b32_zero (x *. (f_lit 1 -. mix inst) +. y *. mix inst))
    by auto with b32_zeros.
  destruct (x *. (f_lit 1 -. mix inst) +. y *. mix inst) as [[] | | |];
    try contradiction; reflexivity.
Qed.

(** The loop body on a silent state and a silent pair. *)
Lemma b32_silent_pair (inst : psxverb_instance_t spec_float) (audio : list Z)
    (i : Z) :
  b32_silent_state inst -> b32_coefficients_finite (current inst) ->
  b32_mix_finite inst -> Forall (fun z => z = 0) audio ->
  b32_silent_state (fst (process_pair clamp_unit_v2 inst audio i))
  /\ snd (process_pair clamp_unit_v2 inst audio i) = audio.
Proof.
  intros (Hw & Hdl & Hdr & Hul & Hur) Hc Hmix Ha.
  destruct (b32_coefficient_cases _ Hc)
    as (_ & _ & _ & _ & _ & _ & _ & _ & Hlin & Hrin & Hlout & Hrout).
  rewrite process_pair_shape. cbv zeta. cbn [fst snd].
  destruct (b32_silent_decimate (down_l inst) (sample_in audio (i * 2))
              (sample_in audio ((i + 1) * 2)) Hdl
              (b32_silent_sample_in audio _ Ha)
              (b32_silent_sample_in audio _ Ha)) as [Hdl' Hl].
  destruct (b32_silent_decimate (down_r inst) (sample_in audio (i * 2 + 1))
              (sample_in audio ((i + 1) * 2 + 1)) Hdr
              (b32_silent_sample_in audio _ Ha)
              (b32_silent_sample_in audio _ Ha)) as [Hdr' Hr].
  fold (pair_down_l inst audio i) in Hdl', Hl.
  fold (pair_down_r inst audio i) in Hdr', Hr.
  assert (HLin : b32_zero (snd (pair_down_l inst audio i)
                           *. vLIN_f (current inst)))
    by (apply b32_zero_mul_l; assumption).
  assert (HRin : b32_zero (snd (pair_down_r inst audio i)
                           *. vRIN_f (current inst)))
    by (apply b32_zero_mul_l; assumption).
  destruct (b32_silent_tick (current inst) Hc (work inst) _ _ Hw HLin HRin)
    as (Hw' & HLout & HRout).
  change (Forall (fun z => z = 0) (WorkArea.buf (fst (pair_tick inst audio i))))
    in Hw'.
  change (b32_zero (fst (snd (pair_tick inst audio i)))) in HLout.
  change (b32_zero (snd (snd (pair_tick inst audio i)))) in HRout.
  assert (HxL : b32_zero (fst (snd (pair_tick inst audio i))
                          *. vLOUT_f (current inst)))
    by (apply b32_zero_mul_l; assumption).
  assert (HxR : b32_zero (snd (snd (pair_tick inst audio i))
                          *. vROUT_f (current inst)))
    by (apply b32_zero_mul_l; assumption).
  destruct (b32_silent_interpolate (up_l inst) _ Hul HxL)
    as (Hul' & Hl0 & Hl1).
  destruct (b32_silent_interpolate (up_r inst) _ Hur HxR)
    as (Hur' & Hr0 & Hr1).
  fold (pair_up_l inst audio i) in Hul', Hl0, Hl1.
  fold (pair_up_r inst audio i) in Hur', Hr0, Hr1.
  split.
  - repeat split; assumption.
  - rewrite !b32_silent_mix_sample
      by first [assumption | apply b32_silent_sample_in; exact Ha].
    rewrite !(array_set_zero_id audio) by exact Ha. reflexivity.
Qed.

Lemma b32_silent_pairs (m : nat) :
  forall (i : Z) (inst : psxverb_instance_t spec_float) (audio : list Z),
    b32_silent_state inst -> b32_coefficients_finite (current inst) ->
    b32_mix_finite inst -> Forall (fun z => z = 0) audio ->
    b32_silent_state
      (fst (process_pairs clamp_unit_v2 (pairs_from m i) (inst, audio)))
    /\ snd (process_pairs clamp_unit_v2 (pairs_from m i) (inst, audio))
       = audio.
Proof.
  induction m as [|m IH]; intros i inst audio Hs Hc Hmix Ha;
    [split; [exact Hs|reflexivity]|].
  rewrite process_pairs_cons.
  destruct (b32_silent_pair inst audio i Hs Hc Hmix Ha) as [Hs1 Ha1].
  pose proof (process_pair_settings clamp_unit_v2 inst audio i) as Hset.
  destruct (process_pair clamp_unit_v2 inst audio i) as [inst1 audio1].
  cbn [fst snd] in Hs1, Ha1, Hset. subst audio1.
  destruct Hset as (_ & _ & Hm1 & _ & _ & Hc1 & _).
  apply IH; try assumption.
  - now rewrite Hc1.
  - unfold b32_mix_finite. now rewrite Hm1.
Qed.

(** A freshly created instance holds no sound. *)
Lemma b32_silent_create_instance :
  b32_silent_state (v2_create_instance (F:=spec_float)).
Proof.
  unfold v2_create_instance. cbv zeta.
  assert (Hidx : 0 <= 4 <= 5) by lia.
  unfold b32_silent_state.
  rewrite (v2_apply_preset_work _ 4 Hidx). cbv zeta. cbn [WorkArea.buf].
  split.
  - unfold memset. apply Forall_app. split.
    + apply Forall_replicate. reflexivity.
    + apply Forall_drop. apply Forall_replicate. reflexivity.
  - repeat split; apply Forall_replicate; exact I.
Qed.

(** X21: silence in, silence out, in binary32 arithmetic.  On a state that
    holds no sound (the Work Area and the four resampler histories all
    zero, as after creation), with finite coefficients in use and a
    finite mix, a block of zero samples comes back unchanged and leaves
    the state silent, for every frame count, in v2 and v1 alike. *)
Theorem X21_silence_stays_silent (inst : psxverb_instance_t spec_float)
    (audio : list Z) (frames : Z) :
  b32_silent_state inst -> b32_coefficients_finite (current inst) ->
  b32_mix_finite inst -> Forall (fun z => z = 0) audio ->
  (snd (v2_process_block inst audio frames) = audio
   /\ b32_silent_state (fst (v2_process_block inst audio frames)))
  /\ (snd (fx_process_block inst audio frames) = audio
      /\ b32_silent_state (fst (fx_process_block inst audio frames))).
Proof.
  intros Hs Hc Hmix Ha.
  rewrite (fx_process_block_as_v2 b32_clamp_unit_v1_v2).
  rewrite v2_process_block_pairs.
  destruct (b32_silent_pairs (Z.to_nat (frames / 2)) 0 inst audio Hs Hc Hmix
              Ha) as [Hstate Haudio].
  split; split; assumption.
Qed.

(** X21 on a freshly created instance and a block of 64 silent frames. *)
Lemma X21_silence_stays_silent_witness :
  let inst : psxverb_instance_t spec_float := v2_create_instance in
  let audio := replicate 128 0 in
  b32_silent_state inst /\ b32_coefficients_finite (current inst)
  /\ b32_mix_finite inst /\ Forall (fun z => z = 0) audio
  /\ snd (v2_process_block inst audio 64) = audio
  /\ snd (fx_process_block inst audio 64) = audio.
Proof.
  intros inst audio.
  assert (Hs : b32_silent_state inst) by apply b32_silent_create_instance.
  assert (Hc : b32_coefficients_finite (current inst))
    by (vm_compute; repeat constructor).
  assert (Hmix : b32_mix_finite inst) by (split; exact I).
  assert (Ha : Forall (fun z => z = 0) audio)
    by (apply Forall_replicate; reflexivity).
  destruct (X21_silence_stays_silent inst audio 64 Hs Hc Hmix Ha)
    as [[H2 _] [H1 _]].
  split; [exact Hs|]. split; [exact Hc|]. split; [exact Hmix|].
  split; [exact Ha|]. split; [exact H2|exact H1].
Defined.

(** ** What a block does to the state *)

Section BlockState.
Context {F : Type} `{FloatOps F}.

Lemma process_pair_work (final_clamp : F -> F) (inst : psxverb_instance_t F)
    (audio : list Z) (i : Z) :
  work (fst (process_pair final_clamp inst audio i))
  = fst (pair_tick inst audio i).
Proof. rewrite process_pair_shape. reflexivity. Qed.

(** Mask and buffer length of the Work Area after [m] pairs. *)
Lemma process_pairs_frame (final_clamp : F -> F) (m : nat) :
  forall (i : Z) (inst : psxverb_instance_t F) (audio : list Z),
    let s' := fst (process_pairs final_clamp (pairs_from m i) (inst, audio)) in
    WorkArea.size_mask (work s') = WorkArea.size_mask (work inst)
    /\ length (WorkArea.buf (work s')) = length (WorkArea.buf (work inst)).
Proof.
  induction m as [|m IH]; intros i inst audio; [split; reflexivity|].
  cbv zeta. rewrite process_pairs_cons.
  pose proof (process_pair_work final_clamp inst audio i) as Hwork.
  destruct (process_pair final_clamp inst audio i) as [inst1 audio1].
  cbn [fst] in Hwork.
  destruct (IH (i + 2) inst1 audio1) as [Hm Hl]. rewrite Hm, Hl, Hwork.
  unfold pair_tick.
  match goal with |- context [reverb_tick ?p ?w ?l ?r] =>
    destruct (reverb_tick_frame p w l r) as (Hm1 & Hl1 & _) end.
  split; assumption.
Qed.

(** X5: a block function changes nothing but the sound: the preset index,
    the four controls and both coefficient sets come out as they went in,
    the Work Area keeps its mask and its buffer length, and the audio
    buffer keeps its length.  This holds for v1 [fx_process_block] and v2
    [v2_process_block], for every frame count. *)
Theorem X5_block_keeps_settings (inst : psxverb_instance_t F) (audio : list Z)
    (frames : Z) :
  (let r := v2_process_block inst audio frames in
   same_settings inst (fst r)
   /\ WorkArea.size_mask (work (fst r)) = WorkArea.size_mask (work inst)
   /\ length (WorkArea.buf (work (fst r))) = length (WorkArea.buf (work inst))
   /\ length (snd r) = length audio)
  /\ (let r := fx_process_block inst audio frames in
      same_settings inst (fst r)
      /\ WorkArea.size_mask (work (fst r)) = WorkArea.size_mask (work inst)
      /\ length (WorkArea.buf (work (fst r)))
         = length (WorkArea.buf (work inst))
      /\ length (snd r) = length audio).
Proof.
  cbv zeta. rewrite v2_process_block_pairs, fx_process_block_pairs.
  split.
  - split; [apply process_pairs_settings|].
    split; [apply process_pairs_frame|].
    split; [apply process_pairs_frame|apply process_pairs_length].
  - split; [apply process_pairs_settings|].
    split; [apply process_pairs_frame|].
    split; [apply process_pairs_frame|apply process_pairs_length].
Qed.

(** *** Cursors *)

(** For a size that is a power of two the mask is a remainder. *)
Lemma workarea_index_mod (wa : workarea_t) (k offset : Z) :
  0 <= k <= 32 -> WorkArea.size_mask wa = 2 ^ k - 1 ->
  workarea_index wa offset = (WorkArea.base wa + offset) mod 2 ^ k.
Proof.
  intros Hk Hmask. unfold workarea_index, wrap_u32. rewrite Hmask.
  replace (2 ^ k - 1) with (Z.ones k) by (rewrite Z.ones_equiv; lia).
  rewrite Z.land_ones by lia.
  apply Z.mod_mod_divide.
  exists (2 ^ (32 - k)). rewrite <- Z.pow_add_r by lia. f_equal. lia.
Qed.

Lemma process_pairs_base (final_clamp : F -> F) (k : Z) (m : nat) :
  forall (i : Z) (inst : psxverb_instance_t F) (audio : list Z),
    0 <= k <= 32 -> WorkArea.size_mask (work inst) = 2 ^ k - 1 ->
    0 <= WorkArea.base (work inst) < 2 ^ k ->
    WorkArea.base
      (work (fst (process_pairs final_clamp (pairs_from m i) (inst, audio))))
    = (WorkArea.base (work inst) + Z.of_nat m) mod 2 ^ k.
Proof.
  induction m as [|m IH]; intros i inst audio Hk Hmask Hbase.
  - cbn [pairs_from process_pairs fold_left fst]. rewrite Z.add_0_r.
    symmetry. apply Z.mod_small. exact Hbase.
  - rewrite process_pairs_cons.
    pose proof (process_pair_work final_clamp inst audio i) as Hwork.
    destruct (process_pair final_clamp inst audio i) as [inst1 audio1].
    cbn [fst] in Hwork.
    assert (Hstep : WorkArea.size_mask (work inst1) = 2 ^ k - 1
                    /\ WorkArea.base (work inst1)
                       = (WorkArea.base (work inst) + 1) mod 2 ^ k).
    { rewrite Hwork. unfold pair_tick.
      match goal with |- context [reverb_tick ?p ?w ?l ?r] =>
        destruct (reverb_tick_frame p w l r) as (Hm1 & _ & Hb1) end.
      rewrite Hm1, Hb1. split; [exact Hmask|].
      exact (workarea_index_mod (work inst) k 1 Hk Hmask). }
    destruct Hstep as [Hmask1 Hbase1].
    assert (Hpos : 0 < 2 ^ k) by (apply Z.pow_pos_nonneg; lia).
    rewrite (IH (i + 2) inst1 audio1 Hk Hmask1)
      by (rewrite Hbase1; apply Z.mod_pos_bound; exact Hpos).
    rewrite Hbase1, Zplus_mod_idemp_l. f_equal. lia.
Qed.

(** X6: a block of [frames] frames moves the Work Area cursor by one
    sample per frame pair, around the Work Area: on a Work Area of
    power-of-two size with its cursor inside, the cursor ends at
    [(base + frames / 2) mod size], in v1 and v2 alike. *)
Theorem X6_block_advances_cursor (inst : psxverb_instance_t F)
    (audio : list Z) (frames : Z) :
  workarea_pow2 (work inst) ->
  0 <= WorkArea.base (work inst) < workarea_size (work inst) ->
  0 <= frames ->
  let target :=
    (WorkArea.base (work inst) + frames / 2) mod workarea_size (work inst) in
  WorkArea.base (work (fst (v2_process_block inst audio frames))) = target
  /\ WorkArea.base (work (fst (fx_process_block inst audio frames))) = target.
Proof.
  intros (k & Hk & Hmask) Hbase Hframes. cbv zeta.
  unfold workarea_size in Hbase |- * . rewrite Hmask in Hbase |- * .
  replace (2 ^ k - 1 + 1) with (2 ^ k) in Hbase |- * by lia.
  rewrite v2_process_block_pairs, fx_process_block_pairs.
  rewrite !(process_pairs_base _ k) by assumption.
  assert (Hhalf : 0 <= frames / 2) by (apply Z.div_pos; lia).
  rewrite Z2Nat.id by exact Hhalf. split; reflexivity.
Qed.

End BlockState.

(** X6 on a fresh v2 instance (Work Area of 65536 samples, cursor 0) and a
    block of 128 frames. *)
Lemma X6_block_advances_cursor_witness :
  let inst : psxverb_instance_t Q :=
    set_work {| WorkArea.buf := replicate 8 0; WorkArea.size_mask := 7;
                WorkArea.base := 6 |} v2_create_instance in
  let audio := replicate 12 0 in
  workarea_pow2 (work inst)
  /\ 0 <= WorkArea.base (work inst) < workarea_size (work inst)
  /\ 0 <= 6
  /\ WorkArea.base (work (fst (v2_process_block inst audio 6))) = (6 + 6 / 2) mod 8
  /\ WorkArea.base (work (fst (fx_process_block inst audio 6))) = (6 + 6 / 2) mod 8.
Proof.
  intros inst audio.
  assert (Hpow : workarea_pow2 (work inst)).
  { exists 3. split; [lia|reflexivity]. }
  assert (Hbase : 0 <= WorkArea.base (work inst) < workarea_size (work inst)).
  { vm_compute. split; [discriminate|reflexivity]. }
  assert (Hframes : 0 <= 6) by lia.
  split; [exact Hpow|]. split; [exact Hbase|]. split; [exact Hframes|].
  exact (X6_block_advances_cursor inst audio 6 Hpow Hbase Hframes).
Defined.

(** ** The Work Area as a circular delay line *)

Section Circular.
Context {F : Type} `{FloatOps F}.

Lemma workarea_advance_index (wa : workarea_t) (n offset : Z) :
  workarea_pow2 wa ->
  workarea_index (workarea_advance wa n) offset
  = workarea_index wa (offset + n).
Proof.
  intros (k & Hk & Hmask).
  rewrite (workarea_index_mod (workarea_advance wa n) k offset Hk Hmask).
  rewrite (workarea_index_mod wa k (offset + n) Hk Hmask).
  unfold workarea_advance. cbn [WorkArea.base].
  change (Z.land (wrap_u32 (WorkArea.base wa + n)) (WorkArea.size_mask wa))
    with (workarea_index wa n).
  rewrite (workarea_index_mod wa k n Hk Hmask).
  rewrite Zplus_mod_idemp_l. f_equal. lia.
Qed.

Lemma workarea_wrap_index (wa : workarea_t) (offset j : Z) :
  workarea_pow2 wa ->
  workarea_index wa (offset + j * workarea_size wa) = workarea_index wa offset.
Proof.
  intros (k & Hk & Hmask).
  rewrite !(workarea_index_mod wa k _ Hk Hmask).
  unfold workarea_size. rewrite Hmask.
  replace (2 ^ k - 1 + 1) with (2 ^ k) by lia.
  rewrite Z.add_assoc. apply Z_mod_plus_full.
Qed.

Lemma workarea_advance_read (wa : workarea_t) (n offset : Z) :
  workarea_pow2 wa ->
  workarea_read_relative (workarea_advance wa n) offset
  = workarea_read_relative wa (offset + n).
Proof.
  intros Hpow. unfold workarea_read_relative. cbv zeta.
  now rewrite (workarea_advance_index wa n offset Hpow).
Qed.

(** X7: the Work Area is a circular delay line.  On a Work Area of
    power-of-two size, advancing the cursor by [n] shifts every offset by
    [n] (what was read at [offset + n] is now read at [offset]), and
    offsets that differ by a multiple of the size address the same
    sample, for reading and for writing. *)
Theorem X7_workarea_circular (wa : workarea_t) (offset n j : Z) (value : F) :
  workarea_pow2 wa ->
  workarea_read_relative (workarea_advance wa n) offset
  = workarea_read_relative wa (offset + n)
  /\ workarea_read_relative wa (offset + j * workarea_size wa)
     = workarea_read_relative wa offset
  /\ workarea_write_relative wa (offset + j * workarea_size wa) value
     = workarea_write_relative wa offset value.
Proof.
  intros Hpow. split; [now apply workarea_advance_read|].
  unfold workarea_read_relative, workarea_write_relative. cbv zeta.
  rewrite (workarea_wrap_index wa offset j Hpow).
  split; reflexivity.
Qed.

End Circular.

(** X7 on a Work Area of eight samples with the cursor at 5. *)
Lemma X7_workarea_circular_witness :
  let wa := {| WorkArea.buf := [10; 11; 12; 13; 14; 15; 16; 17];
               WorkArea.size_mask := 7; WorkArea.base := 5 |} in
  workarea_pow2 wa
  /\ workarea_read_relative (F:=Q) (workarea_advance wa 4) 2
     = workarea_read_relative wa (2 + 4)
  /\ workarea_read_relative (F:=Q) wa (2 + -3 * workarea_size wa)
     = workarea_read_relative wa 2.
Proof.
  intros wa.
  assert (Hpow : workarea_pow2 wa) by (exists 3; split; [lia|reflexivity]).
  split; [exact Hpow|].
  destruct (X7_workarea_circular (F:=Q) wa 2 4 (-3) 0%Q Hpow) as (H1 & H2 & _).
  split; assumption.
Defined.

(** X8: a sample written at offset [m] is read back [t] ticks later at
    offset [m - t], quantized to 1/32768: the delay of a tap is the
    distance between the write offset and the read offset.  The value
    lies inside (-65536, 65536), where its conversion is defined. *)
Theorem X8_workarea_delay (wa : workarea_t) (m t : Z) (value : Q) :
  workarea_wf wa -> workarea_pow2 wa -> (-65536 < value < 65536)%Q ->
  (workarea_read_relative
     (workarea_advance (workarea_write_relative wa m value) t) (m - t)
   == quantize16 value)%Q.
Proof.
  intros Hwf Hpow Hvalue.
  assert (Hpow' : workarea_pow2 (workarea_write_relative wa m value))
    by exact Hpow.
  rewrite (workarea_advance_read _ t (m - t) Hpow').
  replace (m - t + t) with m by lia.
  now apply workarea_read_written.
Qed.

(** X8 on a Work Area of eight samples: 0.25 written one sample ahead of
    the cursor and read back three ticks later. *)
Lemma X8_workarea_delay_witness :
  let wa := {| WorkArea.buf := replicate 8 0; WorkArea.size_mask := 7;
               WorkArea.base := 5 |} in
  workarea_wf wa /\ workarea_pow2 wa /\ (-65536 < 0.25 < 65536)%Q
  /\ (workarea_read_relative
        (workarea_advance (workarea_write_relative wa 1 0.25%Q) 3) (1 - 3)
      == quantize16 0.25)%Q.
Proof.
  intros wa.
  assert (Hwf : workarea_wf wa) by (unfold workarea_wf; cbn; lia).
  assert (Hpow : workarea_pow2 wa) by (exists 3; split; [lia|reflexivity]).
  assert (Hvalue : (-65536 < 0.25 < 65536)%Q) by (split; reflexivity).
  split; [exact Hwf|]. split; [exact Hpow|]. split; [exact Hvalue|].
  exact (X8_workarea_delay wa 1 3 0.25%Q Hwf Hpow Hvalue).
Defined.

(** ** Parameters and coefficients *)

Section CoherenceProperties.
Context {F : Type} `{FloatOps F}.

Lemma v2_coherent_volumes_only (s : psxverb_instance_t F) :
  v2_coherent s -> base_loaded s /\ volumes_only s.
Proof.
  intros [Hb Hc]. split; [exact Hb|]. unfold volumes_only.
  rewrite Hc. unfold derived_volumes. repeat eexists.
Qed.

Lemma v1_coherent_volumes_only (s : psxverb_instance_t F) :
  v1_coherent s -> base_loaded s /\ volumes_only s.
Proof.
  intros [Hb Hc]. split; [exact Hb|]. unfold volumes_only.
  rewrite Hc. unfold derived_volumes. repeat eexists.
Qed.

(** The three v2 updates bring [current] in step with the controls. *)
Lemma v2_updates_coherent (s : psxverb_instance_t F) :
  base_loaded s -> volumes_only s ->
  v2_coherent (v2_update_reverb_level (v2_update_input_gain (v2_update_decay s))).
Proof.
  intros Hb (wall & lin & rin & lout & rout & Hc).
  destruct s as [idx d m g r cur b w dl dr ul ur].
  cbn [current base] in Hc. subst cur. split; [exact Hb|]. reflexivity.
Qed.

Lemma v2_update_decay_coherent (s : psxverb_instance_t F) (d : F) :
  v2_coherent s -> v2_coherent (v2_update_decay (set_decay d s)).
Proof.
  intros [Hb Hc]. destruct s as [idx d0 m g r cur b w dl dr ul ur].
  cbn [current base decay input_gain reverb_level] in Hc. subst cur.
  split; [exact Hb|]. reflexivity.
Qed.

Lemma v2_set_mix_coherent (s : psxverb_instance_t F) (m : F) :
  v2_coherent s -> v2_coherent (set_mix m s).
Proof.
  intros [Hb Hc]. destruct s as [idx d0 m0 g r cur b w dl dr ul ur].
  split; [exact Hb|exact Hc].
Qed.

Lemma v2_update_input_gain_coherent (s : psxverb_instance_t F) (g : F) :
  v2_coherent s -> v2_coherent (v2_update_input_gain (set_input_gain g s)).
Proof.
  intros [Hb Hc]. destruct s as [idx d0 m g0 r cur b w dl dr ul ur].
  cbn [current base decay input_gain reverb_level] in Hc. subst cur.
  split; [exact Hb|]. reflexivity.
Qed.

Lemma v2_update_reverb_level_coherent (s : psxverb_instance_t F) (r : F) :
  v2_coherent s ->
  v2_coherent (v2_update_reverb_level (set_reverb_level r s)).
Proof.
  intros [Hb Hc]. destruct s as [idx d0 m g r0 cur b w dl dr ul ur].
  cbn [current base decay input_gain reverb_level] in Hc. subst cur.
  split; [exact Hb|]. reflexivity.
Qed.

Lemma v2_apply_preset_coherent (s : psxverb_instance_t F) (idx : Z) :
  0 <= idx <= 5 -> v2_coherent (v2_apply_preset s idx).
Proof.
  intros Hidx. unfold v2_apply_preset.
  assert (Hguard : (idx <? 0) || (idx >=? 6) = false).
  { apply orb_false_iff. split; lia. }
  rewrite Hguard. cbv zeta.
  split; [split; [exact Hidx|reflexivity]|reflexivity].
Qed.

Lemma v2_updates_controls (s : psxverb_instance_t F) :
  same_controls s
    (v2_update_reverb_level (v2_update_input_gain (v2_update_decay s))).
Proof. repeat split. Qed.

Lemma v2_apply_preset_controls (s : psxverb_instance_t F) (idx : Z) :
  same_controls s (v2_apply_preset s idx).
Proof.
  unfold v2_apply_preset. destruct ((idx <? 0) || (idx >=? 6)); repeat split.
Qed.

(** The controls a state restore reads replace the old ones; the preset
    index is replaced when the text holds another valid one, and then
    that preset is applied; otherwise the three updates are run. *)
Lemma v2_set_state_cases (s : psxverb_instance_t F) (val : string) :
  exists s1 : psxverb_instance_t F,
    current s1 = current s /\ base s1 = base s /\ work s1 = work s
    /\ (kept_or_clamped (decay s) (decay s1)
        /\ kept_or_clamped (mix s) (mix s1)
        /\ kept_or_clamped (input_gain s) (input_gain s1)
        /\ kept_or_clamped (reverb_level s) (reverb_level s1))
    /\ (preset_idx s1 = preset_idx s
        /\ v2_set_state s val
           = v2_update_reverb_level
               (v2_update_input_gain (v2_update_decay s1))
        \/ 0 <= preset_idx s1 <= 5
           /\ v2_set_state s val = v2_apply_preset s1 (preset_idx s1)).
Proof.
  unfold v2_set_state.
  set (m1 := match json_get_number val "preset" with
             | Some v => _ | None => _ end).
  assert (Hm1 : (current (fst m1) = current s /\ base (fst m1) = base s
                 /\ work (fst m1) = work s /\ same_controls s (fst m1))
                /\ (snd m1 = false /\ preset_idx (fst m1) = preset_idx s
                    \/ snd m1 = true /\ 0 <= preset_idx (fst m1) <= 5)).
  { subst m1. destruct (json_get_number val "preset") as [v|].
    - destruct ((f_to_int v >=? 0) && (f_to_int v <? 6)
                && negb (f_to_int v =? preset_idx s)) eqn:Hc.
      + split; [repeat split|]. right. split; [reflexivity|].
        cbn [fst preset_idx set_preset_idx]. lia.
      + split; [repeat split|]. left. split; reflexivity.
    - split; [repeat split|]. left. split; reflexivity. }
  destruct m1 as [s0 changed]. cbn [fst snd] in Hm1.
  destruct Hm1 as [(Hc0 & Hb0 & Hw0 & Hk0) Hidx].
  set (s1 := match json_get_number val "decay" with
             | Some v => _ | None => _ end).
  set (s2 := match json_get_number val "mix" with
             | Some v => _ | None => _ end).
  set (s3 := match json_get_number val "input_gain" with
             | Some v => _ | None => _ end).
  set (s4 := match json_get_number val "reverb_level" with
             | Some v => _ | None => _ end).
  assert (H1 : (preset_idx s1 = preset_idx s0 /\ current s1 = current s0
                /\ base s1 = base s0 /\ work s1 = work s0)
               /\ kept_or_clamped (decay s0) (decay s1)
               /\ mix s1 = mix s0 /\ input_gain s1 = input_gain s0
               /\ reverb_level s1 = reverb_level s0).
  { subst s1. destruct (json_get_number val "decay") as [v|];
      (split; [repeat split|]); (split; [|repeat split]);
      [right; eexists; reflexivity|left; reflexivity]. }
  assert (H2 : (preset_idx s2 = preset_idx s1 /\ current s2 = current s1
                /\ base s2 = base s1 /\ work s2 = work s1)
               /\ kept_or_clamped (mix s1) (mix s2)
               /\ decay s2 = decay s1 /\ input_gain s2 = input_gain s1
               /\ reverb_level s2 = reverb_level s1).
  { subst s2. destruct (json_get_number val "mix") as [v|];
      (split; [repeat split|]); (split; [|repeat split]);
      [right; eexists; reflexivity|left; reflexivity]. }
  assert (H3 : (preset_idx s3 = preset_idx s2 /\ current s3 = current s2
                /\ base s3 = base s2 /\ work s3 = work s2)
               /\ kept_or_clamped (input_gain s2) (input_gain s3)
               /\ decay s3 = decay s2 /\ mix s3 = mix s2
               /\ reverb_level s3 = reverb_level s2).
  { subst s3. destruct (json_get_number val "input_gain") as [v|];
      (split; [repeat split|]); (split; [|repeat split]);
      [right; eexists; reflexivity|left; reflexivity]. }
  assert (H4 : (preset_idx s4 = preset_idx s3 /\ current s4 = current s3
                /\ base s4 = base s3 /\ work s4 = work s3)
               /\ kept_or_clamped (reverb_level s3) (reverb_level s4)
               /\ decay s4 = decay s3 /\ mix s4 = mix s3
               /\ input_gain s4 = input_gain s3).
  { subst s4. destruct (json_get_number val "reverb_level") as [v|];
      (split; [repeat split|]); (split; [|repeat split]);
      [right; eexists; reflexivity|left; reflexivity]. }
  clearbody s1 s2 s3 s4.
  destruct Hk0 as (K1 & K2 & K3 & K4).
  destruct H1 as ((A1 & A2 & A3 & A4) & Ak & Am & Ag & Ar).
  destruct H2 as ((B1 & B2 & B3 & B4) & Bk & Bd & Bg & Br).
  destruct H3 as ((C1 & C2 & C3 & C4) & Ck & Cd & Cm & Cr).
  destruct H4 as ((D1 & D2 & D3 & D4) & Dk & Dd & Dm & Dg).
  exists s4.
  split; [congruence|]. split; [congruence|]. split; [congruence|].
  split.
  { unfold kept_or_clamped. repeat split.
    - destruct Ak as [E | [v E]]; [left|right; exists v]; congruence.
    - destruct Bk as [E | [v E]]; [left|right; exists v]; congruence.
    - destruct Ck as [E | [v E]]; [left|right; exists v]; congruence.
    - destruct Dk as [E | [v E]]; [left|right; exists v]; congruence. }
  destruct Hidx as [[-> Hi] | [-> Hi]].
  - left. split; [congruence|reflexivity].
  - right. split; [|reflexivity].
    replace (preset_idx s4) with (preset_idx s0) by congruence. exact Hi.
Qed.

Lemma v2_set_state_coherent (s : psxverb_instance_t F) (val : string) :
  v2_coherent s -> v2_coherent (v2_set_state s val).
Proof.
  intros Hs. destruct (v2_coherent_volumes_only s Hs) as [[Hi Hb] Hv].
  destruct (v2_set_state_cases s val)
    as (s1 & Hc1 & Hb1 & _ & _ & [[Hi1 ->] | [Hi1 ->]]).
  - apply v2_updates_coherent.
    + unfold base_loaded. rewrite Hi1, Hb1. split; assumption.
    + unfold volumes_only. rewrite Hc1, Hb1. exact Hv.
  - now apply v2_apply_preset_coherent.
Qed.

Lemma v2_set_param_coherent (s : psxverb_instance_t F) (key val : string) :
  v2_coherent s -> v2_coherent (v2_set_param s key val).
Proof.
  intros Hs. unfold v2_set_param.
  destruct (key_is key "state"); [now apply v2_set_state_coherent|].
  destruct (key_is key "preset").
  { cbv zeta.
    destruct ((atoi val >=? 0) && (atoi val <? 6)) eqn:Hr; [|exact Hs].
    apply v2_apply_preset_coherent. lia. }
  destruct (key_is key "decay"); [now apply v2_update_decay_coherent|].
  destruct (key_is key "mix"); [now apply v2_set_mix_coherent|].
  destruct (key_is key "input_gain");
    [now apply v2_update_input_gain_coherent|].
  destruct (key_is key "reverb_level");
    [now apply v2_update_reverb_level_coherent|].
  exact Hs.
Qed.

End CoherenceProperties.

(** ** Control values, in binary32 arithmetic *)

Lemma b32_one : f_lit 1 = S754_finite false 8388608 (-23).
Proof. reflexivity. Qed.

(** Of two positive values, one that is not below the other is at least
    the other. *)
Lemma b32_not_lt_le (m1 m2 : positive) (e1 e2 : Z) :
  SFltb (S754_finite false m1 e1) (S754_finite false m2 e2) = false ->
  SFleb (S754_finite false m2 e2) (S754_finite false m1 e1) = true.
Proof.
  unfold SFltb, SFleb, SFcompare.
  change (Pos.compare_cont Eq m1 m2) with (Pos.compare m1 m2).
  change (Pos.compare_cont Eq m2 m1) with (Pos.compare m2 m1).
  rewrite (Z.compare_antisym e1 e2), (Pos.compare_antisym m1 m2).
  destruct (e1 ?= e2); cbn; try discriminate; try reflexivity.
  destruct (m1 ?= m2)%positive; cbn; try discriminate; reflexivity.
Qed.

(** What is neither below 0.0 nor above 1.0 is NaN or lies in [0, 1]. *)
Lemma b32_between (v : spec_float) :
  (v <. f_lit 0) = false -> (f_lit 1 <. v) = false -> b32_unit_or_nan v.
Proof.
  intros Hlo Hhi. unfold b32_unit_or_nan.
  destruct v as [s | s | | s m e].
  - right. split; reflexivity.
  - destruct s; discriminate.
  - left. reflexivity.
  - destruct s; [discriminate|]. right. split; [reflexivity|].
    rewrite b32_one in Hhi |- * . now apply b32_not_lt_le.
Qed.

(** The clamp of v2 and the two [if]s of v1 leave a value in [0, 1], or
    NaN: a comparison with NaN fails, so NaN passes both. *)
Lemma b32_clamp01_v2 (v : spec_float) :
  b32_unit_or_nan (clamp_f v (f_lit 0) (f_lit 1)).
Proof.
  unfold clamp_f.
  destruct (v <. f_lit 0) eqn:Hlo; [right; split; reflexivity|].
  destruct (f_lit 1 <. v) eqn:Hhi; [right; split; reflexivity|].
  now apply b32_between.
Qed.

Lemma b32_clamp01_v1 (v : spec_float) : b32_unit_or_nan (clamp01_v1 v).
Proof.
  unfold clamp01_v1. cbv zeta.
  destruct (v <. f_lit 0) eqn:Hlo.
  - right. split; reflexivity.
  - destruct (f_lit 1 <. v) eqn:Hhi; [right; split; reflexivity|].
    now apply b32_between.
Qed.

Lemma b32_kept_or_clamped (old new : spec_float) :
  kept_or_clamped old new -> b32_unit_or_nan old -> b32_unit_or_nan new.
Proof. intros [-> | [v ->]] Hold; [exact Hold|apply b32_clamp01_v2]. Qed.

Lemma b32_same_controls (s s' : psxverb_instance_t spec_float) :
  same_controls s s' ->
  b32_controls_unit_or_nan s -> b32_controls_unit_or_nan s'.
Proof.
  intros (Hd & Hm & Hg & Hr). unfold b32_controls_unit_or_nan.
  now rewrite Hd, Hm, Hg, Hr.
Qed.

Lemma b32_set_state_controls (s : psxverb_instance_t spec_float)
    (val : string) :
  b32_controls_unit_or_nan s -> b32_controls_unit_or_nan (v2_set_state s val).
Proof.
  intros (Hd & Hm & Hg & Hr).
  destruct (v2_set_state_cases s val)
    as (s1 & _ & _ & _ & (Kd & Km & Kg & Kr) & Hcase).
  assert (H1 : b32_controls_unit_or_nan s1).
  { repeat split; eapply b32_kept_or_clamped; eassumption. }
  destruct Hcase as [[_ ->] | [_ ->]].
  - exact (b32_same_controls _ _ (v2_updates_controls s1) H1).
  - exact (b32_same_controls _ _ (v2_apply_preset_controls s1 _) H1).
Qed.

(** Reduce the control fields of a state after a control change. *)
Ltac control_fields :=
  cbv zeta;
  unfold b32_controls_unit_or_nan, v2_update_decay, v2_update_input_gain,
    v2_update_reverb_level, update_decay, update_input_gain,
    update_reverb_level;
  cbv zeta;
  cbn [decay mix input_gain reverb_level set_decay set_mix set_input_gain
       set_reverb_level set_current].

(** X9: in binary32 arithmetic the four controls stay inside [0, 1], or
    become NaN.  Whatever key and value text [set_param] is given
    (numbers out of range, infinities, text that is not a number, a state
    object), controls that were in [0, 1] or NaN are so afterwards, in v2
    [v2_set_param] and v1 [fx_set_param] alike; and the value text "nan"
    does get through the clamp: it makes the decay NaN. *)
Theorem X9_controls_in_unit_range_or_nan (s : psxverb_instance_t spec_float)
    (key val : string) :
  b32_controls_unit_or_nan s ->
  b32_controls_unit_or_nan (v2_set_param s key val)
  /\ b32_controls_unit_or_nan (fx_set_param s key val)
  /\ decay (v2_set_param s "decay" "nan") = S754_nan
  /\ decay (fx_set_param s "decay" "nan") = S754_nan.
Proof.
  intros Hs. pose proof Hs as (Hd & Hm & Hg & Hr).
  split; [|split; [|split; reflexivity]].
  - unfold v2_set_param.
    destruct (key_is key "state"); [now apply b32_set_state_controls|].
    destruct (key_is key "preset").
    { cbv zeta. destruct ((atoi val >=? 0) && (atoi val <? 6)); [|exact Hs].
      exact (b32_same_controls _ _ (v2_apply_preset_controls s _) Hs). }
    destruct (key_is key "decay").
    { control_fields.
      repeat split; first [apply b32_clamp01_v2 | apply Hd | apply Hm
                          | apply Hg | apply Hr]. }
    destruct (key_is key "mix").
    { control_fields.
      repeat split; first [apply b32_clamp01_v2 | apply Hd | apply Hm
                          | apply Hg | apply Hr]. }
    destruct (key_is key "input_gain").
    { control_fields.
      repeat split; first [apply b32_clamp01_v2 | apply Hd | apply Hm
                          | apply Hg | apply Hr]. }
    destruct (key_is key "reverb_level").
    { control_fields.
      repeat split; first [apply b32_clamp01_v2 | apply Hd | apply Hm
                          | apply Hg | apply Hr]. }
    exact Hs.
  - unfold fx_set_param.
    destruct (key_is key "preset").
    { assert (Hsame : same_controls s (apply_preset (atoi val) s))
        by (repeat split).
      exact (b32_same_controls _ _ Hsame Hs). }
    destruct (key_is key "decay").
    { control_fields.
      repeat split; first [apply b32_clamp01_v1 | apply Hd | apply Hm
                          | apply Hg | apply Hr]. }
    destruct (key_is key "mix").
    { control_fields.
      repeat split; first [apply b32_clamp01_v1 | apply Hd | apply Hm
                          | apply Hg | apply Hr]. }
    destruct (key_is key "input_gain").
    { control_fields.
      repeat split; first [apply b32_clamp01_v1 | apply Hd | apply Hm
                          | apply Hg | apply Hr]. }
    destruct (key_is key "level").
    { control_fields.
      repeat split; first [apply b32_clamp01_v1 | apply Hd | apply Hm
                          | apply Hg | apply Hr]. }
    exact Hs.
Qed.

(** X9 on a freshly created instance, with the decay text "7.5". *)
Lemma X9_controls_in_unit_range_or_nan_witness :
  let s : psxverb_instance_t spec_float := v2_create_instance in
  b32_controls_unit_or_nan s
  /\ b32_controls_unit_or_nan (v2_set_param s "decay" "7.5")
  /\ decay (v2_set_param s "decay" "7.5") = f_lit 1
  /\ decay (v2_set_param s "decay" "nan") = S754_nan.
Proof.
  intros s.
  assert (Hs : b32_controls_unit_or_nan s).
  { repeat split; right; split; reflexivity. }
  destruct (X9_controls_in_unit_range_or_nan s "decay" "7.5" Hs)
    as (H2 & _ & _).
  destruct (X9_controls_in_unit_range_or_nan s "decay" "nan" Hs)
    as (_ & _ & Hnan & _).
  split; [exact Hs|]. split; [exact H2|]. split; [reflexivity|exact Hnan].
Defined.

Section CoherenceTheorems.
Context {F : Type} `{FloatOps F}.

Lemma same_settings_v2_coherent (s s' : psxverb_instance_t F) :
  same_settings s s' -> v2_coherent s -> v2_coherent s'.
Proof.
  intros (Hi & Hd & Hm & Hg & Hr & Hc & Hb) [[Hidx Hbase] Hcur].
  unfold v2_coherent, base_loaded. rewrite Hi, Hd, Hg, Hr, Hc, Hb.
  split; [split; assumption|assumption].
Qed.

Lemma v1_wall_settings (s s' : psxverb_instance_t F) :
  decay s' = decay s -> base s' = base s ->
  vWALL_f (current (update_decay (decay s') s'))
  = vWALL_f (current (update_decay (decay s) s)).
Proof.
  intros Hd Hb. unfold update_decay. cbv zeta.
  cbn [current set_current vWALL_f set_vWALL_f with_volumes].
  rewrite Hd, Hb. reflexivity.
Qed.

Lemma same_settings_v1_coherent (s s' : psxverb_instance_t F) :
  same_settings s s' -> v1_coherent s -> v1_coherent s'.
Proof.
  intros (Hi & Hd & Hm & Hg & Hr & Hc & Hb) [[Hidx Hbase] Hcur].
  unfold v1_coherent, base_loaded.
  rewrite (v1_wall_settings s s' Hd Hb), Hi, Hg, Hr, Hc, Hb.
  split; [split; assumption|assumption].
Qed.

(** X10: in v2 the coefficients in use are always in step with the preset
    and the controls.  [base] is the selected preset, scaled, and
    [current] is [base] with the wall coefficient times the decay, the
    input volumes times twice the input gain and the output volumes times
    four times the reverb level.  This holds of a freshly created
    instance and is kept by [v2_set_param] with any key and value (a
    state restore included) and by [v2_process_block]. *)
Theorem X10_v2_coefficients_follow_controls (inst : psxverb_instance_t F)
    (key val : string) (audio : list Z) (frames : Z) :
  v2_coherent inst ->
  v2_coherent (v2_create_instance (F:=F))
  /\ v2_coherent (v2_set_param inst key val)
  /\ v2_coherent (fst (v2_process_block inst audio frames)).
Proof.
  intros Hs. split; [|split].
  - unfold v2_create_instance. cbv zeta. apply v2_apply_preset_coherent.
    cbn. lia.
  - now apply v2_set_param_coherent.
  - apply (same_settings_v2_coherent inst); [|exact Hs].
    rewrite v2_process_block_pairs. apply process_pairs_settings.
Qed.

(** *** API v1 *)

Lemma v1_update_decay_coherent (s : psxverb_instance_t F) (d : F) :
  v1_coherent s ->
  v1_coherent (let g := set_decay d s in update_decay (decay g) g).
Proof.
  intros [Hb Hc]. destruct s as [idx d0 m g r cur b w dl dr ul ur].
  cbn [current base decay input_gain reverb_level] in Hc.
  split; [exact Hb|]. cbv zeta. unfold update_decay in Hc |- * . cbv zeta in Hc |- * .
  cbn [current base decay input_gain reverb_level set_decay set_current
       vWALL_f set_vWALL_f with_volumes] in Hc |- * .
  rewrite Hc. reflexivity.
Qed.

Lemma v1_set_mix_coherent (s : psxverb_instance_t F) (m : F) :
  v1_coherent s -> v1_coherent (set_mix m s).
Proof.
  intros [Hb Hc]. destruct s as [idx d0 m0 g r cur b w dl dr ul ur].
  split; [exact Hb|exact Hc].
Qed.

Lemma v1_update_input_gain_coherent (s : psxverb_instance_t F) (x : F) :
  v1_coherent s ->
  v1_coherent (let g := set_input_gain x s in update_input_gain (input_gain g) g).
Proof.
  intros [Hb Hc]. destruct s as [idx d0 m g r cur b w dl dr ul ur].
  cbn [current base decay input_gain reverb_level] in Hc.
  split; [exact Hb|]. cbv zeta. unfold update_decay in Hc |- * . cbv zeta in Hc |- * .
  cbn [current base decay input_gain reverb_level set_input_gain set_current
       update_input_gain vWALL_f set_vWALL_f with_volumes] in Hc |- * .
  rewrite Hc. reflexivity.
Qed.

Lemma v1_update_reverb_level_coherent (s : psxverb_instance_t F) (x : F) :
  v1_coherent s ->
  v1_coherent
    (let g := set_reverb_level x s in update_reverb_level (reverb_level g) g).
Proof.
  intros [Hb Hc]. destruct s as [idx d0 m g r cur b w dl dr ul ur].
  cbn [current base decay input_gain reverb_level] in Hc.
  split; [exact Hb|]. cbv zeta. unfold update_decay in Hc |- * . cbv zeta in Hc |- * .
  cbn [current base decay input_gain reverb_level set_reverb_level set_current
       update_reverb_level vWALL_f set_vWALL_f with_volumes] in Hc |- * .
  rewrite Hc. reflexivity.
Qed.

Lemma apply_preset_coherent (s : psxverb_instance_t F) (idx : Z) :
  v1_coherent (apply_preset idx s).
Proof.
  split.
  - unfold base_loaded.
    rewrite (proj1 (apply_preset_selects s idx)),
            (proj2 (apply_preset_selects s idx)).
    split; [unfold clamp_index; lia|reflexivity].
  - unfold apply_preset. cbv zeta. reflexivity.
Qed.

Lemma fx_set_param_coherent (s : psxverb_instance_t F) (key val : string) :
  v1_coherent s -> v1_coherent (fx_set_param s key val).
Proof.
  intros Hs. unfold fx_set_param.
  destruct (key_is key "preset"); [apply apply_preset_coherent|].
  destruct (key_is key "decay"); [now apply v1_update_decay_coherent|].
  destruct (key_is key "mix"); [now apply v1_set_mix_coherent|].
  destruct (key_is key "input_gain");
    [now apply v1_update_input_gain_coherent|].
  destruct (key_is key "level");
    [now apply v1_update_reverb_level_coherent|].
  exact Hs.
Qed.

(** X11: in v1 the coefficients in use are always in step with the preset
    and the controls.  [g_base] is the selected preset, scaled, and
    [g_current] is [g_base] with the wall coefficient that [update_decay]
    computes from the decay, the input volumes times twice the input gain
    and the output volumes times four times the reverb level.  This holds
    after [fx_on_load] and is kept by [fx_set_param] with any key and
    value and by [fx_process_block]. *)
Theorem X11_v1_coefficients_follow_controls (g : psxverb_instance_t F)
    (key val : string) (audio : list Z) (frames : Z) :
  v1_coherent g ->
  v1_coherent (fx_on_load (F:=F))
  /\ v1_coherent (fx_set_param g key val)
  /\ v1_coherent (fst (fx_process_block g audio frames)).
Proof.
  intros Hs. split; [|split].
  - unfold fx_on_load. cbv zeta. apply apply_preset_coherent.
  - now apply fx_set_param_coherent.
  - apply (same_settings_v1_coherent g); [|exact Hs].
    rewrite fx_process_block_pairs. apply process_pairs_settings.
Qed.

End CoherenceTheorems.

(** X10 on a freshly created instance: the decay set to 0.25, then a block
    of four frames. *)
Lemma X10_v2_coefficients_follow_controls_witness :
  let inst : psxverb_instance_t Q := v2_create_instance in
  v2_coherent inst
  /\ v2_coherent (v2_set_param inst "decay" "0.25")
  /\ v2_coherent (fst (v2_process_block inst [1; 2; 3; 4; 5; 6; 7; 8] 4)).
Proof.
  intros inst.
  assert (Hs : v2_coherent inst).
  { unfold inst, v2_create_instance. cbv zeta.
    apply v2_apply_preset_coherent. cbn. lia. }
  split; [exact Hs|].
  exact (proj2 (X10_v2_coefficients_follow_controls inst "decay" "0.25"
                  [1; 2; 3; 4; 5; 6; 7; 8] 4 Hs)).
Defined.

(** X11 on the plugin as loaded: the key "level" set to 1, then a block of
    four frames. *)
Lemma X11_v1_coefficients_follow_controls_witness :
  let g : psxverb_instance_t Q := fx_on_load in
  v1_coherent g
  /\ v1_coherent (fx_set_param g "level" "1")
  /\ v1_coherent (fst (fx_process_block g [1; 2; 3; 4; 5; 6; 7; 8] 4)).
Proof.
  intros g.
  assert (Hs : v1_coherent g).
  { unfold g, fx_on_load. cbv zeta. apply apply_preset_coherent. }
  split; [exact Hs|].
  exact (proj2 (X11_v1_coefficients_follow_controls g "level" "1"
                  [1; 2; 3; 4; 5; 6; 7; 8] 4 Hs)).
Defined.

(** ** Reading parameters *)

Lemma substring_length_le (s : string) (n : nat) :
  (String.length (String.substring 0 n s) <= n)%nat.
Proof.
  revert n. induction s as [|c s IH]; intros n.
  - destruct n; cbn; lia.
  - destruct n as [|n]; cbn [String.substring String.length]; [lia|].
    specialize (IH n). lia.
Qed.

Lemma substring_length_text (s : string) (n : nat) :
  (String.length (String.substring 0 n s) <= String.length s)%nat.
Proof.
  revert n. induction s as [|c s IH]; intros n.
  - destruct n; cbn; lia.
  - destruct n as [|n]; cbn [String.substring String.length]; [lia|].
    specialize (IH n). lia.
Qed.

Lemma snprintf_ret_fits (buf_len : Z) (s : string) :
  0 < buf_len -> fits_buffer buf_len (snprintf_ret buf_len s).
Proof.
  intros Hlen. unfold fits_buffer, snprintf_ret, snprintf_buf. cbn [fst snd].
  pose proof (substring_length_le s (Z.to_nat (buf_len - 1))) as H1.
  pose proof (substring_length_text s (Z.to_nat (buf_len - 1))) as H2.
  split; [lia|]. split; [lia|].
  intros Hr. rewrite substring_whole by lia. reflexivity.
Qed.

Lemma strcpy_ret_fits (buf_len : Z) (s : string) :
  fits_buffer buf_len (strcpy_ret buf_len s).
Proof.
  unfold fits_buffer, strcpy_ret. cbv zeta.
  destruct (Z.of_nat (String.length s) <? buf_len) eqn:Hfit; cbn [fst snd].
  - split; [lia|]. split; [lia|reflexivity].
  - reflexivity.
Qed.

Section ReadingParameters.
Context {F : Type} `{FloatOps F}.

(** X12: [get_param] never writes past its buffer.  For every key, what
    v2 [v2_get_param] writes into a buffer of any length [n] is shorter
    than [n] (so the terminating zero fits) and not longer than the
    returned length; when the returned length is below [n] the text is
    complete; when nothing is written (an unknown key, a text that does
    not fit the guarded copy, a length of zero or less) the result is -1.
    The same holds for v1 [fx_get_param] on a buffer of at least one
    byte. *)
Theorem X12_get_param_fits_buffer (s : psxverb_instance_t F) (key : string)
    (n buf_len : Z) :
  0 < buf_len ->
  fits_buffer n (v2_get_param s key n)
  /\ fits_buffer buf_len (fx_get_param s key buf_len).
Proof.
  intros Hpos. split.
  - unfold v2_get_param.
    destruct (n <=? 0) eqn:Hlen; [reflexivity|].
    assert (Hn : 0 < n) by lia.
    repeat match goal with
           | |- context [if key_is key ?k then _ else _] =>
               destruct (key_is key k)
           end;
      first [now apply snprintf_ret_fits | apply strcpy_ret_fits
            | reflexivity].
  - unfold fx_get_param.
    repeat match goal with
           | |- context [if key_is key ?k then _ else _] =>
               destruct (key_is key k)
           end;
      first [now apply snprintf_ret_fits | reflexivity].
Qed.

End ReadingParameters.

(** X12 on a fresh instance: the state snapshot into eight bytes is cut to
    seven characters, and reported with its full length of 82. *)
Lemma X12_get_param_fits_buffer_witness :
  let s : psxverb_instance_t Q := v2_create_instance in
  0 < 8
  /\ v2_get_param s "state" 8 = (82, Some (json_text "{'prese"))
  /\ fits_buffer 8 (v2_get_param s "state" 8)
  /\ fits_buffer 8 (fx_get_param s "decay" 8).
Proof.
  intros s.
  assert (Hpos : 0 < 8) by lia.
  split; [exact Hpos|]. split; [vm_compute; reflexivity|].
  split.
  - exact (proj1 (X12_get_param_fits_buffer s "state" 8 8 Hpos)).
  - exact (proj2 (X12_get_param_fits_buffer s "decay" 8 8 Hpos)).
Defined.

(** *** Control values as text *)

(** A text [0.ab] reads as [ab] hundredths and prints as itself. *)
Lemma two_decimals_roundtrip (a b : Z) :
  0 <= a <= 9 -> 0 <= b <= 9 ->
  let val := String "0" (String "." (String (digit_char a)
               (String (digit_char b) EmptyString))) in
  Q_fmt_fixed 2 (clamp_f (Q_atof val) (f_lit 0) (f_lit 1)) = val
  /\ Q_fmt_fixed 2 (clamp01_v1 (Q_atof val)) = val
  /\ String.length val = 4%nat.
Proof.
  intros Ha Hb.
  apply (digit_char_cases a
           (fun ca => let val := String "0" (String "." (String ca
                         (String (digit_char b) EmptyString))) in
                      Q_fmt_fixed 2 (clamp_f (Q_atof val) (f_lit 0) (f_lit 1))
                      = val
                      /\ Q_fmt_fixed 2 (clamp01_v1 (Q_atof val)) = val
                      /\ String.length val = 4%nat) Ha);
    apply (digit_char_cases b
             (fun cb => let val := String "0" (String "." (String _
                           (String cb EmptyString))) in
                        Q_fmt_fixed 2 (clamp_f (Q_atof val) (f_lit 0) (f_lit 1))
                        = val
                        /\ Q_fmt_fixed 2 (clamp01_v1 (Q_atof val)) = val
                        /\ String.length val = 4%nat) Hb);
    vm_compute; repeat split.
Qed.

(** X13: a control value written with two decimals is read back as
    written.  For a text [0.ab] with digits [a], [b], setting any of the
    four controls to it and getting the same key returns that text, in
    v2 (keys decay, mix, input_gain, reverb_level) and in v1 (keys decay,
    mix, input_gain, level), given a buffer of more than four bytes. *)
Theorem X13_control_text_roundtrip (s : psxverb_instance_t Q) (a b buf_len : Z) :
  0 <= a <= 9 -> 0 <= b <= 9 -> 4 < buf_len ->
  let val := String "0" (String "." (String (digit_char a)
               (String (digit_char b) EmptyString))) in
  (v2_get_param (v2_set_param s "decay" val) "decay" buf_len = (4, Some val)
   /\ v2_get_param (v2_set_param s "mix" val) "mix" buf_len = (4, Some val)
   /\ v2_get_param (v2_set_param s "input_gain" val) "input_gain" buf_len
      = (4, Some val)
   /\ v2_get_param (v2_set_param s "reverb_level" val) "reverb_level" buf_len
      = (4, Some val))
  /\ (fx_get_param (fx_set_param s "decay" val) "decay" buf_len
      = (4, Some val)
      /\ fx_get_param (fx_set_param s "mix" val) "mix" buf_len = (4, Some val)
      /\ fx_get_param (fx_set_param s "input_gain" val) "input_gain" buf_len
         = (4, Some val)
      /\ fx_get_param (fx_set_param s "level" val) "level" buf_len
         = (4, Some val)).
Proof.
  intros Ha Hb Hlen val.
  destruct (two_decimals_roundtrip a b Ha Hb) as (H2 & H1 & Hl). fold val in H2, H1, Hl.
  assert (Hbuf : (buf_len <=? 0) = false) by lia.
  assert (Hret : snprintf_ret buf_len val = (4, Some val)).
  { unfold snprintf_ret, snprintf_buf. rewrite substring_whole by lia.
    rewrite Hl. reflexivity. }
  unfold v2_get_param, v2_set_param, fx_get_param, fx_set_param.
  rewrite Hbuf. decide_keys. cbv zeta.
  unfold v2_update_decay, v2_update_input_gain, v2_update_reverb_level,
    update_decay, update_input_gain, update_reverb_level.
  cbv zeta.
  cbn [decay mix input_gain reverb_level set_decay set_mix set_input_gain
       set_reverb_level set_current atof fmt_fixed Q_float].
  rewrite H2, H1, Hret. repeat split; reflexivity.
Qed.

(** X13 with the text 0.35 and a buffer of 16 bytes. *)
Lemma X13_control_text_roundtrip_witness :
  let s : psxverb_instance_t Q := v2_create_instance in
  0 <= 3 <= 9 /\ 0 <= 5 <= 9 /\ 4 < 16
  /\ v2_get_param (v2_set_param s "decay" "0.35") "decay" 16
     = (4, Some "0.35"%string)
  /\ fx_get_param (fx_set_param s "level" "0.35") "level" 16
     = (4, Some "0.35"%string).
Proof.
  intros s.
  assert (Ha : 0 <= 3 <= 9) by lia.
  assert (Hb : 0 <= 5 <= 9) by lia.
  assert (Hlen : 4 < 16) by lia.
  split; [exact Ha|]. split; [exact Hb|]. split; [exact Hlen|].
  destruct (X13_control_text_roundtrip s 3 5 16 Ha Hb Hlen)
    as [(H1 & _) (_ & _ & _ & H2)].
  split; [exact H1|exact H2].
Defined.

(** ** Snapshots *)

(** X14: a state snapshot restores itself.  For a preset index in [0, 5]
    and four controls in [0, 1] that are whole numbers of
    ten-thousandths, the text [get_param("state")] emits for them, given
    to [set_param("state", _)] of any instance, makes the next
    [get_param("state")] return that very text (into a buffer that holds
    it). *)
Theorem X14_snapshot_restores_itself (inst : psxverb_instance_t Q)
    (p kd km kg kr buf_len : Z) :
  0 <= p <= 5 ->
  0 <= kd <= 10000 -> 0 <= km <= 10000 ->
  0 <= kg <= 10000 -> 0 <= kr <= 10000 ->
  let X := fmt_state p (kd # 10000) (km # 10000) (kg # 10000) (kr # 10000) in
  Z.of_nat (String.length X) < buf_len ->
  v2_get_param (v2_set_param inst "state" X) "state" buf_len
  = (Z.of_nat (String.length X), Some X).
Proof.
  intros Hp Hkd Hkm Hkg Hkr X Hlen.
  destruct (fmt_state_numbers p kd km kg kr ltac:(lia) Hkd Hkm Hkg Hkr)
    as ((vp & Hgp & Hvp) & Hgd & Hgm & Hgg & Hgr).
  fold X in Hgp, Hgd, Hgm, Hgg, Hgr.
  apply (state_restore_snapshot inst X vp (kd # 10000) (km # 10000)
           (kg # 10000) (kr # 10000));
    first [assumption | reflexivity].
Qed.

(** X14 at a freshly created instance: preset 2, decay 0.1234, mix 0,
    input gain 1, reverb level 0.5, and a buffer of 256 bytes. *)
Lemma X14_snapshot_restores_itself_witness :
  let inst : psxverb_instance_t Q := v2_create_instance in
  let X := fmt_state 2 (1234 # 10000) (0 # 10000) (10000 # 10000)
             (5000 # 10000) in
  0 <= 2 <= 5 /\ 0 <= 1234 <= 10000 /\ 0 <= 0 <= 10000
  /\ 0 <= 10000 <= 10000 /\ 0 <= 5000 <= 10000
  /\ Z.of_nat (String.length X) < 256
  /\ v2_get_param (v2_set_param inst "state" X) "state" 256
     = (Z.of_nat (String.length X), Some X).
Proof.
  intros inst X.
  assert (Hp : 0 <= 2 <= 5) by lia.
  assert (Hd : 0 <= 1234 <= 10000) by lia.
  assert (Hm : 0 <= 0 <= 10000) by lia.
  assert (Hg : 0 <= 10000 <= 10000) by lia.
  assert (Hr : 0 <= 5000 <= 10000) by lia.
  assert (Hlen : Z.of_nat (String.length X) < 256) by (vm_compute; reflexivity).
  repeat (split; [assumption|]).
  exact (X14_snapshot_restores_itself inst 2 1234 0 10000 5000 256
           Hp Hd Hm Hg Hr Hlen).
Defined.

(** ** Preset changes and the reverb tail *)

Section PresetClears.
Context {F : Type} `{FloatOps F}.

Lemma preset_sizes (idx : Z) :
  0 <= idx <= 5 ->
  (let n := next_pow2 (Preset.work_size (preset_at idx) / sizeof_int16_t) in
   let size := if n >? WORK_MAX_SIZE then WORK_MAX_SIZE else n in
   1 <= size <= WORK_MAX_SIZE /\ wrap_u32 (size - 1) = size - 1)
  /\ (let n := next_pow2 (Preset.work_size (preset_at idx)) in
      let size := if n >? WORK_MAX_SIZE then WORK_MAX_SIZE else n in
      1 <= size <= WORK_MAX_SIZE /\ wrap_u32 (size - 1) = size - 1).
Proof.
  intros Hidx.
  destruct (preset_index_cases idx Hidx)
    as [-> | [-> | [-> | [-> | [-> | ->]]]]];
    vm_compute; intuition congruence.
Qed.

Lemma memset_get (a : list Z) (n i : Z) :
  0 <= i < n -> n <= Z.of_nat (length a) -> array_get (memset a 0 n) i 0 = 0.
Proof.
  intros Hi Hn. unfold array_get, memset.
  destruct (i <? 0) eqn:Hneg; [lia|].
  rewrite lookup_app_l by (rewrite length_replicate; lia).
  rewrite lookup_replicate_2 by lia. reflexivity.
Qed.

(** A freshly cleared Work Area of [size] samples reads zero everywhere. *)
Lemma cleared_read (a : list Z) (size offset : Z) :
  1 <= size <= Z.of_nat (length a) -> wrap_u32 (size - 1) = size - 1 ->
  workarea_read_relative
    {| WorkArea.buf := memset a 0 size;
       WorkArea.size_mask := wrap_u32 (size - 1); WorkArea.base := 0 |} offset
  = f_of_int 0 *. kInt16ToFloat.
Proof.
  intros Hsize Hmask. unfold workarea_read_relative. cbv zeta.
  cbn [WorkArea.buf]. rewrite Hmask.
  unfold workarea_index. cbn [WorkArea.base WorkArea.size_mask].
  pose proof (land_mask_range (wrap_u32 (0 + offset)) (size - 1) ltac:(lia))
    as Hidx.
  rewrite memset_get by lia. reflexivity.
Qed.

(** X15: selecting a preset cuts the reverb tail.  After v2
    [v2_apply_preset] with a valid index, and after v1 [apply_preset]
    with any index, the Work Area (of the [WORK_MAX_SIZE] samples the
    plugin allocates) has its cursor at 0 and reads zero at every offset,
    while the four resampler histories are left as they were. *)
Theorem X15_preset_change_clears_work_area (s : psxverb_instance_t F)
    (idx v1_idx offset : Z) :
  0 <= idx <= 5 ->
  Z.of_nat (length (WorkArea.buf (work s))) = WORK_MAX_SIZE ->
  (let s' := v2_apply_preset s idx in
   WorkArea.base (work s') = 0
   /\ workarea_read_relative (work s') offset = f_of_int 0 *. kInt16ToFloat
   /\ resamplers s' = resamplers s)
  /\ (let s' := apply_preset v1_idx s in
      WorkArea.base (work s') = 0
      /\ workarea_read_relative (work s') offset = f_of_int 0 *. kInt16ToFloat
      /\ resamplers s' = resamplers s).
Proof.
  intros Hidx Hlen. cbv zeta. split.
  - rewrite (v2_apply_preset_work s idx Hidx). cbv zeta.
    destruct (proj2 (preset_sizes idx Hidx)) as [Hsize Hmask].
    cbv zeta in Hsize, Hmask.
    split; [reflexivity|]. split.
    + apply cleared_read; [rewrite Hlen; exact Hsize|exact Hmask].
    + unfold v2_apply_preset.
      assert (Hguard : (idx <? 0) || (idx >=? 6) = false).
      { apply orb_false_iff. split; lia. }
      rewrite Hguard. reflexivity.
  - rewrite (apply_preset_work s v1_idx). cbv zeta.
    assert (Hc : 0 <= clamp_index v1_idx <= 5) by (unfold clamp_index; lia).
    destruct (proj1 (preset_sizes (clamp_index v1_idx) Hc)) as [Hsize Hmask].
    cbv zeta in Hsize, Hmask.
    split; [reflexivity|]. split.
    + unfold workarea_init.
      apply cleared_read; [rewrite Hlen; exact Hsize|exact Hmask].
    + reflexivity.
Qed.

End PresetClears.

(** X15 on a fresh instance (preset Hall), switching to Room in v2 and to
    the out-of-range index 9 in v1; 1238 is the offset [mLSAME] of Room. *)
Lemma X15_preset_change_clears_work_area_witness :
  let s : psxverb_instance_t Q := v2_create_instance in
  0 <= 0 <= 5
  /\ Z.of_nat (length (WorkArea.buf (work s))) = WORK_MAX_SIZE
  /\ (workarea_read_relative (F:=Q) (work (v2_apply_preset s 0)) 1238 == 0)%Q
  /\ (workarea_read_relative (F:=Q) (work (apply_preset 9 s)) 1238 == 0)%Q.
Proof.
  intros s.
  assert (Hidx : 0 <= 0 <= 5) by lia.
  assert (Hlen : Z.of_nat (length (WorkArea.buf (work s))) = WORK_MAX_SIZE).
  { unfold s, v2_create_instance. cbv zeta.
    apply v2_apply_preset_wf; [cbn; lia|].
    cbn [work set_halfbands initial_state WorkArea.buf].
    rewrite length_replicate. reflexivity. }
  split; [exact Hidx|]. split; [exact Hlen|].
  destruct (X15_preset_change_clears_work_area s 0 9 1238 Hidx Hlen)
    as [(_ & H2 & _) (_ & H1 & _)].
  cbv zeta in H1, H2. rewrite H1, H2. split; reflexivity.
Defined.

(** ** Resampler cursors *)

Section Resamplers.
Context {F : Type} `{FloatOps F}.

Lemma halfband_push_wf (hb : halfband_t F) (x : F) :
  length (state (halfband_push hb x)) = length (state hb)
  /\ cursor_moved 1 hb (halfband_push hb x).
Proof.
  unfold halfband_push, cursor_moved. cbn [state pos].
  rewrite array_set_length. split; [reflexivity|].
  change HB_STATE_MASK with (Z.ones 6). rewrite Z.land_ones by lia.
  reflexivity.
Qed.

Lemma cursor_moved_trans (n m : Z) (hb1 hb2 hb3 : halfband_t F) :
  cursor_moved n hb1 hb2 -> cursor_moved m hb2 hb3 ->
  cursor_moved (n + m) hb1 hb3.
Proof.
  unfold cursor_moved. intros H12 H23. rewrite H23, H12.
  rewrite Zplus_mod_idemp_l. f_equal. lia.
Qed.

Lemma halfband_decimate_wf (hb : halfband_t F) (x0 x1 : F) :
  length (state (fst (halfband_decimate hb x0 x1))) = length (state hb)
  /\ cursor_moved 2 hb (fst (halfband_decimate hb x0 x1)).
Proof.
  unfold halfband_decimate. cbv zeta. cbn [fst].
  destruct (halfband_push_wf hb x0) as [L1 C1].
  destruct (halfband_push_wf (halfband_push hb x0) x1) as [L2 C2].
  split; [congruence|]. exact (cursor_moved_trans 1 1 _ _ _ C1 C2).
Qed.

Lemma halfband_interpolate_wf (hb : halfband_t F) (x : F) :
  length (state (fst (halfband_interpolate hb x))) = length (state hb)
  /\ cursor_moved 2 hb (fst (halfband_interpolate hb x)).
Proof.
  unfold halfband_interpolate. cbv zeta. cbn [fst].
  destruct (halfband_push_wf hb x) as [L1 C1].
  destruct (halfband_push_wf (halfband_push hb x) (f_lit 0)) as [L2 C2].
  split; [congruence|]. exact (cursor_moved_trans 1 1 _ _ _ C1 C2).
Qed.

Lemma process_pair_resamplers (final_clamp : F -> F)
    (s : psxverb_instance_t F) (audio : list Z) (i : Z) :
  resamplers_moved 2 s (fst (process_pair final_clamp s audio i)).
Proof.
  rewrite process_pair_shape. cbv zeta.
  unfold resamplers_moved, resamplers.
  cbn [fst down_l down_r up_l up_r set_halfbands].
  repeat constructor;
    first [apply halfband_decimate_wf | apply halfband_interpolate_wf].
Qed.

Lemma resamplers_moved_trans (n m : Z) (s1 s2 s3 : psxverb_instance_t F) :
  resamplers_moved n s1 s2 -> resamplers_moved m s2 s3 ->
  resamplers_moved (n + m) s1 s3.
Proof.
  unfold resamplers_moved, resamplers. intros H12 H23.
  repeat match goal with
         | H : Forall2 _ (_ :: _) (_ :: _) |- _ =>
             apply Forall2_cons in H; destruct H as [[? ?] ?]
         end.
  repeat constructor; first [congruence | eapply cursor_moved_trans; eassumption].
Qed.

Lemma process_pairs_resamplers (final_clamp : F -> F) (m : nat) :
  forall (i : Z) (s : psxverb_instance_t F) (audio : list Z),
    Forall (fun hb => 0 <= pos hb < HB_STATE_SIZE) (resamplers s) ->
    resamplers_moved (2 * Z.of_nat m) s
      (fst (process_pairs final_clamp (pairs_from m i) (s, audio))).
Proof.
  induction m as [|m IH]; intros i s audio Hpos.
  - cbn [pairs_from process_pairs fold_left fst].
    unfold resamplers_moved, resamplers in Hpos |- * .
    repeat match goal with
           | H : Forall _ (_ :: _) |- _ =>
               apply Forall_cons in H; destruct H as [? ?]
           end.
    repeat constructor; unfold cursor_moved; rewrite Z.add_0_r;
      symmetry; apply Z.mod_small; assumption.
  - rewrite process_pairs_cons.
    pose proof (process_pair_resamplers final_clamp s audio i) as Hstep.
    destruct (process_pair final_clamp s audio i) as [s1 audio1].
    cbn [fst] in Hstep.
    replace (2 * Z.of_nat (S m)) with (2 + 2 * Z.of_nat m) by lia.
    eapply resamplers_moved_trans; [exact Hstep|].
    apply IH.
    unfold resamplers_moved, resamplers, cursor_moved in Hstep |- * .
    repeat match goal with
           | H : Forall2 _ (_ :: _) (_ :: _) |- _ =>
               apply Forall2_cons in H; destruct H as [[? ?] ?]
           end.
    repeat constructor;
      match goal with
      | H : pos ?hb = _ |- _ <= pos ?hb => rewrite H
      | H : pos ?hb = _ |- pos ?hb < _ => rewrite H
      end; apply Z.mod_pos_bound; reflexivity.
Qed.

(** X16: the resamplers stay inside their histories.  A block of [frames]
    frames leaves each of the four halfband histories at its length and
    moves each cursor by two samples per frame pair, around the 64-sample
    history: from a cursor inside the history the new cursor is
    [(pos + 2 * (frames / 2)) mod 64], in v1 and v2 alike. *)
Theorem X16_block_moves_resampler_cursors (s : psxverb_instance_t F)
    (audio : list Z) (frames : Z) :
  Forall (fun hb => 0 <= pos hb < HB_STATE_SIZE) (resamplers s) ->
  0 <= frames ->
  resamplers_moved (2 * (frames / 2)) s (fst (v2_process_block s audio frames))
  /\ resamplers_moved (2 * (frames / 2)) s
       (fst (fx_process_block s audio frames)).
Proof.
  intros Hpos Hframes.
  rewrite v2_process_block_pairs, fx_process_block_pairs.
  assert (Hhalf : 0 <= frames / 2) by (apply Z.div_pos; lia).
  rewrite <- (Z2Nat.id (frames / 2)) at 1 3 by exact Hhalf.
  split; apply process_pairs_resamplers; exact Hpos.
Qed.

End Resamplers.

(** X16 on a fresh instance and a block of 70 frames: the cursors end at
    [(0 + 70) mod 64 = 6]. *)
Lemma X16_block_moves_resampler_cursors_witness :
  let s : psxverb_instance_t Q := v2_create_instance in
  let audio := replicate 140 0 in
  Forall (fun hb => 0 <= pos hb < HB_STATE_SIZE) (resamplers s)
  /\ 0 <= 70
  /\ resamplers_moved (2 * (70 / 2)) s (fst (v2_process_block s audio 70)).
Proof.
  intros s audio.
  assert (Hpos : Forall (fun hb => 0 <= pos hb < HB_STATE_SIZE) (resamplers s)).
  { unfold resamplers.
    repeat (apply Forall_cons; split;
            [change (0 <= 0 < 64); split; [discriminate|reflexivity]|]).
    constructor. }
  assert (Hframes : 0 <= 70) by lia.
  split; [exact Hpos|]. split; [exact Hframes|].
  exact (proj1 (X16_block_moves_resampler_cursors s audio 70 Hpos Hframes)).
Defined.

(** ** Restoring a state without keys *)

Section RestoreWithoutKeys.
Context {F : Type} `{FloatOps F}.

Lemma json_get_number_absent (val : string) :
  (key_absent val "preset" -> json_get_number val "preset" = None)
  /\ (key_absent val "decay" -> json_get_number val "decay" = None)
  /\ (key_absent val "mix" -> json_get_number val "mix" = None)
  /\ (key_absent val "input_gain" -> json_get_number val "input_gain" = None)
  /\ (key_absent val "reverb_level"
      -> json_get_number val "reverb_level" = None).
Proof.
  assert (Hshort : forall k : string,
            (String.length (String dquote (k ++ String dquote ":")) <= 63)%nat ->
            key_absent val k -> json_get_number val k = None).
  { intros k Hlen Hk. unfold json_get_number, snprintf_buf.
    rewrite substring_whole by exact Hlen.
    unfold key_absent in Hk. now rewrite Hk. }
  repeat split; apply Hshort; vm_compute; lia.
Qed.

(** On a coherent instance the three updates recompute what is there. *)
Lemma v2_updates_fixed (s : psxverb_instance_t F) :
  v2_coherent s ->
  v2_update_reverb_level (v2_update_input_gain (v2_update_decay s)) = s.
Proof.
  intros [_ Hc]. destruct s as [idx d m g r cur b w dl dr ul ur].
  cbn [current base decay input_gain reverb_level] in Hc. subst cur.
  reflexivity.
Qed.

(** X17: restoring a state text that holds none of the five keys (an empty
    object, an empty text, a text in another format) changes nothing: an
    instance whose coefficients are in step with its controls comes back
    exactly as it was, Work Area and resampler histories included. *)
Theorem X17_state_restore_without_keys (s : psxverb_instance_t F)
    (val : string) :
  v2_coherent s ->
  key_absent val "preset" -> key_absent val "decay" ->
  key_absent val "mix" -> key_absent val "input_gain" ->
  key_absent val "reverb_level" ->
  v2_set_param s "state" val = s.
Proof.
  intros Hs Hp Hd Hm Hg Hr.
  destruct (json_get_number_absent val) as (Ap & Ad & Am & Ag & Ar).
  unfold v2_set_param. decide_keys. unfold v2_set_state.
  rewrite (Ap Hp), (Ad Hd), (Am Hm), (Ag Hg), (Ar Hr).
  now apply v2_updates_fixed.
Qed.

End RestoreWithoutKeys.

(** X17 on a freshly created instance and the empty object. *)
Lemma X17_state_restore_without_keys_witness :
  let s : psxverb_instance_t Q := v2_create_instance in
  v2_coherent s
  /\ key_absent "{}" "preset" /\ key_absent "{}" "decay"
  /\ key_absent "{}" "mix" /\ key_absent "{}" "input_gain"
  /\ key_absent "{}" "reverb_level"
  /\ v2_set_param s "state" "{}" = s.
Proof.
  intros s.
  assert (Hs : v2_coherent s).
  { unfold s, v2_create_instance. cbv zeta.
    apply v2_apply_preset_coherent. cbn. lia. }
  assert (Hp : key_absent "{}" "preset") by reflexivity.
  assert (Hd : key_absent "{}" "decay") by reflexivity.
  assert (Hm : key_absent "{}" "mix") by reflexivity.
  assert (Hg : key_absent "{}" "input_gain") by reflexivity.
  assert (Hr : key_absent "{}" "reverb_level") by reflexivity.
  split; [exact Hs|]. split; [exact Hp|]. split; [exact Hd|].
  split; [exact Hm|]. split; [exact Hg|]. split; [exact Hr|].
  exact (X17_state_restore_without_keys s "{}" Hs Hp Hd Hm Hg Hr).
Defined.

(** ** The earlier approximate reverb *)

Section LegacyBlocks.
Context {F : Type} `{FloatOps F}.

(** The loop body writes the two samples of its frame, each the mix of
    its own input with a diffused sample, and keeps the settings. *)
Lemma legacy_frame_shape (ew : F) (g : Legacy.globals F) (audio : list Z)
    (i : Z) :
  exists wet_l wet_r : F,
    snd (Legacy.process_frame ew g audio i)
    = array_set
        (array_set audio (i * 2)
           (legacy_mix_sample g (sample_in audio (i * 2)) wet_l))
        (i * 2 + 1)
        (legacy_mix_sample g (sample_in audio (i * 2 + 1)) wet_r).
Proof.
  unfold Legacy.process_frame. cbv zeta. cbn [snd]. eexists. eexists.
  reflexivity.
Qed.

Lemma legacy_frame_settings (ew : F) (g : Legacy.globals F)
    (audio : list Z) (i : Z) :
  legacy_same_settings g (fst (Legacy.process_frame ew g audio i)).
Proof. repeat split. Qed.

Lemma legacy_frame_length (ew : F) (g : Legacy.globals F) (audio : list Z)
    (i : Z) :
  length (snd (Legacy.process_frame ew g audio i)) = length audio.
Proof.
  destruct (legacy_frame_shape ew g audio i) as (wl & wr & ->).
  now rewrite !array_set_length.
Qed.

Lemma legacy_frame_other (ew : F) (g : Legacy.globals F) (audio : list Z)
    (i k d : Z) :
  0 <= i -> 0 <= k -> k < 2 * i \/ 2 * i + 2 <= k ->
  array_get (snd (Legacy.process_frame ew g audio i)) k d
  = array_get audio k d.
Proof.
  intros Hi Hk Hout.
  destruct (legacy_frame_shape ew g audio i) as (wl & wr & ->).
  rewrite !array_get_set_other by lia. reflexivity.
Qed.

Lemma legacy_frame_own (ew : F) (g : Legacy.globals F) (audio : list Z)
    (i k : Z) :
  0 <= i -> 2 * i <= k < 2 * i + 2 -> k < Z.of_nat (length audio) ->
  exists wet : F,
    array_get (snd (Legacy.process_frame ew g audio i)) k 0
    = legacy_mix_sample g (sample_in audio k) wet.
Proof.
  intros Hi Hk Hlen.
  destruct (legacy_frame_shape ew g audio i) as (wl & wr & ->).
  assert (Hcases : k = i * 2 \/ k = i * 2 + 1) by lia.
  destruct Hcases as [-> | ->].
  - exists wl. rewrite array_get_set_other by lia.
    now rewrite array_get_set_same by lia.
  - exists wr.
    now rewrite array_get_set_same by (rewrite array_set_length; lia).
Qed.

Lemma legacy_frames_step (n : nat) (ew : F) (i : Z) (g : Legacy.globals F)
    (audio : list Z) :
  Legacy.process_frames (S n) ew i g audio
  = Legacy.process_frames n ew (i + 1)
      (fst (Legacy.process_frame ew g audio i))
      (snd (Legacy.process_frame ew g audio i)).
Proof.
  cbn [Legacy.process_frames].
  destruct (Legacy.process_frame ew g audio i) as [g1 audio1]. reflexivity.
Qed.

Lemma legacy_frames_settings (n : nat) (ew : F) :
  forall (i : Z) (g : Legacy.globals F) (audio : list Z),
    legacy_same_settings g (fst (Legacy.process_frames n ew i g audio))
    /\ length (snd (Legacy.process_frames n ew i g audio)) = length audio.
Proof.
  induction n as [|n IH]; intros i g audio.
  - split; [repeat split|reflexivity].
  - rewrite legacy_frames_step.
    destruct (IH (i + 1) (fst (Legacy.process_frame ew g audio i))
                (snd (Legacy.process_frame ew g audio i))) as [Hs Hl].
    split.
    + pose proof (legacy_frame_settings ew g audio i) as H1.
      unfold legacy_same_settings in Hs, H1 |- * .
      repeat match goal with H : _ /\ _ |- _ => destruct H end.
      repeat split; congruence.
    + rewrite Hl. apply legacy_frame_length.
Qed.

Lemma legacy_frames_other (n : nat) (ew : F) :
  forall (i : Z) (g : Legacy.globals F) (audio : list Z) (k d : Z),
    0 <= i -> 0 <= k -> k < 2 * i \/ 2 * i + 2 * Z.of_nat n <= k ->
    array_get (snd (Legacy.process_frames n ew i g audio)) k d
    = array_get audio k d.
Proof.
  induction n as [|n IH]; intros i g audio k d Hi Hk Hout; [reflexivity|].
  rewrite legacy_frames_step, IH by lia.
  apply legacy_frame_other; lia.
Qed.

(** Every sample of the frames the loop runs over is the mix of the input
    sample at its place with a diffused sample. *)
Lemma legacy_frames_sample (n : nat) (ew : F) :
  forall (i : Z) (g : Legacy.globals F) (audio : list Z) (k : Z),
    0 <= i -> 2 * i <= k < 2 * i + 2 * Z.of_nat n ->
    k < Z.of_nat (length audio) ->
    exists wet : F,
      array_get (snd (Legacy.process_frames n ew i g audio)) k 0
      = legacy_mix_sample g (sample_in audio k) wet.
Proof.
  induction n as [|n IH]; intros i g audio k Hi Hk Hlen; [lia|].
  rewrite legacy_frames_step.
  destruct (Z.lt_ge_cases k (2 * i + 2)) as [Hhere | Hlater].
  - rewrite legacy_frames_other by lia.
    apply legacy_frame_own; lia.
  - destruct (IH (i + 1) (fst (Legacy.process_frame ew g audio i))
                (snd (Legacy.process_frame ew g audio i)) k
                ltac:(lia) ltac:(lia)
                ltac:(rewrite legacy_frame_length; lia)) as [wet Hout].
    exists wet. rewrite Hout. unfold legacy_mix_sample, sample_in.
    rewrite legacy_frame_other by lia. reflexivity.
Qed.

(** X18: a block of the earlier reverb changes nothing but the sound.  It
    leaves the preset, the controls, the delays and the wall coefficient
    as they were and the audio buffer at its length, and it leaves every
    sample from [2 * frames] on untouched. *)
Theorem X18_legacy_block_keeps_settings (g : Legacy.globals F)
    (audio : list Z) (frames k : Z) :
  0 <= frames -> 2 * frames <= k ->
  let r := Legacy.fx_process_block g audio frames in
  legacy_same_settings g (fst r)
  /\ length (snd r) = length audio
  /\ array_get (snd r) k 0 = array_get audio k 0.
Proof.
  intros Hframes Hk. cbv zeta. unfold Legacy.fx_process_block.
  destruct (legacy_frames_settings (Z.to_nat frames) (Legacy.effective_wall g)
              0 g audio) as [Hs Hl].
  split; [exact Hs|]. split; [exact Hl|].
  apply legacy_frames_other; lia.
Qed.

(** X19: selecting a preset in the earlier reverb.  Whatever text is given
    for the key "preset", the index is clamped to [0, 5], the comb delays
    of that preset lie inside the work buffers of [WORK_SIZE] samples and
    its allpass delays inside the 2048-sample allpass buffers, and,
    unlike in the SPU-accurate variants, no buffer is cleared: buffers,
    cursor and lowpass state are as before, and so are decay and mix. *)
Theorem X19_legacy_preset_change (g : Legacy.globals F) (val : string) :
  let g' := Legacy.fx_set_param g "preset" val in
  Legacy.g_preset g' = clamp_index (atoi val)
  /\ Forall (fun d => 0 < d < Legacy.WORK_SIZE)
       [Legacy.g_comb1_delay g'; Legacy.g_comb2_delay g';
        Legacy.g_comb3_delay g'; Legacy.g_comb4_delay g']
  /\ Forall (fun d => 0 < d < 2048)
       [Legacy.g_apf1_delay g'; Legacy.g_apf2_delay g']
  /\ legacy_same_buffers g g'
  /\ Legacy.g_decay g' = Legacy.g_decay g /\ Legacy.g_mix g' = Legacy.g_mix g.
Proof.
  cbv zeta. unfold Legacy.fx_set_param. decide_keys. cbv zeta.
  unfold Legacy.apply_preset. cbv zeta. rewrite !clamp_index_ifs.
  cbn [Legacy.g_preset Legacy.g_comb1_delay Legacy.g_comb2_delay
       Legacy.g_comb3_delay Legacy.g_comb4_delay Legacy.g_apf1_delay
       Legacy.g_apf2_delay Legacy.g_decay Legacy.g_mix].
  split; [reflexivity|].
  assert (Hidx : 0 <= clamp_index (atoi val) <= 5) by (unfold clamp_index; lia).
  split; [|split; [|split; [repeat split|split; reflexivity]]];
    destruct (preset_index_cases _ Hidx)
      as [-> | [-> | [-> | [-> | [-> | ->]]]]];
    repeat constructor.
Qed.

End LegacyBlocks.

(** X18 on the plugin as loaded, a block of three frames and sample 6, the
    first one after the block. *)
Lemma X18_legacy_block_keeps_settings_witness :
  let g : Legacy.globals Q := Legacy.fx_on_load Legacy.initial_globals in
  let audio := [1000; -2000; 3000; 4000; 5; 6; 7; 8] in
  0 <= 3 /\ 2 * 3 <= 6
  /\ legacy_same_settings g (fst (Legacy.fx_process_block g audio 3))
  /\ array_get (snd (Legacy.fx_process_block g audio 3)) 6 0
     = array_get audio 6 0.
Proof.
  intros g audio.
  assert (Hframes : 0 <= 3) by lia.
  assert (Hk : 2 * 3 <= 6) by lia.
  split; [exact Hframes|]. split; [exact Hk|].
  destruct (X18_legacy_block_keeps_settings g audio 3 6 Hframes Hk)
    as (H1 & _ & H2).
  split; [exact H1|exact H2].
Defined.

(** *** The wall feedback *)

Lemma legacy_wall_bound (idx : Z) :
  0 <= idx <= 5 ->
  (0.5 <= Legacy.g_wall_coeff
            (Legacy.apply_preset (F:=Q) idx Legacy.initial_globals) <= 0.8)%Q.
Proof.
  intros Hidx.
  destruct (preset_index_cases _ Hidx)
    as [-> | [-> | [-> | [-> | [-> | ->]]]]];
    vm_compute; split; discriminate.
Qed.

(** X20: the wall feedback of the earlier reverb stays below one.  For
    every preset text and a decay in [0, 1] (which [fx_set_param]
    guarantees) the feedback [g_wall_coeff * (0.5 + g_decay * 0.45)] of a
    block lies in [0.25, 0.76]. *)
Theorem X20_legacy_feedback_below_one (g : Legacy.globals Q) (val : string) :
  (0 <= Legacy.g_decay g <= 1)%Q ->
  (0.25 <= Legacy.effective_wall (Legacy.fx_set_param g "preset" val)
   <= 0.76)%Q.
Proof.
  intros Hd. unfold Legacy.fx_set_param. decide_keys. cbv zeta.
  assert (Hidx : 0 <= clamp_index (atoi val) <= 5) by (unfold clamp_index; lia).
  pose proof (legacy_wall_bound _ Hidx) as Hw.
  unfold Legacy.effective_wall.
  assert (Hwall : Legacy.g_wall_coeff (Legacy.apply_preset (atoi val) g)
                  = Legacy.g_wall_coeff
                      (Legacy.apply_preset (F:=Q) (clamp_index (atoi val))
                         Legacy.initial_globals)).
  { unfold Legacy.apply_preset. cbv zeta.
    rewrite !clamp_index_ifs, !clamp_index_idem. reflexivity. }
  assert (Hdecay : Legacy.g_decay (Legacy.apply_preset (atoi val) g)
                   = Legacy.g_decay g) by reflexivity.
  rewrite Hwall, Hdecay. cbn [f_mul f_add f_lit Q_float].
  revert Hw Hd.
  generalize (Legacy.g_wall_coeff
                (Legacy.apply_preset (F:=Q) (clamp_index (atoi val))
                   Legacy.initial_globals)).
  generalize (Legacy.g_decay g). intros d w Hw Hd. split; nra.
Qed.

(** X20 with the decay at its upper end and the preset Space Echo. *)
Lemma X20_legacy_feedback_below_one_witness :
  let g : Legacy.globals Q :=
    Legacy.fx_set_param (Legacy.fx_on_load Legacy.initial_globals)
      "decay" "1" in
  (0 <= Legacy.g_decay g <= 1)%Q
  /\ (0.25 <= Legacy.effective_wall (Legacy.fx_set_param g "preset" "5")
      <= 0.76)%Q.
Proof.
  intros g.
  assert (Hd : (0 <= Legacy.g_decay g <= 1)%Q) by (split; discriminate).
  split; [exact Hd|].
  exact (X20_legacy_feedback_below_one g "5" Hd).
Defined.

